(** * Elevation tile compositing of rocky, embedded from [ElevationLayer.cpp]

    The development follows the source file top to bottom:

    - the raster and tile-key data model the functions work on;
    - [validateHeightfield] and [ElevationLayer::normalizeNoDataValues];
    - [ElevationLayer::assembleHeightfield], the cross-profile mosaic;
    - [ElevationLayer::createHeightfieldInKeyProfile] and [createHeightfield];
    - [resolveInvalidHeights] and [ElevationLayerVector::populateHeightfield].

    The results on these are followed by further results on the same
    functions and by the embedding of [ElevationLayer::decodeMapboxRGB], of
    the layer lifecycle of [Layer.cpp], of the GDAL elevation driver
    ([GDALElevationLayer.cpp], [GDALLayers.cpp]) and of the image pipeline of
    [ImageLayer.cpp].

    Conventions.  A C++ [double] is a primitive binary64 float.  A C++ [float]
    sample is carried in the same type and every store to a [float] goes
    through [float_cast], the round-to-nearest conversion to binary32, so the
    values a heightfield holds are the binary32 ones.  [unsigned] quantities
    are [N] with the wrap-around modulo 2^32 written out where the source
    multiplies or subtracts.  The cancellation token is read as one flag
    [canceled], fixed for the duration of a call: a token flipped by another
    thread in the middle of a call is outside this sequential embedding.
    Dereferencing a null heightfield, or writing past the storage a vector
    reserved, is the outcome [Fault].  The optional per-cell resolution output
    of the compositor never feeds back into the heightfield or the returned
    flag and is left out, and so are the locks, the log messages, the
    profiling zones and the clean-up callback a mosaic registers with the
    dependency cache. *)

From Stdlib Require Import ZArith NArith Lia List Bool Floats.
From Stdlib Require String.
From stdpp Require Import base list sorting.

Set Default Proof Using "Type".
Set Warnings "-clear-no-such-hyp".

(** ** Outcomes: a call returns, or the process faults *)

Inductive outcome (A : Type) : Type :=
| Fault : outcome A
| Ret : A -> outcome A.
Arguments Fault {A}.
Arguments Ret {A} _.

Definition obind {A B} (m : outcome A) (k : A -> outcome B) : outcome B :=
  match m with
  | Fault => Fault
  | Ret a => k a
  end.

Notation "'let!' x ':=' m 'in' k" := (obind m (fun x => k))
  (at level 10, x name, m at level 100, k at level 200).

(** ** Bounded iteration of a [while] loop

    [while_fuel n guard body s] runs at most [n] iterations of
    [while (guard) body] from state [s].  Every use below passes a bound that
    the loop provably never reaches (see the termination results). *)

Fixpoint while_fuel {St : Type} (fuel : nat) (guard : St -> bool) (body : St -> St) (s : St) : St :=
  match fuel with
  | O => s
  | S n => if guard s then while_fuel n guard body (body s) else s
  end.

(** [for_each l body s] runs [body] on the elements of [l] in order, threading
    the state and stopping at the first fault. *)
Fixpoint for_each {A St : Type} (l : list A) (body : A -> St -> outcome St) (s : St) : outcome St :=
  match l with
  | [] => Ret s
  | a :: l' => let! s' := body a s in for_each l' body s'
  end.

(** [for (unsigned i = 0; i < n; ++i) body] *)
Definition for_upto {St : Type} (n : N) (body : N -> St -> outcome St) (s : St) : outcome St :=
  for_each (seq 0 (N.to_nat n)) (fun i => body (N.of_nat i)) s.

(** ** Floating-point samples *)

Definition uint32_mod : N := 4294967296%N.

(** [(float)d]: conversion of a double to the nearest binary32 value. *)
Definition float_cast (d : float) : float :=
  match Prim2SF d with
  | S754_finite s m e => SF2Prim (binary_round 24 128 s m e)
  | _ => d
  end.

(** [a += b] on [float] lvalues. *)
Definition float_add (a b : float) : float := float_cast (a + b)%float.

(** [(double)n] for an [unsigned] n. *)
Definition double_of_unsigned (n : N) : float :=
  PrimFloat.of_uint63 (Uint63.of_Z (Z.of_N (n mod uint32_mod))).

(** ** Data model *)

Definition SRS := nat.

(** Modelled from the spec: a Profile is a spatial reference system plus a
    tiling scheme ([Profile.h] is not part of the sources); a default
    constructed profile is invalid, and two profiles are equal when they agree
    on validity, scheme and SRS. *)
Record Profile := mkProfile {
  profile_valid : bool;
  profile_scheme : nat;
  profile_srs : SRS
}.

Definition Profile_default : Profile := mkProfile false 0 0.

Definition Profile_eqb (a b : Profile) : bool :=
  Bool.eqb (profile_valid a) (profile_valid b)
  && Nat.eqb (profile_scheme a) (profile_scheme b)
  && Nat.eqb (profile_srs a) (profile_srs b).

(** Modelled from the spec: a TileKey is (level, tileX, tileY, Profile)
    ([TileKey.h] is not part of the sources); it is valid when its profile
    is. *)
Record TileKey := mkTileKey {
  levelOfDetail : nat;
  tileX : nat;
  tileY : nat;
  profile : Profile
}.

Definition TileKey_valid (k : TileKey) : bool := profile_valid (profile k).

(** Modelled from the spec: [TileKey::makeParent] is not part of the sources;
    it "strictly decreases level", and the walk to the parent ends in an
    "invalid key", "bounded by tile-key level reaching 0": the parent of a
    key at level 0 is the invalid key. *)
Definition makeParent (k : TileKey) : TileKey :=
  match levelOfDetail k with
  | O => mkTileKey 0 (tileX k) (tileY k) Profile_default
  | S l => mkTileKey l (Nat.div2 (tileX k)) (Nat.div2 (tileY k)) (profile k)
  end.

Definition TileKey_eqb (a b : TileKey) : bool :=
  Nat.eqb (levelOfDetail a) (levelOfDetail b)
  && Nat.eqb (tileX a) (tileX b)
  && Nat.eqb (tileY a) (tileY b)
  && Profile_eqb (profile a) (profile b).

(** Modelled from the spec: the extent a raster covers, as its bounds in an
    SRS ([GeoExtent.h] is not part of the sources). *)
Record GeoExtent := mkGeoExtent {
  extent_valid : bool;
  extent_srs : SRS;
  xMin : float;
  yMin : float;
  xMax : float;
  yMax : float
}.

Definition extent_width (e : GeoExtent) : float := (xMax e - xMin e)%float.
Definition extent_height (e : GeoExtent) : float := (yMax e - yMin e)%float.
Definition GeoExtent_INVALID : GeoExtent := mkGeoExtent false 0 0 0 0 0.

(** Modelled from the spec: a Heightfield is a 2-D grid of fixed
    width x height float samples owning its pixel buffer ([Heightfield.h] is
    not part of the sources); the buffer is row-major, sample (c, r) at
    [r * width + c]. *)
Record Heightfield := mkHeightfield {
  width : N;
  height : N;
  data : list float
}.

Definition cell_index (hf : Heightfield) (c r : N) : nat :=
  N.to_nat (r * width hf + c).

(** [hf->heightAt(c, r)] read and write, and [hf->write(fvec4(v), c, r)].
    The loops of the source address cells inside the grid only, which a
    buffer of width x height samples ([Heightfield_wf]) holds; a read finds
    its sample there, and a write replaces it.  Outside the buffer, where
    the code's accesses are unchecked, a read is a fault and a write leaves
    the buffer as it is. *)
Definition Heightfield_read (hf : Heightfield) (c r : N) : outcome float :=
  match data hf !! cell_index hf c r with
  | Some v => Ret v
  | None => Fault
  end.

Definition Heightfield_write (hf : Heightfield) (c r : N) (v : float) : Heightfield :=
  mkHeightfield (width hf) (height hf) (<[cell_index hf c r := v]> (data hf)).

(** [Heightfield::create(s, t)]; the samples are zero until written. *)
Definition Heightfield_create (s t : N) : Heightfield :=
  mkHeightfield s t (replicate (N.to_nat (s * t)) 0%float).

(** The buffer holds exactly width x height samples. *)
Definition Heightfield_wf (hf : Heightfield) : Prop :=
  length (data hf) = N.to_nat (width hf * height hf).

(** A [shared_ptr] tested as a condition, and [vector::empty()]. *)
Definition non_null {A : Type} (p : option A) : bool :=
  match p with Some _ => true | None => false end.

Definition empty {A : Type} (l : list A) : bool :=
  match l with [] => true | _ :: _ => false end.

(** Modelled from the spec: a GeoHeightfield "pairs a Raster with the
    GeoExtent it covers" ([GeoHeightfield.h] is not part of the sources); the
    raster pointer may be null, and the pair is valid when the extent is and
    the raster is there. *)
Record GeoHeightfield := mkGeoHeightfield {
  heightfield : option Heightfield;
  extent : GeoExtent
}.

Definition GeoHeightfield_INVALID : GeoHeightfield :=
  mkGeoHeightfield None GeoExtent_INVALID.

Definition GeoHeightfield_valid (g : GeoHeightfield) : bool :=
  extent_valid (extent g) && non_null (heightfield g).

Inductive Interpolation := NEAREST | AVERAGE | BILINEAR.

Record dvec3 := mkdvec3 { vx : float; vy : float; vz : float }.

(** Modelled from the spec: the status taxonomy and the [Result<T>] pair of
    a status and a value ([Status.h] is not part of the sources). *)
Inductive StatusCode :=
| NoError | ResourceUnavailable | ServiceUnavailable
| ConfigurationError | AssertionFailure | GeneralError.

Definition StatusCode_eqb (a b : StatusCode) : bool :=
  match a, b with
  | NoError, NoError | ResourceUnavailable, ResourceUnavailable
  | ServiceUnavailable, ServiceUnavailable | ConfigurationError, ConfigurationError
  | AssertionFailure, AssertionFailure | GeneralError, GeneralError => true
  | _, _ => false
  end.

Record Result (A : Type) := mkResult { status : StatusCode; value : A }.
Arguments mkResult {A} _ _.
Arguments status {A} _.
Arguments value {A} _.

Definition status_ok {A} (r : Result A) : bool := StatusCode_eqb (status r) NoError.
Definition status_failed {A} (r : Result A) : bool := negb (status_ok r).

(** [Result(v)]: a value with the NoError status. *)
Definition Result_of (g : GeoHeightfield) : Result GeoHeightfield := mkResult NoError g.
(** [Result<GeoHeightfield>(code, message)]: a failure carrying no value. *)
Definition Result_error (c : StatusCode) : Result GeoHeightfield :=
  mkResult c GeoHeightfield_INVALID.
(** Modelled from the spec: a default constructed [Result] is a failure, so
    that the fallback walks of section 4.2 fetch every key at least once
    ([Status.h] is not part of the sources). *)
Definition Result_default : Result GeoHeightfield := Result_error ResourceUnavailable.

Record IOOptions := mkIOOptions { canceled : bool }.

(** An elevation layer: its configured state and the driver behind it.  The
    three function fields are the virtual interface of the layer
    ([createHeightfieldImplementation]) and the tile-layer queries inherited
    from [TileLayer], which is not part of the sources. *)
Record ElevationLayer := mkElevationLayer {
  isOpen : bool;
  layer_profile : Profile;
  minLevel : nat;
  tileSize : N;
  offset : bool;
  noDataValue : float;
  minValidValue : float;
  maxValidValue : float;
  isKeyInLegalRange : TileKey -> bool;
  bestAvailableTileKey : TileKey -> TileKey;
  createHeightfieldImplementation : TileKey -> IOOptions -> Result GeoHeightfield
}.

(** A coordinate operation between two SRS, applied point by point. *)
Record SRSOperation := mkSRSOperation {
  operation_valid : bool;
  transform : dvec3 -> dvec3;
  inverse : dvec3 -> dvec3
}.

(** The collaborators [ElevationLayer.cpp] calls but does not define: the
    no-data macro, [equiv] of [Math.h], tile-key geometry, SRS operations and
    raster sampling. *)
Class Collaborators := {
  NO_DATA_VALUE : float;
  (* the macro is an expression of type float *)
  NO_DATA_VALUE_is_float : float_cast NO_DATA_VALUE = NO_DATA_VALUE;
  equiv : float -> float -> bool;
  TileKey_extent : TileKey -> GeoExtent;
  getIntersectingKeys : TileKey -> Profile -> list TileKey;
  mapResolution : TileKey -> N -> N -> TileKey;
  SRS_to : SRS -> SRS -> SRSOperation;
  SortByResolutionFunctor : GeoHeightfield -> GeoHeightfield -> bool;
  heightAtLocation : GeoHeightfield -> float -> float -> Interpolation -> float;
  heightAt : GeoHeightfield -> float -> float -> SRS -> Interpolation -> float
}.

(** ** [std::vector] storage

    A vector is its size together with the storage it has allocated.
    [reserve] grows the storage and leaves the size alone; [operator[]] is
    unchecked and reaches any allocated slot; [size()], [&v[0], v.size()]
    and a range-for see the first [vec_size] slots only. *)
Record vector (A : Type) := mkVector { vec_size : nat; vec_storage : list A }.
Arguments mkVector {A} _ _.
Arguments vec_size {A} _.
Arguments vec_storage {A} _.

Definition vec_empty {A} : vector A := mkVector 0 [].

Definition vec_reserve {A} (fill : A) (n : nat) (v : vector A) : vector A :=
  mkVector (vec_size v)
    (vec_storage v ++ replicate (n - length (vec_storage v)) fill).

Definition vec_store {A} (v : vector A) (i : nat) (a : A) : outcome (vector A) :=
  if decide (i < length (vec_storage v))
  then Ret (mkVector (vec_size v) (<[i := a]> (vec_storage v)))
  else Fault.

Definition vec_load {A} (v : vector A) (i : nat) : outcome A :=
  match vec_storage v !! i with
  | Some a => Ret a
  | None => Fault
  end.

(** [for (auto& e : v) e = f(e)], and an in-place array operation handed
    [&v[0], v.size()]. *)
Definition vec_foreach {A} (f : A -> A) (v : vector A) : vector A :=
  mkVector (vec_size v)
    (map f (take (vec_size v) (vec_storage v)) ++ drop (vec_size v) (vec_storage v)).

(** [std::sort(first, last, less)], as insertion into a sorted prefix: the
    order among elements the functor does not separate is the library's
    choice. *)
Fixpoint sort_insert {A} (less : A -> A -> bool) (a : A) (l : list A) : list A :=
  match l with
  | [] => [a]
  | b :: l' => if less b a then b :: sort_insert less a l' else a :: l
  end.

Definition std_sort {A} (less : A -> A -> bool) (l : list A) : list A :=
  foldr (sort_insert less) [] l.

Section Pipeline.
Context `{Collaborators}.

(** ** [validateHeightfield] (lines 22-42) *)

Definition validateHeightfield (hf : option Heightfield) : bool :=
  match hf with
  | None => false
  | Some h =>
      if (height h <? 1)%N || (1024 <? height h)%N then false
      else if (width h <? 1)%N || (1024 <? width h)%N then false
      else true
  end.

(** ** [ElevationLayer::normalizeNoDataValues] (lines 195-214) *)

(** The test of lines 205-208. *)
Definition is_no_data (L : ElevationLayer) (h : float) : bool :=
  PrimFloat.is_nan h
  || equiv h (noDataValue L)
  || (h <? minValidValue L)%float
  || (maxValidValue L <? h)%float.

Definition normalize_sample (L : ElevationLayer) (h : float) : float :=
  if is_no_data L h then NO_DATA_VALUE else h.

(** The loop of lines 202-212 over the first [n] pixels of the buffer. *)
Fixpoint normalize_pixels (L : ElevationLayer) (n : nat) (pixels : list float) : list float :=
  match n, pixels with
  | S n', h :: rest => normalize_sample L h :: normalize_pixels L n' rest
  | _, _ => pixels
  end.

Definition normalizeNoDataValues (L : ElevationLayer) (hf : option Heightfield)
  : option Heightfield :=
  match hf with
  | None => None
  | Some h =>
      Some (mkHeightfield (width h) (height h)
              (normalize_pixels L (N.to_nat ((width h * height h) mod uint32_mod)) (data h)))
  end.

(** ** [ElevationLayer::createHeightfieldImplementation_internal] (lines 414-426)

    The shared lock and the debug log leave the driver's result as it is. *)
Definition createHeightfieldImplementation_internal
    (L : ElevationLayer) (key : TileKey) (io : IOOptions) : Result GeoHeightfield :=
  createHeightfieldImplementation L key io.

(** ** [ElevationLayer::assembleHeightfield] (lines 216-392) *)

(** State of the fallback walk of lines 273-283 for one intersecting key;
    [walk_returned] records the [return {}] of line 282. *)
Record SubTileWalk := mkSubTileWalk {
  subKey : TileKey;
  subTile : Result GeoHeightfield;
  walk_returned : bool
}.

Definition subTile_guard (s : SubTileWalk) : bool :=
  negb (walk_returned s) && TileKey_valid (subKey s) && negb (status_ok (subTile s)).

Definition subTile_body (L : ElevationLayer) (io : IOOptions) (s : SubTileWalk) : SubTileWalk :=
  let t := createHeightfieldImplementation_internal L (subKey s) io in
  let k := if status_failed t then makeParent (subKey s) else subKey s in
  mkSubTileWalk k t (canceled io).

Definition subTile_walk (L : ElevationLayer) (io : IOOptions) (intersectingKey : TileKey)
  : SubTileWalk :=
  while_fuel (S (levelOfDetail intersectingKey)) subTile_guard (subTile_body L io)
    (mkSubTileWalk intersectingKey Result_default false).

(** The loop of lines 271-295 over the intersecting keys.  [None] is the
    [return {}] on cancellation; otherwise the sources collected so far and
    [hasAtLeastOneSourceAtTargetLOD]. *)
Fixpoint collectSources (L : ElevationLayer) (io : IOOptions) (targetLOD : nat)
    (intersectingKeys : list TileKey) (sources : list GeoHeightfield)
    (hasAtLeastOneSourceAtTargetLOD : bool)
  : option (list GeoHeightfield * bool) :=
  match intersectingKeys with
  | [] => Some (sources, hasAtLeastOneSourceAtTargetLOD)
  | intersectingKey :: rest =>
      let w := subTile_walk L io intersectingKey in
      if walk_returned w then None
      else if status_ok (subTile w) then
        collectSources L io targetLOD rest
          (sources ++ [value (subTile w)])
          (if Nat.eqb (levelOfDetail (subKey w)) targetLOD then true
           else hasAtLeastOneSourceAtTargetLOD)
      else collectSources L io targetLOD rest sources hasAtLeastOneSourceAtTargetLOD
  end.

(** Lines 305-309: the output size is the max of the source sizes; a source
    whose heightfield is null is dereferenced. *)
Fixpoint maxSourceSize (sources : list GeoHeightfield) (cols rows : N) : outcome (N * N) :=
  match sources with
  | [] => Ret (cols, rows)
  | source :: rest =>
      match heightfield source with
      | None => Fault
      | Some h => maxSourceSize rest (N.max cols (width h)) (N.max rows (height h))
      end
  end.

(** Lines 360-366: a point takes the first sample, in source order, that is
    not the no-data value. *)
Fixpoint samplePoint (sources : list GeoHeightfield) (point : dvec3) : dvec3 :=
  match sources with
  | [] => point
  | source :: rest =>
      if (vz point =? NO_DATA_VALUE)%float
      then samplePoint rest
             (mkdvec3 (vx point) (vy point)
                (heightAtLocation source (vx point) (vy point) BILINEAR))
      else point
  end.

Definition point_index (cols r c : N) : nat :=
  N.to_nat ((r * cols + c) mod uint32_mod).

(** Lines 343-351: the grid of sample points at the pixel centres. *)
Definition buildGrid (cols rows : N) (minx miny dx dy : float) (points : vector dvec3)
  : outcome (vector dvec3) :=
  for_upto rows (fun r points =>
    let y := (miny + 0.5 * dy + dy * double_of_unsigned r)%float in
    for_upto cols (fun c points =>
      let x := (minx + 0.5 * dx + dx * double_of_unsigned c)%float in
      vec_store points (point_index cols r c) (mkdvec3 x y NO_DATA_VALUE)) points) points.

(** Lines 375-381: the heights are read back out of the point storage. *)
Definition assignHeights (cols rows : N) (points : vector dvec3) (output : Heightfield)
  : outcome Heightfield :=
  for_upto rows (fun r output =>
    for_upto cols (fun c output =>
      let! p := vec_load points (point_index cols r c) in
      Ret (Heightfield_write output c r (float_cast (vz p)))) output) output.

(** The mosaic object: the heightfield and the sources it keeps alive. *)
Record HeightfieldMosaic := mkHeightfieldMosaic {
  mosaic : Heightfield;
  dependencies : list (option Heightfield)
}.

(** Lines 301-381, taken when [hasAtLeastOneSourceAtTargetLOD]. *)
Definition buildMosaic (key : TileKey) (sources : list GeoHeightfield)
  : outcome HeightfieldMosaic :=
  let! size := maxSourceSize sources 0%N 0%N in
  let '(cols, rows) := size in
  match sources with
  | [] => Fault
  | source0 :: _ =>
      let xform := SRS_to (extent_srs (TileKey_extent key)) (extent_srs (extent source0)) in
      let sources := std_sort SortByResolutionFunctor sources in
      let output := Heightfield_create cols rows in
      let deps := map heightfield sources in
      let points :=
        vec_reserve (mkdvec3 0 0 0) (N.to_nat ((cols * rows) mod uint32_mod)) vec_empty in
      let ext := TileKey_extent key in
      let dx := ((xMax ext - xMin ext) / double_of_unsigned cols)%float in
      let dy := ((yMax ext - yMin ext) / double_of_unsigned rows)%float in
      let! points := buildGrid cols rows (xMin ext) (yMin ext) dx dy points in
      let points := if operation_valid xform then vec_foreach (transform xform) points else points in
      let points := vec_foreach (samplePoint sources) points in
      let points := if operation_valid xform then vec_foreach (inverse xform) points else points in
      let! output := assignHeights cols rows points output in
      Ret (mkHeightfieldMosaic output deps)
  end.

Definition assembleHeightfield (L : ElevationLayer) (key : TileKey) (io : IOOptions)
  : outcome (option HeightfieldMosaic) :=
  let targetLOD := levelOfDetail key in
  let intersectingKeys := getIntersectingKeys key (layer_profile L) in
  match collectSources L io targetLOD intersectingKeys [] false with
  | None => Ret None
  | Some (sources, hasAtLeastOneSourceAtTargetLOD) =>
      let! output :=
        (if hasAtLeastOneSourceAtTargetLOD
         then let! m := buildMosaic key sources in Ret (Some m)
         else Ret None) in
      Ret (if canceled io then None else output)
  end.

(** ** [ElevationLayer::createHeightfieldInKeyProfile] (lines 428-492) *)

(** Lines 448-462: the raster is taken from the driver when the key is in
    the layer's profile and from the mosaic assembler otherwise.  The left
    injection is the [return r] of line 453. *)
Definition acquireHeightfield (L : ElevationLayer) (key : TileKey) (io : IOOptions)
  : outcome (Result GeoHeightfield + GeoHeightfield) :=
  if Profile_eqb (profile key) (layer_profile L) then
    let r := createHeightfieldImplementation_internal L key io in
    if status_failed r then Ret (inl r) else Ret (inr (value r))
  else
    let! hf := assembleHeightfield L key io in
    Ret (inr (mkGeoHeightfield (option_map mosaic hf) (TileKey_extent key))).

Definition createHeightfieldInKeyProfile (L : ElevationLayer) (key : TileKey) (io : IOOptions)
  : outcome (Result GeoHeightfield) :=
  let my_profile := layer_profile L in
  if negb (profile_valid my_profile) || negb (isOpen L) then
    Ret (Result_error ResourceUnavailable)
  else if negb (isKeyInLegalRange L key) then
    Ret (Result_of GeoHeightfield_INVALID)
  else
    let! a := acquireHeightfield L key io in
    match a with
    | inl r => Ret r
    | inr result =>
        if canceled io then Ret (Result_of GeoHeightfield_INVALID)
        else
          let hf := heightfield result in
          if non_null hf && negb (validateHeightfield hf) then
            Ret (Result_error GeneralError)
          else
            match normalizeNoDataValues L hf with
            | None => Ret (Result_of GeoHeightfield_INVALID)
            | Some hf' => Ret (Result_of (mkGeoHeightfield (Some hf') (TileKey_extent key)))
            end
    end.

(** ** [ElevationLayer::createHeightfield] (lines 400-412) *)
Definition createHeightfield (L : ElevationLayer) (key : TileKey) (io : IOOptions)
  : outcome (Result GeoHeightfield) :=
  if negb (isOpen L) then Ret (Result_of GeoHeightfield_INVALID)
  else createHeightfieldInKeyProfile L key io.

End Pipeline.

(** ** The layer stack compositor *)

(** The [LayerData] of lines 522-528. *)
Record LayerData := mkLayerData {
  layer : ElevationLayer;
  key : TileKey;
  isFallback : bool;
  index : Z
}.

Definition Geoid := float -> float -> float.

(** [a - b] on [unsigned] operands. *)
Definition unsigned_sub (a b : N) : N := ((a + uint32_mod - b mod uint32_mod) mod uint32_mod)%N.

Section Compositor.
Context `{Collaborators}.

(** ** [resolveInvalidHeights] (lines 532-575) *)

(** The body follows the source.  One parameter stands for code that is
    not part of the sources: [geodeticExtent] is the conversion of lines
    546-548, an extent to its geodetic counterpart ([SRS::isGeodetic],
    [GeoExtent::transform], [SRS::geoSRS]), which the geoid branch needs for
    "the real-world lat/lon of each remaining no-data cell". *)
Definition resolveInvalidHeights (geodeticExtent : GeoExtent -> GeoExtent)
    (grid : option Heightfield) (ex : GeoExtent) (invalidValue : float)
    (geoid : option Geoid) : outcome (option Heightfield) :=
  match grid with
  | None => Ret None
  | Some grid =>
      match geoid with
      | Some getHeight =>
          let numRows := height grid in
          let numCols := width grid in
          let g := geodeticExtent ex in
          let latMin := yMin g in
          let lonMin := xMin g in
          let lonInterval := (extent_width g / double_of_unsigned (unsigned_sub numCols 1))%float in
          let latInterval := (extent_height g / double_of_unsigned (unsigned_sub numRows 1))%float in
          let! grid :=
            for_upto numRows (fun r grid =>
              let lat := (latMin + latInterval * double_of_unsigned r)%float in
              for_upto numCols (fun c grid =>
                let lon := (lonMin + lonInterval * double_of_unsigned c)%float in
                let! h := Heightfield_read grid c r in
                if (h =? invalidValue)%float
                then Ret (Heightfield_write grid c r (getHeight lat lon))
                else Ret grid) grid) grid in
          Ret (Some grid)
      | None =>
          Ret (Some (mkHeightfield (width grid) (height grid)
                       (map (fun height => if (height =? invalidValue)%float then 0%float else height)
                          (data grid))))
      end
  end.

(** ** [ElevationLayerVector::populateHeightfield] (lines 579-949) *)

(** Lines 616-691: one iteration of the loop that classifies the layers.
    The stack holds fewer than 2^31 layers, so [(int)size()] and the counter
    of fallback layers are exact. *)
Record Classification := mkClassification {
  contenders : list LayerData;
  offsets : list LayerData;
  numFallbackLayers : nat
}.

Definition classifyLayer (hfWidth : N) (key0 keyToUse : TileKey)
    (i : nat) (layer : ElevationLayer) (acc : Classification) : Classification :=
  if isOpen layer then
    let mappedKey := mapResolution keyToUse hfWidth (tileSize layer) in
    if levelOfDetail key0 <? minLevel layer then acc
    else
      let bestKey := bestAvailableTileKey layer mappedKey in
      if TileKey_valid bestKey then
        let n :=
          if negb (TileKey_eqb mappedKey bestKey)
          then S (numFallbackLayers acc) else numFallbackLayers acc in
        let ld := mkLayerData layer bestKey (negb (TileKey_eqb bestKey mappedKey)) (Z.of_nat i) in
        if offset layer
        then mkClassification (contenders acc) (offsets acc ++ [ld]) n
        else mkClassification (contenders acc ++ [ld]) (offsets acc) n
      else acc
  else acc.

(** The loop runs from the last layer of the stack down to the first. *)
Definition classifyLayers (hfWidth : N) (key0 keyToUse : TileKey) (layers : list ElevationLayer)
  : Classification :=
  foldl (fun acc il => classifyLayer hfWidth key0 keyToUse (fst il) (snd il) acc)
    (mkClassification [] [] 0)
    (reverse (imap (fun i l => (i, l)) layers)).

(** The vectors and counters of the resampling loop (lines 764-780), the
    running [realData] and [nodataCount], and the target heightfield.
    [aborted] records a [return false] on cancellation. *)
Record Sampling := mkSampling {
  heightfields : list GeoHeightfield;
  heightfieldActualKeys : list TileKey;
  offsetfields : list GeoHeightfield;
  heightFallback : list bool;
  heightFailed : list bool;
  offsetFailed : list bool;
  numHeightfieldsInCache : N;
  realData : bool;
  nodataCount : Z;
  target : Heightfield;
  aborted : bool
}.

Definition maxHeightfields : N := 50.

(** State of the fallback walk of lines 819-826; [fetch_fault] records a
    fault inside [createHeightfield]. *)
Record ContenderWalk := mkContenderWalk {
  layerHF : GeoHeightfield;
  actualKey : TileKey;
  fetch_fault : bool
}.

Definition contender_guard (L : ElevationLayer) (s : ContenderWalk) : bool :=
  negb (fetch_fault s)
  && negb (GeoHeightfield_valid (layerHF s))
  && TileKey_valid (actualKey s)
  && isKeyInLegalRange L (actualKey s).

Definition contender_body (L : ElevationLayer) (io : IOOptions) (s : ContenderWalk)
  : ContenderWalk :=
  match createHeightfield L (actualKey s) io with
  | Fault => mkContenderWalk (layerHF s) (actualKey s) true
  | Ret r =>
      let hf := value r in
      mkContenderWalk hf
        (if negb (GeoHeightfield_valid hf) then makeParent (actualKey s) else actualKey s)
        false
  end.

Definition contender_walk (L : ElevationLayer) (io : IOOptions)
    (hf : GeoHeightfield) (k : TileKey) : ContenderWalk :=
  while_fuel (S (levelOfDetail k)) (contender_guard L) (contender_body L io)
    (mkContenderWalk hf k false).

(** Per-cell context: the cell, its world coordinates and the fixed inputs. *)
Record Cell := mkCell {
  cell_c : N;
  cell_r : N;
  cell_x : float;
  cell_y : float
}.

(** Lines 874-884. *)
Definition clearCache (st : Sampling) : Sampling :=
  if (maxHeightfields <=? numHeightfieldsInCache st)%N then
    mkSampling
      (map (fun _ => GeoHeightfield_INVALID) (heightfields st))
      (heightfieldActualKeys st)
      (offsetfields st)
      (map (fun _ => false) (heightFallback st))
      (heightFailed st) (offsetFailed st)
      0 (realData st) (nodataCount st) (target st) (aborted st)
  else st.

(** Lines 803-885: one iteration of the contender loop for a cell.  The
    loop condition [resolvedIndex < 0] is tested first. *)
Definition contenderStep (cs : list LayerData) (keySRS : SRS) (interpolation : Interpolation)
    (io : IOOptions) (cell : Cell) (i : nat) (s : Sampling * Z) : outcome (Sampling * Z) :=
  let '(st, resolvedIndex) := s in
  if (0 <=? resolvedIndex)%Z then Ret s
  else
    match cs !! i with
    | None => Ret s
    | Some ld =>
        if default false (heightFailed st !! i) then Ret s
        else
          let hf0 := default GeoHeightfield_INVALID (heightfields st !! i) in
          let k0 := default (key ld) (heightfieldActualKeys st !! i) in
          (* lines 815-843 *)
          let w :=
            if negb (GeoHeightfield_valid hf0)
            then contender_walk (layer ld) io hf0 k0
            else mkContenderWalk hf0 k0 false in
          if fetch_fault w then Fault
          else
            let st1 :=
              mkSampling
                (<[i := layerHF w]> (heightfields st))
                (<[i := actualKey w]> (heightfieldActualKeys st))
                (offsetfields st)
                (heightFallback st) (heightFailed st) (offsetFailed st)
                (numHeightfieldsInCache st) (realData st) (nodataCount st)
                (target st) (aborted st) in
            if negb (GeoHeightfield_valid hf0) && negb (GeoHeightfield_valid (layerHF w)) then
              (* lines 838-842: mark the layer failed and continue *)
              Ret (mkSampling (heightfields st1) (heightfieldActualKeys st1) (offsetfields st1)
                     (heightFallback st1) (<[i := true]> (heightFailed st1)) (offsetFailed st1)
                     (numHeightfieldsInCache st1) (realData st1) (nodataCount st1)
                     (target st1) (aborted st1),
                   resolvedIndex)
            else
              let st2 :=
                if negb (GeoHeightfield_valid hf0) then
                  (* lines 829-837 *)
                  mkSampling (heightfields st1) (heightfieldActualKeys st1) (offsetfields st1)
                    (<[i := isFallback ld || negb (TileKey_eqb (actualKey w) (key ld))]>
                       (heightFallback st1))
                    (heightFailed st1) (offsetFailed st1)
                    ((numHeightfieldsInCache st1 + 1) mod uint32_mod)%N
                    (realData st1) (nodataCount st1) (target st1) (aborted st1)
                else st1 in
              (* lines 845-871; the heightfield is valid here *)
              let fallback := default false (heightFallback st2 !! i) in
              let real := if negb fallback then true else realData st2 in
              let elevation := heightAt (layerHF w) (cell_x cell) (cell_y cell) keySRS interpolation in
              let resolved := negb (elevation =? NO_DATA_VALUE)%float in
              let st3 :=
                mkSampling (heightfields st2) (heightfieldActualKeys st2) (offsetfields st2)
                  (heightFallback st2) (heightFailed st2) (offsetFailed st2)
                  (numHeightfieldsInCache st2) real
                  (if resolved then nodataCount st2 else (nodataCount st2 + 1)%Z)
                  (if resolved
                   then Heightfield_write (target st2) (cell_c cell) (cell_r cell) elevation
                   else target st2)
                  (aborted st2) in
              Ret (clearCache st3, if resolved then index ld else resolvedIndex)
    end.

(** Lines 887-929: one iteration of the offset loop for a cell. *)
Definition offsetStep (os : list LayerData) (keySRS : SRS) (interpolation : Interpolation)
    (io : IOOptions) (cell : Cell) (resolvedIndex : Z) (i : nat) (st : Sampling)
  : outcome Sampling :=
  if aborted st then Ret st
  else if canceled io then
    Ret (mkSampling (heightfields st) (heightfieldActualKeys st) (offsetfields st)
           (heightFallback st) (heightFailed st) (offsetFailed st)
           (numHeightfieldsInCache st) (realData st) (nodataCount st) (target st) true)
  else
    match os !! i with
    | None => Ret st
    | Some ld =>
        if (0 <=? resolvedIndex)%Z && (index ld <? resolvedIndex)%Z then Ret st
        else if default false (offsetFailed st !! i) then Ret st
        else
          let hf0 := default GeoHeightfield_INVALID (offsetfields st !! i) in
          let! hf1 :=
            (if negb (GeoHeightfield_valid hf0)
             then let! r := createHeightfield (layer ld) (key ld) io in Ret (value r)
             else Ret hf0) in
          let fields := <[i := hf1]> (offsetfields st) in
          if negb (GeoHeightfield_valid hf1) then
            Ret (mkSampling (heightfields st) (heightfieldActualKeys st) fields
                   (heightFallback st) (heightFailed st) (<[i := true]> (offsetFailed st))
                   (numHeightfieldsInCache st) (realData st) (nodataCount st)
                   (target st) (aborted st))
          else
            let elevation := heightAt hf1 (cell_x cell) (cell_y cell) keySRS interpolation in
            let! tgt :=
              (if negb (elevation =? NO_DATA_VALUE)%float && negb (equiv elevation 0%float)
               then
                 let! h := Heightfield_read (target st) (cell_c cell) (cell_r cell) in
                 Ret (Heightfield_write (target st) (cell_c cell) (cell_r cell)
                        (float_add h elevation))
               else Ret (target st)) in
            Ret (mkSampling (heightfields st) (heightfieldActualKeys st) fields
                   (heightFallback st) (heightFailed st) (offsetFailed st)
                   (numHeightfieldsInCache st) true (nodataCount st) tgt (aborted st))
    end.

(** Lines 792-935: one cell of the output. *)
Definition sampleCell (cs os : list LayerData) (keySRS : SRS) (interpolation : Interpolation)
    (io : IOOptions) (cell : Cell) (st : Sampling) : outcome Sampling :=
  let! s := for_each (seq 0 (length cs)) (contenderStep cs keySRS interpolation io cell) (st, (-1)%Z) in
  let '(st, resolvedIndex) := s in
  for_each (reverse (seq 0 (length os)))
    (offsetStep os keySRS interpolation io cell resolvedIndex) st.

(** Lines 782-936: the columns, and the rows of each column. *)
Definition sampleGrid (cs os : list LayerData) (keySRS : SRS) (interpolation : Interpolation)
    (io : IOOptions) (numColumns numRows : N) (xmin ymin dx dy : float) (st : Sampling)
  : outcome Sampling :=
  for_upto numColumns (fun c st =>
    if aborted st then Ret st
    else
      let x := (xmin + dx * double_of_unsigned c)%float in
      if canceled io then
        Ret (mkSampling (heightfields st) (heightfieldActualKeys st) (offsetfields st)
               (heightFallback st) (heightFailed st) (offsetFailed st)
               (numHeightfieldsInCache st) (realData st) (nodataCount st) (target st) true)
      else
        for_upto numRows (fun r st =>
          if aborted st then Ret st
          else
            let y := (ymin + dy * double_of_unsigned r)%float in
            sampleCell cs os keySRS interpolation io (mkCell c r x y) st) st) st.

(** Lines 764-776: the state the resampling loop starts from. *)
Definition initialSampling (cs os : list LayerData) (hf : Heightfield) : Sampling :=
  mkSampling
    (map (fun _ => GeoHeightfield_INVALID) cs)
    (map key cs)
    (map (fun _ => GeoHeightfield_INVALID) os)
    (map (fun _ => false) cs)
    (map (fun _ => false) cs)
    (map (fun _ => false) os)
    0 false 0 hf false.

(** Lines 706-713 and 761-937: the sample grid of the key's extent, and
    the resampling loop over it. *)
Definition resample (cs os : list LayerData) (key0 : TileKey) (keySRS : SRS)
    (interpolation : Interpolation) (io : IOOptions) (hf : Heightfield) : outcome Sampling :=
  let numColumns := width hf in
  let numRows := height hf in
  let ext := TileKey_extent key0 in
  let xmin := xMin ext in
  let ymin := yMin ext in
  let dx := (extent_width ext / double_of_unsigned (unsigned_sub numColumns 1))%float in
  let dy := (extent_height ext / double_of_unsigned (unsigned_sub numRows 1))%float in
  sampleGrid cs os keySRS interpolation io numColumns numRows xmin ymin dx dy
    (initialSampling cs os hf).

(** [memcpy] of [n] samples out of [src] into [dst]. *)
Definition memcpy_samples (n : nat) (dst src : list float) : outcome (list float) :=
  if decide (n <= length src /\ n <= length dst)
  then Ret (take n src ++ drop n dst)
  else Fault.

(** Lines 725-758: the single-contender shortcut.  [None]: the resampling
    loop is still required. *)
Definition fastPath (cs os : list LayerData) (io : IOOptions) (hf : Heightfield)
  : outcome (option Heightfield) :=
  match cs, os with
  | [c0], [] =>
      let! layerHF := createHeightfield (layer c0) (key c0) io in
      if GeoHeightfield_valid (value layerHF) then
        match heightfield (value layerHF) with
        | None => Fault
        | Some src =>
            if (width src =? width hf)%N && (height src =? height hf)%N then
              let! d := memcpy_samples (N.to_nat (width hf * height hf)) (data hf) (data src) in
              Ret (Some (mkHeightfield (width hf) (height hf) d))
            else Ret None
        end
      else Ret None
  | _, _ => Ret None
  end.

(** Lines 594-602: the key the layers are queried with. *)
Definition keyToUse (key0 : TileKey) (haeProfile : Profile) : TileKey :=
  if profile_valid haeProfile
  then mkTileKey (levelOfDetail key0) (tileX key0) (tileY key0) haeProfile
  else key0.

(** The [return] statement a call leaves through. *)
Inductive ReturnSite :=
| return_no_target        (* line 590 *)
| return_no_layers        (* line 696 *)
| return_all_fallback     (* line 702 *)
| return_canceled_sampling(* lines 789 and 890 *)
| return_canceled_end     (* line 944 *)
| return_realData.        (* line 948 *)

Record Populated := mkPopulated {
  returned : bool;
  site : ReturnSite;
  output : option Heightfield
}.

Definition populateHeightfield (geodeticExtent : GeoExtent -> GeoExtent)
    (layers : list ElevationLayer)
    (hf : option Heightfield) (key0 : TileKey) (haeProfile : Profile)
    (interpolation : Interpolation) (io : IOOptions) : outcome Populated :=
  match hf with
  | None => Ret (mkPopulated false return_no_target None)
  | Some hf =>
      let keyToUse := keyToUse key0 haeProfile in
      let cl := classifyLayers (width hf) key0 keyToUse layers in
      let cs := contenders cl in
      let os := offsets cl in
      if empty cs && empty os then
        Ret (mkPopulated false return_no_layers (Some hf))
      else if (length cs + length os =? numFallbackLayers cl)%nat then
        Ret (mkPopulated false return_all_fallback (Some hf))
      else
        let keySRS := profile_srs (profile keyToUse) in
        let! fast := fastPath cs os io hf in
        let! st :=
          match fast with
          | Some copied =>
              Ret (mkSampling [] [] [] [] [] [] 0 true 0 copied false)
          | None => resample cs os key0 keySRS interpolation io hf
          end in
        if aborted st then
          Ret (mkPopulated false return_canceled_sampling (Some (target st)))
        else
          let! resolved :=
            resolveInvalidHeights geodeticExtent (Some (target st)) (TileKey_extent key0)
              NO_DATA_VALUE None in
          if canceled io then Ret (mkPopulated false return_canceled_end resolved)
          else Ret (mkPopulated (realData st) return_realData resolved)
  end.

End Compositor.

(** * A concrete world for the examples

    A small instance of the collaborators: rasters are sampled at the pixel
    the query point falls in, a key's extent is the unit square of its
    profile's SRS, and the intersecting key of a key is the key with the same
    address in the layer's profile. *)

Definition FLT_MAX : float := 0x1.fffffep+127%float.

Lemma demo_NO_DATA_VALUE_is_float : float_cast (- FLT_MAX)%float = (- FLT_MAX)%float.
Proof. vm_compute. reflexivity. Qed.

Fixpoint floor_index (x : float) (n : nat) (c : N) : option N :=
  match n with
  | O => None
  | S n' => if (x <? double_of_unsigned c + 1)%float then Some c else floor_index x n' (c + 1)%N
  end.

Definition pixel_sample (g : GeoHeightfield) (x y : float) : float :=
  match heightfield g with
  | None => (- FLT_MAX)%float
  | Some h =>
      match floor_index x (N.to_nat (width h)) 0, floor_index y (N.to_nat (height h)) 0 with
      | Some c, Some r => default (- FLT_MAX)%float (data h !! cell_index h c r)
      | _, _ => (- FLT_MAX)%float
      end
  end.

Definition demo : Collaborators :=
  {| NO_DATA_VALUE := (- FLT_MAX)%float;
     NO_DATA_VALUE_is_float := demo_NO_DATA_VALUE_is_float;
     equiv := fun a b => (abs (b - a) <=? 0x1p-23)%float;
     TileKey_extent := fun k => mkGeoExtent true (profile_srs (profile k)) 0 0 1 1;
     getIntersectingKeys := fun k p => [mkTileKey (levelOfDetail k) (tileX k) (tileY k) p];
     mapResolution := fun k _ _ => k;
     SRS_to := fun a b => mkSRSOperation (negb (Nat.eqb a b)) (fun p => p) (fun p => p);
     SortByResolutionFunctor := fun a b =>
       (extent_width (extent a) <? extent_width (extent b))%float;
     heightAtLocation := fun g x y _ => pixel_sample g x y;
     heightAt := fun g x y _ _ => pixel_sample g x y |}.

(** Two profiles over the same SRS, a key in each, and the unit extent. *)
Definition profileA : Profile := mkProfile true 1 1.
Definition profileB : Profile := mkProfile true 2 1.
Definition keyA : TileKey := mkTileKey 1 0 0 profileA.
Definition keyB : TileKey := mkTileKey 1 0 0 profileB.
Definition unit_extent : GeoExtent := mkGeoExtent true 1 0 0 1 1.
Definition io_running : IOOptions := mkIOOptions false.

(** A layer in [profileA] whose driver answers as given. *)
Definition demo_layer (is_offset : bool)
    (driver : TileKey -> IOOptions -> Result GeoHeightfield) : ElevationLayer :=
  mkElevationLayer true profileA 0 2 is_offset
    (- FLT_MAX)%float (-1000)%float 1000%float
    (fun _ => true) (fun k => k) driver.

Definition raster (samples : list float) : Result GeoHeightfield :=
  Result_of (mkGeoHeightfield (Some (mkHeightfield 2 2 samples)) unit_extent).

(** A 2 x 2 tile at every level; a tile at level 1 only; a tile at level 0
    only; a driver that has nothing. *)
Definition layer_everywhere (samples : list float) : ElevationLayer :=
  demo_layer false (fun _ _ => raster samples).
Definition layer_level1 (samples : list float) : ElevationLayer :=
  demo_layer false (fun k _ =>
    if Nat.eqb (levelOfDetail k) 1 then raster samples else Result_error ResourceUnavailable).
Definition layer_level0 (samples : list float) : ElevationLayer :=
  demo_layer false (fun k _ =>
    if Nat.eqb (levelOfDetail k) 0 then raster samples else Result_error ResourceUnavailable).
Definition layer_unavailable : ElevationLayer :=
  demo_layer false (fun _ _ => Result_error ResourceUnavailable).
Definition offset_layer (samples : list float) : ElevationLayer :=
  demo_layer true (fun _ _ => raster samples).

(** A layer whose best available key is always the parent of the key asked
    for, and a target heightfield with earlier contents. *)
Definition layer_coarse (samples : list float) : ElevationLayer :=
  mkElevationLayer true profileA 0 2 false
    (- FLT_MAX)%float (-1000)%float 1000%float
    (fun _ => true) makeParent (fun _ _ => raster samples).

Definition used_target : Heightfield := mkHeightfield 2 2 [1; 2; 3; 4]%float.

(** Stacks of contenders, first layer lowest: three layers with data
    everywhere; and two layers under a top layer that has no data. *)
Definition flat (v : float) : list float := [v; v; v; v].
Definition stack_10_20_30 : list ElevationLayer :=
  [layer_everywhere (flat 10); layer_everywhere (flat 20); layer_everywhere (flat 30)].
Definition stack_10_20_nodata : list ElevationLayer :=
  [layer_everywhere (flat 10); layer_everywhere (flat 20);
   layer_everywhere (flat (- FLT_MAX))].

(** The contender entry of a layer of these stacks. *)
Definition contender_of (samples : list float) (i : Z) : LayerData :=
  mkLayerData (layer_everywhere samples) keyA false i.

Definition first_cell : Cell := mkCell 0 0 0 0.


(** An offset layer at stack position 1 and the cell of column 1, row 0. *)
Definition offset_at_1 : LayerData :=
  mkLayerData (offset_layer [0; 1; 1; 1]%float) keyA false 1.
Definition second_cell : Cell := mkCell 1 0 1 0.

(** A target whose second cell holds NO_DATA_VALUE. *)
Definition blank_target : Heightfield := mkHeightfield 2 2 [1; - FLT_MAX; 3; 4]%float.
Definition gap_samples : list float := [50; - FLT_MAX; 70; 80]%float.

(** * Loops over lists and grids *)

(** A property every iteration keeps holds when the loop returns. *)
Lemma for_each_preserves {A St : Type} (P : St -> Prop) (body : A -> St -> outcome St)
    (l : list A) :
  (forall a s s', P s -> body a s = Ret s' -> P s') ->
  forall s s', P s -> for_each l body s = Ret s' -> P s'.
Proof.
  intros Hbody. induction l as [|a l IH]; intros s s' Hs Hrun; simpl in Hrun.
  - by inversion Hrun; subst.
  - destruct (body a s) as [|s1] eqn:Hb; simpl in Hrun; [done|]. eauto.
Qed.

(** A loop whose iterations all return, each establishing the invariant for
    the elements visited so far, returns with the invariant for them all. *)
Lemma for_each_prefix_total {A St : Type} (P : list A -> St -> Prop)
    (body : A -> St -> outcome St) (l : list A) :
  (forall pre a s, P pre s -> a ∈ l -> exists s1, body a s = Ret s1 /\ P (pre ++ [a]) s1) ->
  forall s, P [] s -> exists s', for_each l body s = Ret s' /\ P l s'.
Proof.
  intros Hstep.
  assert (Hgen : forall l' pre s, (forall a, a ∈ l' -> a ∈ l) -> P pre s ->
            exists s', for_each l' body s = Ret s' /\ P (pre ++ l') s').
  { induction l' as [|a l' IH]; intros pre s Hsub Hs; simpl.
    - exists s. by rewrite app_nil_r.
    - destruct (Hstep pre a s Hs) as (s1&Hb&Hs1); [apply Hsub; left|].
      rewrite Hb. simpl.
      destruct (IH (pre ++ [a]) s1) as (s'&Hrun&Hs'); [|done|].
      { intros a' Ha'. apply Hsub. by right. }
      exists s'. split; [done|]. by rewrite <- app_assoc in Hs'. }
  intros s Hs. by apply (Hgen l [] s).
Qed.

Lemma cell_index_nat (W : N) (c r : nat) :
  N.to_nat (N.of_nat r * W + N.of_nat c) = r * N.to_nat W + c.
Proof. lia. Qed.

Lemma cell_cover (w h i : nat) :
  i < w * h -> exists c r, c < w /\ r < h /\ i = r * w + c.
Proof.
  intros Hi. assert (0 < w) by lia.
  exists (i mod w), (i / w). repeat split.
  - apply Nat.mod_upper_bound. lia.
  - apply Nat.Div0.div_lt_upper_bound. lia.
  - pose proof (Nat.div_mod_eq i w). lia.
Qed.

(** A loop over two lists in a row, and a loop whose body is replaced by one
    that agrees with it on the elements of the list. *)
Lemma for_each_app {A St : Type} (body : A -> St -> outcome St) (l1 l2 : list A) (s : St) :
  for_each (l1 ++ l2) body s = let! s1 := for_each l1 body s in for_each l2 body s1.
Proof.
  revert s. induction l1 as [|a l1 IH]; intros s; simpl; [done|].
  destruct (body a s); simpl; [done|]. apply IH.
Qed.

Lemma for_each_ext_in {A St : Type} (f g : A -> St -> outcome St) (l : list A) (s : St) :
  (forall a s, a ∈ l -> f a s = g a s) -> for_each l f s = for_each l g s.
Proof.
  revert s. induction l as [|a l IH]; intros s Hfg; simpl; [done|].
  rewrite Hfg by left. destruct (g a s); simpl; [done|].
  apply IH. intros a' s' Ha'. apply Hfg. by right.
Qed.

(** * Termination of the fallback walks *)

Section WhileFuel.
Context {St : Type} (guard : St -> bool) (body : St -> St) (measure : St -> nat).
Hypothesis body_decreases : forall s, guard s = true -> measure (body s) < measure s.

Lemma while_fuel_exits (fuel : nat) (s : St) :
  measure s <= fuel -> guard (while_fuel fuel guard body s) = false.
Proof using body_decreases.
  revert s. induction fuel as [|n IH]; intros s Hm; simpl.
  - destruct (guard s) eqn:Hg; [|done].
    apply body_decreases in Hg. lia.
  - destruct (guard s) eqn:Hg; [|done].
    apply IH. apply body_decreases in Hg. lia.
Qed.

Lemma while_fuel_stable (fuel fuel' : nat) (s : St) :
  measure s <= fuel -> fuel <= fuel' ->
  while_fuel fuel' guard body s = while_fuel fuel guard body s.
Proof using body_decreases.
  revert fuel' s. induction fuel as [|n IH]; intros fuel' s Hm Hle.
  - destruct fuel' as [|n']; simpl; [done|].
    destruct (guard s) eqn:Hg; [|done].
    apply body_decreases in Hg. lia.
  - destruct fuel' as [|n']; [lia|]. simpl.
    destruct (guard s) eqn:Hg; [|done].
    apply IH; [|lia]. apply body_decreases in Hg. lia.
Qed.

End WhileFuel.

Lemma makeParent_level (k : TileKey) :
  TileKey_valid (makeParent k) = true ->
  S (levelOfDetail (makeParent k)) = levelOfDetail k.
Proof.
  unfold makeParent, TileKey_valid.
  destruct (levelOfDetail k) as [|l]; simpl; [discriminate|done].
Qed.

(** The walk can only continue from a valid key, and each failed fetch
    lowers the level of a key that stays valid. *)
Definition subTile_measure (s : SubTileWalk) : nat :=
  if subTile_guard s then S (levelOfDetail (subKey s)) else 0.

Lemma subTile_body_decreases (L : ElevationLayer) (io : IOOptions) (s : SubTileWalk) :
  subTile_guard s = true -> subTile_measure (subTile_body L io s) < subTile_measure s.
Proof.
  intros Hg. unfold subTile_measure. rewrite Hg.
  destruct (subTile_guard (subTile_body L io s)) eqn:Hg'; [|lia].
  unfold subTile_guard, subTile_body, status_failed in *. simpl in *.
  destruct (status_ok (createHeightfieldImplementation_internal L (subKey s) io));
    simpl in *.
  - rewrite andb_false_r in Hg'. discriminate.
  - apply andb_prop in Hg' as [Hg' _]. apply andb_prop in Hg' as [_ Hv].
    apply makeParent_level in Hv. lia.
Qed.

Section CompositorWalk.
Context `{Collaborators}.

Definition contender_measure (L : ElevationLayer) (s : ContenderWalk) : nat :=
  if contender_guard L s then S (levelOfDetail (actualKey s)) else 0.

Lemma contender_body_decreases (L : ElevationLayer) (io : IOOptions) (s : ContenderWalk) :
  contender_guard L s = true ->
  contender_measure L (contender_body L io s) < contender_measure L s.
Proof.
  intros Hg. unfold contender_measure. rewrite Hg.
  destruct (contender_guard L (contender_body L io s)) eqn:Hg'; [|lia].
  unfold contender_guard, contender_body in *.
  destruct (createHeightfield L (actualKey s) io) as [|r]; simpl in *; [done|].
  destruct (GeoHeightfield_valid (value r)); simpl in *; [done|].
  apply andb_prop in Hg' as [Hv _].
  apply makeParent_level in Hv. lia.
Qed.

(** C9: both parent-walk fallback loops terminate for every key, every layer
    and every driver behaviour, also when no ancestor has data: after at most
    level + 1 iterations the loop condition is false, and allowing the loop
    more iterations does not change the state it ends in. *)
Theorem fallback_walks_terminate
    (L : ElevationLayer) (io : IOOptions) (k : TileKey) (hf : GeoHeightfield) :
  (subTile_guard (subTile_walk L io k) = false
   /\ forall n, S (levelOfDetail k) <= n ->
        while_fuel n subTile_guard (subTile_body L io) (mkSubTileWalk k Result_default false)
        = subTile_walk L io k)
  /\ (contender_guard L (contender_walk L io hf k) = false
      /\ forall n, S (levelOfDetail k) <= n ->
           while_fuel n (contender_guard L) (contender_body L io) (mkContenderWalk hf k false)
           = contender_walk L io hf k).
Proof.
  split; split.
  - apply (while_fuel_exits _ _ subTile_measure (subTile_body_decreases L io)).
    unfold subTile_measure. simpl. destruct (subTile_guard _); lia.
  - intros n Hn.
    apply (while_fuel_stable _ _ subTile_measure (subTile_body_decreases L io)); [|done].
    unfold subTile_measure. simpl. destruct (subTile_guard _); lia.
  - apply (while_fuel_exits _ _ (contender_measure L) (contender_body_decreases L io)).
    unfold contender_measure. simpl. destruct (contender_guard _ _); lia.
  - intros n Hn.
    apply (while_fuel_stable _ _ (contender_measure L) (contender_body_decreases L io)); [|done].
    unfold contender_measure. simpl. destruct (contender_guard _ _); lia.
Qed.

End CompositorWalk.

(** * The single-layer pipeline *)

Section PipelineResults.
Context `{Collaborators}.

Lemma normalize_pixels_lookup (L : ElevationLayer) (n : nat) (pixels : list float)
    (i : nat) (h : float) :
  i < n -> pixels !! i = Some h ->
  normalize_pixels L n pixels !! i = Some (normalize_sample L h).
Proof.
  revert pixels i. induction n as [|n IH]; intros pixels i Hi Hl; [lia|].
  destruct pixels as [|p rest]; [done|].
  destruct i as [|i]; simpl in *.
  - by inversion Hl.
  - apply IH; [lia|done].
Qed.

Lemma normalize_pixels_length (L : ElevationLayer) (n : nat) (pixels : list float) :
  length (normalize_pixels L n pixels) = length pixels.
Proof.
  revert pixels. induction n as [|n IH]; intros [|p rest]; simpl; auto.
Qed.

Lemma validateHeightfield_bounds (h : Heightfield) :
  validateHeightfield (Some h) = true <->
  (1 <= width h <= 1024)%N /\ (1 <= height h <= 1024)%N.
Proof.
  unfold validateHeightfield.
  destruct (N.ltb_spec (height h) 1), (N.ltb_spec 1024 (height h)),
    (N.ltb_spec (width h) 1), (N.ltb_spec 1024 (width h)); simpl;
    split; try discriminate; try done; intros; lia.
Qed.

Lemma validated_size_exact (h : Heightfield) :
  validateHeightfield (Some h) = true ->
  ((width h * height h) mod uint32_mod = width h * height h)%N.
Proof.
  intros Hv%validateHeightfield_bounds. apply N.mod_small.
  unfold uint32_mod. nia.
Qed.

(** C5: a heightfield that [createHeightfieldInKeyProfile] returns with an
    ok status is the acquired raster after normalization: each of its
    width x height samples that was NaN, equal to the configured no-data
    value, or outside [minValidValue, maxValidValue] now holds
    NO_DATA_VALUE, and every other sample is unchanged. *)
Theorem createHeightfieldInKeyProfile_normalized
    (L : ElevationLayer) (key0 : TileKey) (io : IOOptions)
    (r : Result GeoHeightfield) (hf : Heightfield) :
  createHeightfieldInKeyProfile L key0 io = Ret r ->
  status_ok r = true ->
  heightfield (value r) = Some hf ->
  exists (acquired : GeoHeightfield) (raw : Heightfield),
    acquireHeightfield L key0 io = Ret (inr acquired)
    /\ heightfield acquired = Some raw
    /\ width hf = width raw /\ height hf = height raw
    /\ length (data hf) = length (data raw)
    /\ forall (i : nat) (h : float),
         i < N.to_nat (width raw * height raw) ->
         data raw !! i = Some h ->
         data hf !! i = Some (if is_no_data L h then NO_DATA_VALUE else h).
Proof.
  unfold createHeightfieldInKeyProfile. intros Hrun Hok Hhf.
  destruct (negb (profile_valid (layer_profile L)) || negb (isOpen L)).
  { inversion Hrun; subst. by compute in Hok. }
  destruct (negb (isKeyInLegalRange L key0)).
  { inversion Hrun; subst. by compute in Hok. }
  destruct (acquireHeightfield L key0 io) as [|[failure|acquired]] eqn:Hacq;
    simpl in Hrun; [discriminate| |].
  { inversion Hrun; subst.
    unfold acquireHeightfield in Hacq.
    destruct (Profile_eqb _ _).
    - destruct (status_failed _) eqn:Hf; inversion Hacq; subst.
      unfold status_failed in Hf. rewrite Hok in Hf. discriminate.
    - destruct (assembleHeightfield L key0 io); simpl in Hacq; discriminate. }
  destruct (canceled io).
  { inversion Hrun; subst. by compute in Hok. }
  destruct (heightfield acquired) as [raw|] eqn:Hraw.
  2: { simpl in Hrun. inversion Hrun; subst. by compute in Hok. }
  destruct (validateHeightfield (Some raw)) eqn:Hval; simpl in Hrun.
  2: { inversion Hrun; subst. by compute in Hok. }
  clear Hok. inversion Hrun; subst. simpl in Hhf. inversion Hhf; subst. simpl.
  exists acquired, raw. repeat split; try done.
  - apply normalize_pixels_length.
  - intros i h Hi Hl. rewrite validated_size_exact by done.
    by apply normalize_pixels_lookup.
Qed.

End PipelineResults.

Lemma createHeightfieldInKeyProfile_normalized_witness :
  exists (acquired : GeoHeightfield) (raw : Heightfield),
    @acquireHeightfield demo (layer_everywhere [5; 2000; 7; 8]%float) keyA io_running
      = Ret (inr acquired)
    /\ heightfield acquired = Some raw
    /\ width (mkHeightfield 2 2 [5; - FLT_MAX; 7; 8]%float) = width raw
    /\ height (mkHeightfield 2 2 [5; - FLT_MAX; 7; 8]%float) = height raw
    /\ length (data (mkHeightfield 2 2 [5; - FLT_MAX; 7; 8]%float)) = length (data raw)
    /\ forall (i : nat) (h : float),
         i < N.to_nat (width raw * height raw) ->
         data raw !! i = Some h ->
         data (mkHeightfield 2 2 [5; - FLT_MAX; 7; 8]%float) !! i
         = Some (if @is_no_data demo (layer_everywhere [5; 2000; 7; 8]%float) h
                 then @NO_DATA_VALUE demo else h).
Proof.
  apply (@createHeightfieldInKeyProfile_normalized demo
           (layer_everywhere [5; 2000; 7; 8]%float) keyA io_running
           (raster [5; - FLT_MAX; 7; 8]%float)).
  - vm_compute. reflexivity.
  - reflexivity.
  - reflexivity.
Defined.

(** ** Status of the pipeline's result *)

Section PipelineStatus.
Context `{Collaborators}.

(** The first test of the pipeline (lines 436-440) passes. *)
Definition layer_ready (L : ElevationLayer) : bool :=
  profile_valid (layer_profile L) && isOpen L.

(** The driver was asked, for a key in the layer's own profile, and failed:
    the result line 453 returns. *)
Definition driver_failure (L : ElevationLayer) (key0 : TileKey) (io : IOOptions)
  : option (Result GeoHeightfield) :=
  if Profile_eqb (profile key0) (layer_profile L) then
    let r := createHeightfieldImplementation_internal L key0 io in
    if status_failed r then Some r else None
  else None.

Definition legal_size (h : Heightfield) : Prop :=
  (1 <= width h <= 1024)%N /\ (1 <= height h <= 1024)%N.

Lemma acquire_driver_failure (L : ElevationLayer) (key0 : TileKey) (io : IOOptions)
    (d : Result GeoHeightfield) :
  acquireHeightfield L key0 io = Ret (inl d) <-> driver_failure L key0 io = Some d.
Proof.
  unfold acquireHeightfield, driver_failure.
  destruct (Profile_eqb _ _).
  - destruct (status_failed _); split; intros Heq; inversion Heq; done.
  - destruct (assembleHeightfield L key0 io); simpl; split; intros Heq; inversion Heq.
Qed.

Lemma driver_failure_failed (L : ElevationLayer) (key0 : TileKey) (io : IOOptions)
    (d : Result GeoHeightfield) :
  driver_failure L key0 io = Some d -> status_ok d = false.
Proof.
  unfold driver_failure. destruct (Profile_eqb _ _); [|done].
  destruct (status_failed _) eqn:Hf; [|done].
  intros Heq. inversion Heq; subst. unfold status_failed in Hf.
  by destruct (status_ok _).
Qed.

(** The statuses the pipeline can return, in the order the code decides
    them. *)
Inductive PipelineCase (L : ElevationLayer) (key0 : TileKey) (io : IOOptions)
  : Result GeoHeightfield -> Prop :=
| case_not_ready :
    layer_ready L = false ->
    PipelineCase L key0 io (Result_error ResourceUnavailable)
| case_illegal_key :
    layer_ready L = true -> isKeyInLegalRange L key0 = false ->
    PipelineCase L key0 io (Result_of GeoHeightfield_INVALID)
| case_driver_failure d :
    layer_ready L = true -> isKeyInLegalRange L key0 = true ->
    driver_failure L key0 io = Some d ->
    PipelineCase L key0 io d
| case_canceled g :
    layer_ready L = true -> isKeyInLegalRange L key0 = true ->
    acquireHeightfield L key0 io = Ret (inr g) -> canceled io = true ->
    PipelineCase L key0 io (Result_of GeoHeightfield_INVALID)
| case_illegal_size g h :
    layer_ready L = true -> isKeyInLegalRange L key0 = true ->
    acquireHeightfield L key0 io = Ret (inr g) -> canceled io = false ->
    heightfield g = Some h -> ~ legal_size h ->
    PipelineCase L key0 io (Result_error GeneralError)
| case_no_heightfield g :
    layer_ready L = true -> isKeyInLegalRange L key0 = true ->
    acquireHeightfield L key0 io = Ret (inr g) -> canceled io = false ->
    heightfield g = None ->
    PipelineCase L key0 io (Result_of GeoHeightfield_INVALID)
| case_heightfield g h :
    layer_ready L = true -> isKeyInLegalRange L key0 = true ->
    acquireHeightfield L key0 io = Ret (inr g) -> canceled io = false ->
    heightfield g = Some h -> legal_size h ->
    PipelineCase L key0 io
      (Result_of (mkGeoHeightfield (normalizeNoDataValues L (Some h)) (TileKey_extent key0))).

Lemma createHeightfieldInKeyProfile_cases (L : ElevationLayer) (key0 : TileKey)
    (io : IOOptions) (r : Result GeoHeightfield) :
  createHeightfieldInKeyProfile L key0 io = Ret r -> PipelineCase L key0 io r.
Proof.
  unfold createHeightfieldInKeyProfile. intros Hrun.
  assert (Hready : layer_ready L = profile_valid (layer_profile L) && isOpen L) by done.
  destruct (profile_valid (layer_profile L)), (isOpen L); simpl in *;
    try (inversion Hrun; by apply case_not_ready).
  destruct (isKeyInLegalRange L key0) eqn:Hlegal; simpl in Hrun.
  2: { inversion Hrun. by apply case_illegal_key. }
  destruct (acquireHeightfield L key0 io) as [|[d|g]] eqn:Hacq; simpl in Hrun; [done| |].
  { inversion Hrun; subst. apply case_driver_failure; try done.
    by apply acquire_driver_failure. }
  destruct (canceled io) eqn:Hc.
  { inversion Hrun. by eapply case_canceled. }
  destruct (heightfield g) as [h|] eqn:Hh.
  2: { simpl in Hrun. inversion Hrun. by eapply case_no_heightfield. }
  destruct (validateHeightfield (Some h)) eqn:Hval; simpl in Hrun; inversion Hrun.
  - eapply case_heightfield; try done. by apply validateHeightfield_bounds.
  - eapply case_illegal_size; try done.
    intros Hs%validateHeightfield_bounds. congruence.
Qed.

(** C6 (amended): the status of [createHeightfieldInKeyProfile]'s result.
    ResourceUnavailable: the layer's profile is invalid or the layer is not
    open, or the driver, asked for a key of the layer's own profile, failed
    with that status.  GeneralError: a heightfield was acquired, the call was
    not canceled, and its width or height is outside [1, 1024]; or the driver
    failed with that status.  The non-error INVALID result: the key is outside
    the legal range, or a raster was acquired and then the call was canceled
    or the raster holds no heightfield.  A driver failure, for a ready layer
    and a legal key, is the result of the call as it is, whatever its status
    and whether or not the call was canceled. *)
Theorem createHeightfieldInKeyProfile_status (L : ElevationLayer) (key0 : TileKey)
    (io : IOOptions) (r : Result GeoHeightfield) :
  createHeightfieldInKeyProfile L key0 io = Ret r ->
  (status r = ResourceUnavailable <->
     layer_ready L = false
     \/ (layer_ready L = true /\ isKeyInLegalRange L key0 = true
         /\ exists d, driver_failure L key0 io = Some d
                      /\ status d = ResourceUnavailable))
  /\ (status r = GeneralError <->
        layer_ready L = true /\ isKeyInLegalRange L key0 = true
        /\ ((exists d, driver_failure L key0 io = Some d /\ status d = GeneralError)
            \/ exists g h, acquireHeightfield L key0 io = Ret (inr g)
                 /\ canceled io = false /\ heightfield g = Some h /\ ~ legal_size h))
  /\ (status r = NoError /\ heightfield (value r) = None <->
        layer_ready L = true
        /\ (isKeyInLegalRange L key0 = false
            \/ (isKeyInLegalRange L key0 = true
                /\ exists g, acquireHeightfield L key0 io = Ret (inr g)
                     /\ (canceled io = true \/ heightfield g = None))))
  /\ (layer_ready L = true -> isKeyInLegalRange L key0 = true ->
      forall d, driver_failure L key0 io = Some d -> r = d).
Proof.
  intros Hrun. pose proof (createHeightfieldInKeyProfile_cases _ _ _ _ Hrun) as Hcase.
  assert (Hfail : forall d, driver_failure L key0 io = Some d -> status d <> NoError).
  { intros d Hd%driver_failure_failed. unfold status_ok in Hd.
    destruct (status d); simpl in Hd; congruence. }
  assert (Hexcl : forall d g, driver_failure L key0 io = Some d ->
            acquireHeightfield L key0 io = Ret (inr g) -> False).
  { intros d g Hd%acquire_driver_failure Hg. congruence. }
  destruct Hcase as [Hr|Hr Hl|d Hr Hl Hd|g Hr Hl Hg Hc|g h Hr Hl Hg Hc Hh Hs
                    |g Hr Hl Hg Hc Hh|g h Hr Hl Hg Hc Hh Hs]; simpl;
    try specialize (Hfail _ Hd);
    (split; [|split; [|split]]);
    try (split; [intros Hst | intros Hrhs]);
    try (by naive_solver congruence).
Qed.

End PipelineStatus.

(** The driver of [layer_unavailable] fails with ResourceUnavailable, as the
    GDAL driver does when it cannot produce a tile: the pipeline returns that
    status although the layer is open and its profile valid. *)
Lemma createHeightfieldInKeyProfile_status_counterexample :
  ~ (forall (C : Collaborators) (L : ElevationLayer) (key0 : TileKey) (io : IOOptions)
       (r : Result GeoHeightfield),
       createHeightfieldInKeyProfile L key0 io = Ret r ->
       (status r = ResourceUnavailable <->
          profile_valid (layer_profile L) = false \/ isOpen L = false)).
Proof.
  intros Hclaim.
  destruct (Hclaim demo layer_unavailable keyA io_running
              (Result_error ResourceUnavailable) eq_refl) as [Hto _].
  destruct (Hto eq_refl); discriminate.
Qed.

Lemma createHeightfieldInKeyProfile_status_witness :
  (status (Result_error ResourceUnavailable) = ResourceUnavailable <->
     @layer_ready layer_unavailable = false
     \/ (layer_ready layer_unavailable = true
         /\ isKeyInLegalRange layer_unavailable keyA = true
         /\ exists d, driver_failure layer_unavailable keyA io_running = Some d
                      /\ status d = ResourceUnavailable))
  /\ (status (Result_error ResourceUnavailable) = GeneralError <->
        layer_ready layer_unavailable = true
        /\ isKeyInLegalRange layer_unavailable keyA = true
        /\ ((exists d, driver_failure layer_unavailable keyA io_running = Some d
                       /\ status d = GeneralError)
            \/ exists g h,
                 @acquireHeightfield demo layer_unavailable keyA io_running = Ret (inr g)
                 /\ canceled io_running = false /\ heightfield g = Some h
                 /\ ~ legal_size h))
  /\ (status (Result_error ResourceUnavailable) = NoError
      /\ heightfield (value (Result_error ResourceUnavailable)) = None <->
        layer_ready layer_unavailable = true
        /\ (isKeyInLegalRange layer_unavailable keyA = false
            \/ (isKeyInLegalRange layer_unavailable keyA = true
                /\ exists g,
                     @acquireHeightfield demo layer_unavailable keyA io_running
                     = Ret (inr g)
                     /\ (canceled io_running = true \/ heightfield g = None))))
  /\ (layer_ready layer_unavailable = true ->
      isKeyInLegalRange layer_unavailable keyA = true ->
      forall d, driver_failure layer_unavailable keyA io_running = Some d ->
        Result_error ResourceUnavailable = d).
Proof.
  apply (@createHeightfieldInKeyProfile_status demo layer_unavailable keyA io_running
           (Result_error ResourceUnavailable)).
  vm_compute. reflexivity.
Defined.

(** * The mosaic assembler *)

Section AssemblerResults.

(** A walk that ended on a fetched tile at the level of detail [targetLOD]. *)
Definition reached_target (L : ElevationLayer) (io : IOOptions) (targetLOD : nat)
    (k : TileKey) : Prop :=
  status_ok (subTile (subTile_walk L io k)) = true
  /\ levelOfDetail (subKey (subTile_walk L io k)) = targetLOD.

Lemma collectSources_flag (L : ElevationLayer) (io : IOOptions) (targetLOD : nat)
    (keys : list TileKey) (acc : list GeoHeightfield) (b : bool)
    (sources : list GeoHeightfield) (b' : bool) :
  collectSources L io targetLOD keys acc b = Some (sources, b') ->
  (b' = true <-> b = true \/ exists k, k ∈ keys /\ reached_target L io targetLOD k).
Proof.
  revert acc b. induction keys as [|k keys IH]; intros acc b Hrun; simpl in Hrun.
  - inversion Hrun; subst. split; [by left|].
    intros [?|(k&Hk&_)]; [done|]. by apply elem_of_nil in Hk.
  - destruct (walk_returned (subTile_walk L io k)); [done|].
    destruct (status_ok (subTile (subTile_walk L io k))) eqn:Hok.
    + destruct (Nat.eqb_spec (levelOfDetail (subKey (subTile_walk L io k))) targetLOD)
        as [Heq|Hne]; apply IH in Hrun; rewrite Hrun; split.
      * intros _. right. exists k. split; [left|done].
      * by left.
      * intros [?|(k'&Hk'&Hr)]; [by left|]. right. exists k'. split; [by right|done].
      * intros [?|(k'&Hk'&Hr)]; [by left|].
        apply elem_of_cons in Hk' as [->|Hk'].
        -- destruct Hr as [_ Hr]. done.
        -- right. by exists k'.
    + apply IH in Hrun. rewrite Hrun. split.
      * intros [?|(k'&Hk'&Hr)]; [by left|]. right. exists k'. split; [by right|done].
      * intros [?|(k'&Hk'&Hr)]; [by left|].
        apply elem_of_cons in Hk' as [->|Hk'].
        -- destruct Hr as [Hr _]. congruence.
        -- right. by exists k'.
Qed.

Context `{Collaborators}.

(** C1 (amended): the assembler builds a mosaic only when at least one
    fetched source is at the target level of detail.  When no intersecting
    key's walk ends on a tile of the target level - every source that was
    fetched is fallback - the result is empty, however many sources were
    fetched. *)
Theorem assembleHeightfield_fallback_only_is_empty
    (L : ElevationLayer) (key0 : TileKey) (io : IOOptions) :
  (forall k, k ∈ getIntersectingKeys key0 (layer_profile L) ->
     ~ reached_target L io (levelOfDetail key0) k) ->
  assembleHeightfield L key0 io = Ret None.
Proof.
  intros Hfallback. unfold assembleHeightfield.
  destruct (collectSources L io (levelOfDetail key0)
              (getIntersectingKeys key0 (layer_profile L)) [] false)
    as [[sources flag]|] eqn:Hcollect; [|done].
  destruct flag.
  - apply collectSources_flag in Hcollect as [Hflag _].
    destruct (Hflag eq_refl) as [?|(k&Hk&Hr)]; [done|].
    by apply Hfallback in Hr.
  - simpl. by destruct (canceled io).
Qed.

(** A mosaic that was returned had a source at the target level. *)
Lemma assembleHeightfield_mosaic_reached_target
    (L : ElevationLayer) (key0 : TileKey) (io : IOOptions) (m : HeightfieldMosaic) :
  assembleHeightfield L key0 io = Ret (Some m) ->
  exists k, k ∈ getIntersectingKeys key0 (layer_profile L)
            /\ reached_target L io (levelOfDetail key0) k.
Proof.
  unfold assembleHeightfield.
  destruct (collectSources L io (levelOfDetail key0)
              (getIntersectingKeys key0 (layer_profile L)) [] false)
    as [[sources flag]|] eqn:Hcollect; [|done].
  destruct flag.
  - intros _. apply collectSources_flag in Hcollect as [Hflag _].
    by destruct (Hflag eq_refl) as [?|?].
  - simpl. by destruct (canceled io).
Qed.

(** The sampling loop of lines 360-366 ranges over [points], whose size is
    still zero after [reserve]: it visits no point. *)
Lemma vec_foreach_empty {A : Type} (f : A -> A) (v : vector A) :
  vec_size v = 0 -> vec_foreach f v = v.
Proof.
  destruct v as [n storage]. simpl. intros ->.
  unfold vec_foreach. simpl. by rewrite drop_0.
Qed.

End AssemblerResults.

(** ** Every mosaic holds NO_DATA_VALUE only *)

Section UnsampledMosaic.
Context `{Collaborators}.
Variables (cols rows : N).
Hypothesis size_fits : (cols * rows < uint32_mod)%N.

Lemma point_index_nat (r c : nat) :
  c < N.to_nat cols -> r < N.to_nat rows ->
  point_index cols (N.of_nat r) (N.of_nat c) = r * N.to_nat cols + c.
Proof using size_fits.
  intros Hc Hr. unfold point_index.
  rewrite N.mod_small; [lia|]. unfold uint32_mod in *. nia.
Qed.

(** A slot of the point storage that holds a point without a height. *)
Definition unsampled (i : nat) (storage : list dvec3) : Prop :=
  exists p, storage !! i = Some p /\ vz p = NO_DATA_VALUE.

Lemma buildGrid_unsampled (minx miny dx dy : float) (points : vector dvec3) :
  vec_size points = 0 ->
  length (vec_storage points) = N.to_nat (cols * rows) ->
  exists points',
    buildGrid cols rows minx miny dx dy points = Ret points'
    /\ vec_size points' = 0
    /\ forall i, i < N.to_nat (cols * rows) -> unsampled i (vec_storage points').
Proof using size_fits.
  intros Hsize Hlen.
  set (w := N.to_nat cols). set (h := N.to_nat rows).
  pose (P := fun (done_rows : list nat) (v : vector dvec3) =>
               vec_size v = 0 /\ length (vec_storage v) = N.to_nat (cols * rows)
               /\ forall r c, r ∈ done_rows -> c < w -> unsampled (r * w + c) (vec_storage v)).
  unfold buildGrid, for_upto.
  destruct (for_each_prefix_total P
              (fun r points =>
                 for_each (seq 0 (N.to_nat cols))
                   (fun c points =>
                      vec_store points (point_index cols (N.of_nat r) (N.of_nat c))
                        (mkdvec3 (minx + 0.5 * dx + dx * double_of_unsigned (N.of_nat c))
                           (miny + 0.5 * dy + dy * double_of_unsigned (N.of_nat r))
                           NO_DATA_VALUE)) points)
              (seq 0 h)) with (s := points) as (points'&Hrun&Hsz&Hln&Hrows).
  - intros done_rows r v (Hv1&Hv2&Hv3) Hr. apply elem_of_seq in Hr.
    pose (Q := fun (done_cols : list nat) (v1 : vector dvec3) =>
                 vec_size v1 = 0 /\ length (vec_storage v1) = N.to_nat (cols * rows)
                 /\ (forall r' c, r' ∈ done_rows -> c < w ->
                       unsampled (r' * w + c) (vec_storage v1))
                 /\ forall c, c ∈ done_cols -> unsampled (r * w + c) (vec_storage v1)).
    destruct (for_each_prefix_total Q
                (fun c points =>
                   vec_store points (point_index cols (N.of_nat r) (N.of_nat c))
                     (mkdvec3 (minx + 0.5 * dx + dx * double_of_unsigned (N.of_nat c))
                        (miny + 0.5 * dy + dy * double_of_unsigned (N.of_nat r))
                        NO_DATA_VALUE))
                (seq 0 w)) with (s := v) as (v1&Hrun1&Hq1&Hq2&Hq3&Hq4).
    + intros done_cols c v1 (Hs1&Hs2&Hs3&Hs4) Hc. apply elem_of_seq in Hc.
      rewrite point_index_nat by (fold w h; lia).
      fold w. set (idx := r * w + c).
      assert (Hidx : idx < length (vec_storage v1)) by (rewrite Hs2; subst idx w h; nia).
      unfold vec_store. destruct (decide _) as [_|Hno]; [|done].
      eexists. split; [done|]. unfold Q. simpl. rewrite length_insert.
      assert (Hkeep : forall j, unsampled j (vec_storage v1) ->
                unsampled j (<[idx := mkdvec3
                     (minx + 0.5 * dx + dx * double_of_unsigned (N.of_nat c))
                     (miny + 0.5 * dy + dy * double_of_unsigned (N.of_nat r))
                     NO_DATA_VALUE]> (vec_storage v1))).
      { intros j (p&Hp&Hz). destruct (decide (j = idx)) as [->|Hne].
        - eexists. by rewrite list_lookup_insert_eq.
        - exists p. by rewrite list_lookup_insert_ne. }
      repeat split; try done.
      * intros r' c' Hr' Hc'. by apply Hkeep, Hs3.
      * intros c' Hc'. apply elem_of_app in Hc' as [Hc'|Hc'].
        -- by apply Hkeep, Hs4.
        -- apply list_elem_of_singleton in Hc'. subst c'.
           eexists. by rewrite list_lookup_insert_eq.
    + repeat split; try done. intros c Hc. by apply elem_of_nil in Hc.
    + exists v1. split; [exact Hrun1|]. repeat split; try done.
      intros r' c Hr' Hc. apply elem_of_app in Hr' as [Hr'|Hr'].
      * by apply Hq3.
      * apply list_elem_of_singleton in Hr'. subst r'. apply Hq4, elem_of_seq. lia.
  - repeat split; try done. intros r c Hr. by apply elem_of_nil in Hr.
  - exists points'. split; [exact Hrun|]. split; [done|].
    intros i Hi. destruct (cell_cover w h i) as (c&r&Hc&Hr&->); [subst w h; lia|].
    apply Hrows; [|done]. apply elem_of_seq. lia.
Qed.

Lemma assignHeights_unsampled (points : vector dvec3) (output : Heightfield) :
  width output = cols ->
  length (data output) = N.to_nat (cols * rows) ->
  (forall i, i < N.to_nat (cols * rows) -> unsampled i (vec_storage points)) ->
  exists output',
    assignHeights cols rows points output = Ret output'
    /\ width output' = cols /\ height output' = height output
    /\ data output' = replicate (N.to_nat (cols * rows)) NO_DATA_VALUE.
Proof using size_fits.
  intros Hw Hlen Hpoints.
  set (w := N.to_nat cols). set (h := N.to_nat rows).
  pose (P := fun (done_rows : list nat) (o : Heightfield) =>
               width o = cols /\ height o = height output
               /\ length (data o) = N.to_nat (cols * rows)
               /\ forall r c, r ∈ done_rows -> c < w ->
                    data o !! (r * w + c) = Some NO_DATA_VALUE).
  unfold assignHeights, for_upto.
  destruct (for_each_prefix_total P
              (fun r output =>
                 for_each (seq 0 (N.to_nat cols))
                   (fun c output =>
                      let! p := vec_load points (point_index cols (N.of_nat r) (N.of_nat c)) in
                      Ret (Heightfield_write output (N.of_nat c) (N.of_nat r)
                             (float_cast (vz p)))) output)
              (seq 0 h)) with (s := output) as (output'&Hrun&Hw'&Hh'&Hln&Hrows).
  - intros done_rows r o (Ho1&Ho2&Ho3&Ho4) Hr. apply elem_of_seq in Hr.
    pose (Q := fun (done_cols : list nat) (o1 : Heightfield) =>
                 width o1 = cols /\ height o1 = height output
                 /\ length (data o1) = N.to_nat (cols * rows)
                 /\ (forall r' c, r' ∈ done_rows -> c < w ->
                       data o1 !! (r' * w + c) = Some NO_DATA_VALUE)
                 /\ forall c, c ∈ done_cols ->
                      data o1 !! (r * w + c) = Some NO_DATA_VALUE).
    destruct (for_each_prefix_total Q
                (fun c output =>
                   let! p := vec_load points (point_index cols (N.of_nat r) (N.of_nat c)) in
                   Ret (Heightfield_write output (N.of_nat c) (N.of_nat r)
                          (float_cast (vz p))))
                (seq 0 w)) with (s := o) as (o1&Hrun1&Hq1&Hq2&Hq3&Hq4&Hq5).
    + intros done_cols c o1 (Hs1&Hs2&Hs3&Hs4&Hs5) Hc. apply elem_of_seq in Hc.
      rewrite point_index_nat by (fold w h; lia). fold w. set (idx := r * w + c).
      assert (Hidx : idx < N.to_nat (cols * rows)) by (subst idx w h; nia).
      destruct (Hpoints idx Hidx) as (p&Hp&Hz).
      unfold vec_load. rewrite Hp. simpl.
      rewrite Hz, NO_DATA_VALUE_is_float.
      eexists. split; [done|].
      unfold Q, Heightfield_write, cell_index. simpl. rewrite Hs1, cell_index_nat.
      fold w idx. rewrite length_insert.
      repeat split; try done.
      * intros r' c' Hr' Hc'. destruct (decide (r' * w + c' = idx)) as [->|Hne].
        -- by rewrite list_lookup_insert_eq by lia.
        -- rewrite list_lookup_insert_ne by done. by apply Hs4.
      * intros c' Hc'. destruct (decide (r * w + c' = idx)) as [->|Hne].
        -- by rewrite list_lookup_insert_eq by lia.
        -- rewrite list_lookup_insert_ne by done.
           apply elem_of_app in Hc' as [Hc'|Hc']; [by apply Hs5|].
           apply list_elem_of_singleton in Hc'. by subst c'.
    + repeat split; try done. intros c Hc. by apply elem_of_nil in Hc.
    + exists o1. split; [exact Hrun1|]. repeat split; try done.
      intros r' c Hr' Hc. apply elem_of_app in Hr' as [Hr'|Hr'].
      * by apply Hq4.
      * apply list_elem_of_singleton in Hr'. subst r'. apply Hq5, elem_of_seq. lia.
  - repeat split; try done. intros r c Hr. by apply elem_of_nil in Hr.
  - exists output'. split; [exact Hrun|]. repeat split; try done.
    apply list_eq. intros i. destruct (decide (i < N.to_nat (cols * rows))) as [Hi|Hi].
    + rewrite lookup_replicate_2 by done.
      destruct (cell_cover w h i) as (c&r&Hc&Hr&->); [subst w h; lia|].
      apply Hrows; [|done]. apply elem_of_seq. lia.
    + rewrite lookup_ge_None_2 by lia.
      symmetry. apply lookup_ge_None_2. rewrite length_replicate. lia.
Qed.

End UnsampledMosaic.

Section UnsampledMosaicResult.
Context `{Collaborators}.

Lemma assignHeights_size (cols rows : N) (points : vector dvec3)
    (output output' : Heightfield) :
  assignHeights cols rows points output = Ret output' ->
  width output' = width output /\ height output' = height output.
Proof.
  unfold assignHeights, for_upto.
  apply (for_each_preserves
           (fun o => width o = width output /\ height o = height output)); [|done].
  intros r s s' Hs.
  apply (for_each_preserves
           (fun o => width o = width output /\ height o = height output)); [|done].
  intros c o o' Ho Hstep.
  destruct (vec_load points _); simpl in Hstep; [done|].
  by inversion Hstep; subst.
Qed.

(** Whatever the sources hold, a mosaic of fewer than 2^32 cells is built,
    and every one of its samples is NO_DATA_VALUE: the sampling loop ranges
    over a vector of size zero. *)
Lemma buildMosaic_all_no_data (key0 : TileKey) (sources : list GeoHeightfield)
    (cols rows : N) :
  sources <> [] ->
  maxSourceSize sources 0 0 = Ret (cols, rows) ->
  (cols * rows < uint32_mod)%N ->
  exists m,
    buildMosaic key0 sources = Ret m
    /\ mosaic m = mkHeightfield cols rows
                    (replicate (N.to_nat (cols * rows)) NO_DATA_VALUE).
Proof.
  intros Hne Hsize Hfits. unfold buildMosaic. rewrite Hsize. simpl.
  destruct sources as [|source0 rest]; [done|].
  destruct (buildGrid_unsampled cols rows Hfits
              (xMin (TileKey_extent key0)) (yMin (TileKey_extent key0))
              ((xMax (TileKey_extent key0) - xMin (TileKey_extent key0))
               / double_of_unsigned cols)%float
              ((yMax (TileKey_extent key0) - yMin (TileKey_extent key0))
               / double_of_unsigned rows)%float
              (vec_reserve (mkdvec3 0 0 0) (N.to_nat ((cols * rows) mod uint32_mod)) vec_empty))
    as (points&Hgrid&Hsz&Hpoints).
  { done. }
  { unfold vec_reserve. simpl. rewrite length_replicate, N.mod_small by done. lia. }
  rewrite Hgrid. simpl.
  rewrite !(vec_foreach_empty _ points) by done.
  assert (Hsame : (if operation_valid
                        (SRS_to (extent_srs (TileKey_extent key0)) (extent_srs (extent source0)))
                   then points else points) = points) by (by destruct (operation_valid _)).
  rewrite Hsame. rewrite !(vec_foreach_empty _ points) by done. rewrite Hsame.
  destruct (assignHeights_unsampled cols rows Hfits points (Heightfield_create cols rows))
    as (output&Hassign&Hw&Hh&Hdata); try done.
  { unfold Heightfield_create. simpl. by rewrite length_replicate. }
  rewrite Hassign. simpl. eexists. split; [done|]. simpl.
  destruct output as [w h d]. simpl in *. by subst.
Qed.

(** X20: every mosaic the assembler returns is unsampled, whatever its
    sources hold: a mosaic of fewer than 2^32 cells holds NO_DATA_VALUE in
    every cell, because the sampling loop ranges over a vector whose size is
    still zero. *)
Lemma assembleHeightfield_mosaic_all_no_data
    (L : ElevationLayer) (key0 : TileKey) (io : IOOptions) (m : HeightfieldMosaic) :
  assembleHeightfield L key0 io = Ret (Some m) ->
  (width (mosaic m) * height (mosaic m) < uint32_mod)%N ->
  data (mosaic m)
  = replicate (N.to_nat (width (mosaic m) * height (mosaic m))) NO_DATA_VALUE.
Proof.
  unfold assembleHeightfield.
  destruct (collectSources L io (levelOfDetail key0)
              (getIntersectingKeys key0 (layer_profile L)) [] false)
    as [[sources flag]|]; [|done].
  destruct flag; [|by simpl; destruct (canceled io)].
  destruct (buildMosaic key0 sources) as [|m0] eqn:Hbuild; [done|]. simpl.
  destruct (canceled io); [done|]. intros [= <-] Hfits.
  assert (Hsize : exists cols rows,
             maxSourceSize sources 0 0 = Ret (cols, rows)
             /\ sources <> []
             /\ width (mosaic m0) = cols /\ height (mosaic m0) = rows).
  { unfold buildMosaic in Hbuild.
    destruct (maxSourceSize sources 0 0) as [|[cols rows]]; [done|]. simpl in Hbuild.
    destruct sources as [|source0 rest]; [done|].
    destruct (buildGrid _ _ _ _ _ _ _) as [|points]; [done|]. simpl in Hbuild.
    destruct (assignHeights _ _ _ _) as [|output] eqn:Hassign; [done|].
    simpl in Hbuild. inversion Hbuild; subst m0. simpl.
    apply assignHeights_size in Hassign as [Hw Hh].
    exists cols, rows. by rewrite Hw, Hh. }
  destruct Hsize as (cols&rows&Hmax&Hne&Hw&Hh). rewrite Hw, Hh in *.
  destruct (buildMosaic_all_no_data key0 sources cols rows Hne Hmax Hfits)
    as (m1&Hbuild1&Hm1).
  rewrite Hbuild in Hbuild1. inversion Hbuild1; subst m1. by rewrite Hm1.
Qed.

End UnsampledMosaicResult.

(** [layer_level0] has a tile at level 0 only.  For the level 1 key of the
    other profile the walk fetches that tile, a fallback source, and the
    assembler returns nothing. *)
Lemma assembleHeightfield_fallback_counterexample :
  ~ (forall (C : Collaborators) (L : ElevationLayer) (key0 : TileKey) (io : IOOptions)
       (sources : list GeoHeightfield),
       canceled io = false ->
       Profile_eqb (profile key0) (layer_profile L) = false ->
       collectSources L io (levelOfDetail key0)
         (getIntersectingKeys key0 (layer_profile L)) [] false = Some (sources, false) ->
       sources <> [] ->
       exists m, assembleHeightfield L key0 io = Ret (Some m)).
Proof.
  intros Hclaim.
  destruct (Hclaim demo (layer_level0 [5; 6; 7; 8]%float) keyB io_running
              [mkGeoHeightfield (Some (mkHeightfield 2 2 [5; 6; 7; 8]%float)) unit_extent]
              eq_refl eq_refl eq_refl) as [m Hm]; [done|].
  vm_compute in Hm. discriminate.
Qed.

Lemma assembleHeightfield_fallback_only_is_empty_witness :
  @assembleHeightfield demo (layer_level0 [5; 6; 7; 8]%float) keyB io_running = Ret None.
Proof.
  apply (@assembleHeightfield_fallback_only_is_empty demo).
  intros k Hk [_ Hlevel].
  apply list_elem_of_singleton in Hk. subst k.
  vm_compute in Hlevel. discriminate.
Defined.

(** C8 (the code falls short of the claim): [layer_level1] has the tile
    5, 6, 7, 8 at the target level.  The first source's sample at the centre
    of the first cell is 5, which is what the claim gives that cell; the
    mosaic the assembler returns holds NO_DATA_VALUE there and in every other
    cell, as every mosaic does. *)
Theorem assembleHeightfield_leaves_cells_unsampled :
  (exists m,
     @assembleHeightfield demo (layer_level1 [5; 6; 7; 8]%float) keyB io_running
       = Ret (Some m)
     /\ data (mosaic m)
        = [@NO_DATA_VALUE demo; @NO_DATA_VALUE demo; @NO_DATA_VALUE demo; @NO_DATA_VALUE demo])
  /\ vz (@samplePoint demo
           [mkGeoHeightfield (Some (mkHeightfield 2 2 [5; 6; 7; 8]%float)) unit_extent]
           (mkdvec3 0.25 0.25 (@NO_DATA_VALUE demo))) = 5%float.
Proof.
  split.
  - eexists. split; vm_compute; reflexivity.
  - vm_compute. reflexivity.
Qed.

(** * The compositor: bail-outs and post-processing *)

Section CompositorResults.
Context `{Collaborators}.

(** A layer the classification keeps (lines 620-665): it is open, the key is
    not below its minimum level, and it has a best available key. *)
Definition usableLayer (hfWidth : N) (key0 query : TileKey) (L : ElevationLayer) : bool :=
  isOpen L
  && negb (levelOfDetail key0 <? minLevel L)
  && TileKey_valid (bestAvailableTileKey L (mapResolution query hfWidth (tileSize L))).

(** Its best available key differs from the resolution-mapped key. *)
Definition fallbackOnly (hfWidth : N) (query : TileKey) (L : ElevationLayer) : bool :=
  negb (TileKey_eqb (mapResolution query hfWidth (tileSize L))
          (bestAvailableTileKey L (mapResolution query hfWidth (tileSize L)))).

Definition all_counted (acc : Classification) : Prop :=
  numFallbackLayers acc = length (contenders acc) + length (offsets acc).

Lemma classifyLayer_all_counted (hfWidth : N) (key0 query : TileKey) (i : nat)
    (L : ElevationLayer) (acc : Classification) :
  (usableLayer hfWidth key0 query L = true -> fallbackOnly hfWidth query L = true) ->
  all_counted acc -> all_counted (classifyLayer hfWidth key0 query i L acc).
Proof.
  unfold usableLayer, fallbackOnly, classifyLayer, all_counted.
  intros Hfb Hacc.
  destruct (isOpen L); [|done].
  destruct (levelOfDetail key0 <? minLevel L); [done|].
  destruct (TileKey_valid _); [|done].
  rewrite Hfb by done.
  destruct (offset L); simpl; rewrite length_app; simpl; lia.
Qed.

Lemma classifyLayers_all_counted (hfWidth : N) (key0 query : TileKey)
    (layers : list ElevationLayer) :
  (forall L, L ∈ layers ->
     usableLayer hfWidth key0 query L = true -> fallbackOnly hfWidth query L = true) ->
  all_counted (classifyLayers hfWidth key0 query layers).
Proof.
  intros Hfb. unfold classifyLayers.
  assert (Hin : forall il, il ∈ reverse (imap (fun i l => (i, l)) layers) -> il.2 ∈ layers).
  { intros [i L] Hil. rewrite elem_of_reverse in Hil.
    apply elem_of_lookup_imap in Hil as (j&L'&Heq&Hl). inversion Heq; subst.
    by eapply list_elem_of_lookup_2. }
  revert Hin. generalize (reverse (imap (fun i l => (i, l)) layers)).
  assert (Hinit : all_counted (mkClassification [] [] 0)) by done.
  revert Hinit. generalize (mkClassification [] [] 0).
  intros acc Hacc l. revert acc Hacc.
  induction l as [|[i L] l IH]; intros acc Hacc Hin; simpl; [done|].
  apply IH.
  - apply classifyLayer_all_counted; [|done].
    apply Hfb. apply (Hin (i, L)). left.
  - intros il Hil. apply Hin. by right.
Qed.

(** C3: when the stack has no usable layer, or every usable layer's best
    available key differs from its resolution-mapped key, the compositor
    returns false through one of its two bail-outs and the target heightfield
    is handed back as it was given. *)
Theorem populateHeightfield_fallback_only_bails_out
    (geodeticExtent : GeoExtent -> GeoExtent) (layers : list ElevationLayer)
    (hf : Heightfield) (key0 : TileKey) (haeProfile : Profile)
    (interpolation : Interpolation) (io : IOOptions) :
  (forall L, L ∈ layers ->
     usableLayer (width hf) key0 (keyToUse key0 haeProfile) L = true ->
     fallbackOnly (width hf) (keyToUse key0 haeProfile) L = true) ->
  exists s,
    populateHeightfield geodeticExtent layers (Some hf) key0 haeProfile interpolation io
    = Ret (mkPopulated false s (Some hf))
    /\ (s = return_no_layers \/ s = return_all_fallback).
Proof.
  intros Hfb%classifyLayers_all_counted. unfold populateHeightfield.
  set (cl := classifyLayers (width hf) key0 (keyToUse key0 haeProfile) layers) in *.
  destruct (empty (contenders cl) && empty (offsets cl)).
  - exists return_no_layers. split; [done|by left].
  - unfold all_counted in Hfb. rewrite <- Hfb, Nat.eqb_refl.
    exists return_all_fallback. split; [done|by right].
Qed.

(** What [resolveInvalidHeights] does to a sample without a geoid. *)
Definition zeroFill (h : float) : float :=
  if (h =? NO_DATA_VALUE)%float then 0%float else h.

Lemma zeroFill_no_sentinel (h : float) :
  (0 =? NO_DATA_VALUE)%float = false ->
  (zeroFill h =? NO_DATA_VALUE)%float = false.
Proof.
  intros Hzero. unfold zeroFill.
  destruct (h =? NO_DATA_VALUE)%float eqn:Hh; done.
Qed.

(** The sampling stage of [populateHeightfield] (lines 705-936), for a call
    that got past the two bail-outs: the state it leaves, whose target is
    what line 939 hands to [resolveInvalidHeights]. *)
Definition sampleLayers (layers : list ElevationLayer) (hf : Heightfield) (key0 : TileKey)
    (haeProfile : Profile) (interpolation : Interpolation) (io : IOOptions)
  : outcome Sampling :=
  let keyToUse := keyToUse key0 haeProfile in
  let cl := classifyLayers (width hf) key0 keyToUse layers in
  let! fast := fastPath (contenders cl) (offsets cl) io hf in
  match fast with
  | Some copied => Ret (mkSampling [] [] [] [] [] [] 0 true 0 copied false)
  | None =>
      resample (contenders cl) (offsets cl) key0 (profile_srs (profile keyToUse))
        interpolation io hf
  end.

(** C10: a call that leaves through the final [return realData] - it did not
    bail out and was not canceled - has passed the target its sampling stage
    left through [resolveInvalidHeights] with a null geoid: the output has
    the size of that target, every sample of it equal to NO_DATA_VALUE became
    0.0, every other sample stayed, and, NO_DATA_VALUE not being zero, no
    sample of the output equals NO_DATA_VALUE. *)
Theorem populateHeightfield_output_has_no_sentinel
    (geodeticExtent : GeoExtent -> GeoExtent) (layers : list ElevationLayer)
    (hf : option Heightfield) (key0 : TileKey) (haeProfile : Profile)
    (interpolation : Interpolation) (io : IOOptions) (p : Populated) :
  (0 =? NO_DATA_VALUE)%float = false ->
  populateHeightfield geodeticExtent layers hf key0 haeProfile interpolation io = Ret p ->
  site p = return_realData ->
  exists (given : Heightfield) (st : Sampling) (resolved : Heightfield),
    hf = Some given
    /\ sampleLayers layers given key0 haeProfile interpolation io = Ret st
    /\ output p = Some resolved
    /\ resolveInvalidHeights geodeticExtent (Some (target st)) (TileKey_extent key0)
         NO_DATA_VALUE None = Ret (Some resolved)
    /\ width resolved = width (target st) /\ height resolved = height (target st)
    /\ data resolved = map zeroFill (data (target st))
    /\ forall v, v ∈ data resolved -> (v =? NO_DATA_VALUE)%float = false.
Proof.
  intros Hzero Hrun Hsite. unfold populateHeightfield in Hrun.
  destruct hf as [hf|]; [|by inversion Hrun; subst].
  destruct (empty _ && empty _); [by inversion Hrun; subst|].
  destruct (_ =? _)%nat; [by inversion Hrun; subst|].
  exists hf. unfold sampleLayers.
  destruct (fastPath _ _ io hf) as [|fast]; simpl in Hrun; [done|].
  match type of Hrun with
  | obind ?m _ = _ => destruct m as [|st] eqn:Hst; simpl in Hrun; [done|]
  end.
  destruct (aborted st); [by inversion Hrun; subst|].
  destruct (canceled io); inversion Hrun; subst; [done|]. simpl.
  eexists st, _. repeat split; [exact Hst|].
  intros v (h&->&_)%list_elem_of_fmap.
  by apply zeroFill_no_sentinel.
Qed.

End CompositorResults.

Lemma populateHeightfield_fallback_only_bails_out_witness :
  exists s,
    @populateHeightfield demo (fun e => e) [layer_coarse [5; 6; 7; 8]%float]
      (Some used_target) keyA Profile_default BILINEAR io_running
    = Ret (mkPopulated false s (Some used_target))
    /\ (s = return_no_layers \/ s = return_all_fallback).
Proof.
  apply (@populateHeightfield_fallback_only_bails_out demo).
  intros L HL _. apply list_elem_of_singleton in HL. subst L.
  vm_compute. reflexivity.
Defined.

Lemma populateHeightfield_output_has_no_sentinel_witness :
  exists (given : Heightfield) (st : Sampling) (resolved : Heightfield),
    Some used_target = Some given
    /\ @sampleLayers demo [layer_everywhere [50; - FLT_MAX; 70; 80]%float] given keyA
         Profile_default BILINEAR io_running = Ret st
    /\ output (mkPopulated true return_realData
                 (Some (mkHeightfield 2 2 [50; 0; 70; 80]%float))) = Some resolved
    /\ resolveInvalidHeights (fun e => e) (Some (target st)) (@TileKey_extent demo keyA)
         (@NO_DATA_VALUE demo) None = Ret (Some resolved)
    /\ width resolved = width (target st) /\ height resolved = height (target st)
    /\ data resolved = map (@zeroFill demo) (data (target st))
    /\ forall v, v ∈ data resolved -> (v =? @NO_DATA_VALUE demo)%float = false.
Proof.
  apply (@populateHeightfield_output_has_no_sentinel demo (fun e => e)
           [layer_everywhere [50; - FLT_MAX; 70; 80]%float]
           (Some used_target) keyA Profile_default BILINEAR io_running).
  - reflexivity.
  - vm_compute. reflexivity.
  - reflexivity.
Defined.

(** * The resampling loop against its cache-free reading *)

(** Two computations fault together or return related results. *)
Definition sim {A B : Type} (R : A -> B -> Prop) (a : outcome A) (b : outcome B) : Prop :=
  match a, b with
  | Fault, Fault => True
  | Ret x, Ret y => R x y
  | _, _ => False
  end.

Lemma for_each_sim {A B S1 S2 : Type} (Q : A -> B -> Prop) (R : S1 -> S2 -> Prop)
    (f : A -> S1 -> outcome S1) (g : B -> S2 -> outcome S2) (la : list A) (lb : list B) :
  Forall2 Q la lb ->
  (forall a b s1 s2, Q a b -> R s1 s2 -> sim R (f a s1) (g b s2)) ->
  forall s1 s2, R s1 s2 -> sim R (for_each la f s1) (for_each lb g s2).
Proof.
  intros Hl Hstep. induction Hl as [|a b la lb Hab _ IH]; intros s1 s2 Hs; simpl; [done|].
  specialize (Hstep a b s1 s2 Hab Hs).
  destruct (f a s1) as [|s1'], (g b s2) as [|s2']; simpl in *; try done.
  by apply IH.
Qed.

Lemma Forall2_eq_refl {A : Type} (l : list A) : Forall2 eq l l.
Proof. induction l; by constructor. Qed.

Lemma Forall2_seq_lookup {A : Type} (l : list A) :
  Forall2 (fun i a => l !! i = Some a) (seq 0 (length l)) l.
Proof.
  apply Forall2_same_length_lookup. split; [by rewrite length_seq|].
  intros i j a Hj Ha. apply lookup_seq in Hj as [-> _]. done.
Qed.

Section Resampling.
Context `{Collaborators}.
Variables (cs os : list LayerData) (keySRS : SRS) (interpolation : Interpolation)
  (io : IOOptions).

(** The heightfield a contender resolves to: the fallback walk from its
    key, started without a cached heightfield. *)
Definition resolveContender (ld : LayerData) : ContenderWalk :=
  contender_walk (layer ld) io GeoHeightfield_INVALID (key ld).

(** A walk that ends on a valid heightfield fetched it at the key it ends
    on, so walking again from that key gives the same result. *)
Lemma contender_walk_refetch (L : ElevationLayer) (fuel n : nat)
    (hf0 : GeoHeightfield) (k0 : TileKey) :
  GeoHeightfield_valid hf0 = false ->
  let w := while_fuel fuel (contender_guard L) (contender_body L io)
             (mkContenderWalk hf0 k0 false) in
  GeoHeightfield_valid (layerHF w) = true ->
  fetch_fault w = false ->
  while_fuel (S n) (contender_guard L) (contender_body L io)
    (mkContenderWalk GeoHeightfield_INVALID (actualKey w) false) = w.
Proof.
  assert (Hstop : forall m hf k, GeoHeightfield_valid hf = true ->
            while_fuel m (contender_guard L) (contender_body L io) (mkContenderWalk hf k false)
            = mkContenderWalk hf k false).
  { intros [|m] hf k Hv; cbn [while_fuel]; [done|].
    unfold contender_guard at 1. simpl. by rewrite Hv. }
  assert (Hfaulted : forall m hf k,
            while_fuel m (contender_guard L) (contender_body L io) (mkContenderWalk hf k true)
            = mkContenderWalk hf k true).
  { intros [|m] hf k; cbn [while_fuel]; [done|]. done. }
  revert hf0 k0. induction fuel as [|fuel IH]; intros hf0 k0 Hinv; cbn [while_fuel].
  { simpl. intros Hv. congruence. }
  destruct (contender_guard L (mkContenderWalk hf0 k0 false)) eqn:Hg.
  2: { simpl. intros Hv. congruence. }
  assert (Hg0 : contender_guard L (mkContenderWalk GeoHeightfield_INVALID k0 false) = true).
  { unfold contender_guard in *. simpl in *. by rewrite Hinv in Hg. }
  assert (Hbody : forall hf, contender_body L io (mkContenderWalk hf k0 false)
            = match createHeightfield L k0 io with
              | Fault => mkContenderWalk hf k0 true
              | Ret r => mkContenderWalk (value r)
                           (if negb (GeoHeightfield_valid (value r))
                            then makeParent k0 else k0) false
              end) by done.
  rewrite Hbody.
  destruct (createHeightfield L k0 io) as [|r] eqn:Hfetch.
  - rewrite Hfaulted. simpl. done.
  - destruct (GeoHeightfield_valid (value r)) eqn:Hv; simpl negb; cbn iota.
    + rewrite Hstop by done. simpl. intros _ _.
      rewrite Hg0, Hbody. simpl negb. cbn iota.
      by apply Hstop.
    + by apply IH.
Qed.

Lemma contender_walk_refetch' (L : ElevationLayer) (hf0 : GeoHeightfield) (k0 : TileKey) :
  GeoHeightfield_valid hf0 = false ->
  let w := contender_walk L io hf0 k0 in
  GeoHeightfield_valid (layerHF w) = true ->
  fetch_fault w = false ->
  contender_walk L io GeoHeightfield_INVALID (actualKey w) = w.
Proof.
  intros Hinv w Hv Hf. unfold contender_walk at 1.
  by apply (contender_walk_refetch L (S (levelOfDetail k0))).
Qed.

(** ** Consistency of the cached contender heightfields *)

Definition ContenderSlot (ld : LayerData) (hf0 : GeoHeightfield) (k0 : TileKey)
    (failed : bool) : Prop :=
  if failed then
    fetch_fault (resolveContender ld) = false
    /\ GeoHeightfield_valid (layerHF (resolveContender ld)) = false
  else
    contender_walk (layer ld) io GeoHeightfield_INVALID k0 = resolveContender ld
    /\ if GeoHeightfield_valid hf0
       then resolveContender ld = mkContenderWalk hf0 k0 false
       else hf0 = GeoHeightfield_INVALID.

Definition ConsistentContenders (st : Sampling) : Prop :=
  length (heightfields st) = length cs
  /\ length (heightfieldActualKeys st) = length cs
  /\ length (heightFailed st) = length cs
  /\ forall i ld, cs !! i = Some ld ->
       ContenderSlot ld
         (default GeoHeightfield_INVALID (heightfields st !! i))
         (default (key ld) (heightfieldActualKeys st !! i))
         (default false (heightFailed st !! i)).

Lemma ConsistentContenders_ext (st st' : Sampling) :
  heightfields st' = heightfields st ->
  heightfieldActualKeys st' = heightfieldActualKeys st ->
  heightFailed st' = heightFailed st ->
  ConsistentContenders st -> ConsistentContenders st'.
Proof. unfold ConsistentContenders. intros Hh Hk Hf. by rewrite Hh, Hk, Hf. Qed.

Lemma ConsistentContenders_insert (st st' : Sampling) (i : nat) (ld : LayerData)
    (hf' : GeoHeightfield) (k' : TileKey) (f' : bool) :
  ConsistentContenders st ->
  cs !! i = Some ld ->
  heightfields st' = <[i := hf']> (heightfields st) ->
  heightfieldActualKeys st' = <[i := k']> (heightfieldActualKeys st) ->
  heightFailed st' = <[i := f']> (heightFailed st) ->
  ContenderSlot ld hf' k' f' ->
  ConsistentContenders st'.
Proof.
  intros (Hl1&Hl2&Hl3&Hslots) Hi Hh Hk Hf Hslot.
  pose proof (lookup_lt_Some _ _ _ Hi) as Hlt.
  unfold ConsistentContenders. rewrite Hh, Hk, Hf, !length_insert.
  repeat split; try done.
  intros j ld' Hj. destruct (decide (j = i)) as [->|Hne].
  - rewrite !list_lookup_insert_eq by lia. simpl. congruence.
  - rewrite !list_lookup_insert_ne by done. by apply Hslots.
Qed.

Lemma ConsistentContenders_clearCache (st : Sampling) :
  ConsistentContenders st -> ConsistentContenders (clearCache st).
Proof.
  intros (Hl1&Hl2&Hl3&Hslots). unfold clearCache.
  destruct (maxHeightfields <=? numHeightfieldsInCache st)%N; [|done].
  unfold ConsistentContenders. simpl. rewrite length_map.
  repeat split; try done.
  intros i ld Hi. specialize (Hslots i ld Hi).
  pose proof (lookup_lt_Some _ _ _ Hi) as Hlt.
  destruct (lookup_lt_is_Some_2 (heightfields st) i) as [hf Hhf]; [lia|].
  rewrite list_lookup_fmap, Hhf. simpl.
  unfold ContenderSlot in *.
  destruct (default false (heightFailed st !! i)); [done|].
  destruct Hslots as [Hwalk _]. split; [done|]. done.
Qed.

Local Arguments clearCache _ : simpl never.

Lemma clearCache_frame (st : Sampling) :
  offsetfields (clearCache st) = offsetfields st
  /\ offsetFailed (clearCache st) = offsetFailed st
  /\ aborted (clearCache st) = aborted st
  /\ target (clearCache st) = target st.
Proof.
  unfold clearCache. by destruct (maxHeightfields <=? numHeightfieldsInCache st)%N.
Qed.

(** ** The contender loop of a cell *)

(** The cache-free reading of one iteration: with no winner yet, the
    contender's resolved heightfield is sampled, and a sample other than
    NO_DATA_VALUE makes it the winner. *)
Definition specContenderStep (cell : Cell) (ld : LayerData) (acc : option (float * Z))
  : outcome (option (float * Z)) :=
  match acc with
  | Some _ => Ret acc
  | None =>
      let w := resolveContender ld in
      if fetch_fault w then Fault
      else if GeoHeightfield_valid (layerHF w) then
        let e := heightAt (layerHF w) (cell_x cell) (cell_y cell) keySRS interpolation in
        if negb (e =? NO_DATA_VALUE)%float then Ret (Some (e, index ld)) else Ret None
      else Ret None
  end.

Definition ContenderRel (cell : Cell) (st0 : Sampling) (s : Sampling * Z)
    (acc : option (float * Z)) : Prop :=
  ConsistentContenders s.1
  /\ offsetfields s.1 = offsetfields st0
  /\ offsetFailed s.1 = offsetFailed st0
  /\ aborted s.1 = aborted st0
  /\ match acc with
     | None => s.2 = (-1)%Z /\ target s.1 = target st0
     | Some (e, idx) =>
         s.2 = idx /\ (0 <= idx)%Z
         /\ target s.1 = Heightfield_write (target st0) (cell_c cell) (cell_r cell) e
     end.

Lemma ContenderRel_clearCache (cell : Cell) (st0 st : Sampling) (ri : Z)
    (acc : option (float * Z)) :
  ContenderRel cell st0 (st, ri) acc -> ContenderRel cell st0 (clearCache st, ri) acc.
Proof.
  intros (Hcons&Hof&Hofl&Hab&Hacc).
  destruct (clearCache_frame st) as (Hf1&Hf2&Hf3&Hf4).
  unfold ContenderRel. simpl in *. rewrite Hf1, Hf2, Hf3, Hf4.
  split; [by apply ConsistentContenders_clearCache|done].
Qed.

Lemma contenderStep_sim (cell : Cell) (st0 : Sampling) (i : nat) (ld : LayerData)
    (s : Sampling * Z) (acc : option (float * Z)) :
  cs !! i = Some ld -> (0 <= index ld)%Z ->
  ContenderRel cell st0 s acc ->
  sim (ContenderRel cell st0)
    (contenderStep cs keySRS interpolation io cell i s)
    (specContenderStep cell ld acc).
Proof.
  intros Hi Hidx (Hcons&Hof&Hofl&Hab&Hacc). destruct s as [st ri]. simpl in *.
  unfold contenderStep.
  destruct acc as [[e idx]|].
  { destruct Hacc as (->&Hpos&Htgt).
    destruct (Z.leb_spec 0 idx); [|lia]. simpl. done. }
  destruct Hacc as [-> Htgt]. simpl (0 <=? -1)%Z. cbn iota. rewrite Hi.
  pose proof Hcons as (Hl1&Hl2&Hl3&Hslots).
  specialize (Hslots i ld Hi). unfold ContenderSlot in Hslots.
  unfold specContenderStep.
  destruct (default false (heightFailed st !! i)) eqn:Hfailed.
  { destruct Hslots as [-> ->]. simpl. done. }
  destruct Hslots as [Hwalk Hcached].
  set (hf0 := default GeoHeightfield_INVALID (heightfields st !! i)) in *.
  set (k0 := default (key ld) (heightfieldActualKeys st !! i)) in *.
  pose proof (lookup_lt_Some _ _ _ Hi) as Hlt.
  assert (Hfl : <[i := false]> (heightFailed st) = heightFailed st).
  { apply list_insert_id.
    destruct (lookup_lt_is_Some_2 (heightFailed st) i) as [f Hf]; [lia|].
    rewrite Hf in Hfailed. simpl in Hfailed. congruence. }
  destruct (GeoHeightfield_valid hf0) eqn:Hv0; simpl negb; cbn iota.
  - (* a cached heightfield *)
    rewrite Hcached. simpl. rewrite Hv0. simpl.
    set (e := heightAt hf0 (cell_x cell) (cell_y cell) keySRS interpolation).
    destruct (e =? NO_DATA_VALUE)%float; simpl; apply ContenderRel_clearCache;
      (split; [|simpl; repeat split; try done; congruence]);
      (eapply (ConsistentContenders_insert st _ i ld hf0 k0 false); try done;
       unfold ContenderSlot; by rewrite Hv0).
  - (* the fallback walk *)
    subst hf0. rewrite Hcached in *. rewrite Hwalk.
    destruct (fetch_fault (resolveContender ld)) eqn:Hfault; [done|].
    destruct (GeoHeightfield_valid (layerHF (resolveContender ld))) eqn:Hv; simpl negb; cbn iota.
    + assert (Hslot : ContenderSlot ld (layerHF (resolveContender ld))
                        (actualKey (resolveContender ld)) false).
      { unfold ContenderSlot. rewrite Hv. split.
        - rewrite <- Hwalk. apply contender_walk_refetch'; try done; by rewrite Hwalk.
        - destruct (resolveContender ld); simpl in *. by subst. }
      set (w := resolveContender ld) in *.
      set (e := heightAt (layerHF w) (cell_x cell) (cell_y cell) keySRS interpolation).
      destruct (e =? NO_DATA_VALUE)%float; simpl; apply ContenderRel_clearCache;
        (split; [|simpl; repeat split; try done; congruence]);
        (eapply (ConsistentContenders_insert st _ i ld (layerHF w) (actualKey w) false);
         done).
    + simpl. split; [|simpl; repeat split; try done; congruence].
      eapply (ConsistentContenders_insert st _ i ld _ _ true); try done.
Qed.

Hypothesis indices_nonnegative : forall ld, ld ∈ cs -> (0 <= index ld)%Z.

Lemma contenderLoop_sim (cell : Cell) (st : Sampling) :
  ConsistentContenders st ->
  sim (ContenderRel cell st)
    (for_each (seq 0 (length cs)) (contenderStep cs keySRS interpolation io cell) (st, (-1)%Z))
    (for_each cs (specContenderStep cell) None).
Proof using indices_nonnegative.
  intros Hcons.
  apply (for_each_sim (fun i ld => cs !! i = Some ld)).
  - apply Forall2_seq_lookup.
  - intros i ld s acc Hi Hrel. apply contenderStep_sim; try done.
    apply indices_nonnegative. by eapply list_elem_of_lookup_2.
  - unfold ContenderRel. simpl. done.
Qed.

(** ** The offset loop of a cell *)

Definition OffsetSlot (ld : LayerData) (hf0 : GeoHeightfield) (failed : bool) : Prop :=
  if failed then
    exists r, createHeightfield (layer ld) (key ld) io = Ret r
              /\ GeoHeightfield_valid (value r) = false
  else if GeoHeightfield_valid hf0 then
    exists r, createHeightfield (layer ld) (key ld) io = Ret r /\ value r = hf0
  else True.

Definition ConsistentOffsets (st : Sampling) : Prop :=
  length (offsetfields st) = length os
  /\ length (offsetFailed st) = length os
  /\ forall j ld, os !! j = Some ld ->
       OffsetSlot ld
         (default GeoHeightfield_INVALID (offsetfields st !! j))
         (default false (offsetFailed st !! j)).

(** The cache-free reading of one iteration over the sample buffer [d]: an
    offset below the winner is skipped; otherwise its heightfield is
    fetched and a sample that is neither NO_DATA_VALUE nor zero is added to
    the cell at [idx]. *)
Definition specOffsetStep (cell : Cell) (idx : nat) (resolvedIndex : Z) (ld : LayerData)
    (d : list float) : outcome (list float) :=
  if (0 <=? resolvedIndex)%Z && (index ld <? resolvedIndex)%Z then Ret d
  else
    let! r := createHeightfield (layer ld) (key ld) io in
    if GeoHeightfield_valid (value r) then
      let e := heightAt (value r) (cell_x cell) (cell_y cell) keySRS interpolation in
      if negb (e =? NO_DATA_VALUE)%float && negb (equiv e 0%float) then
        match d !! idx with
        | Some h => Ret (<[idx := float_add h e]> d)
        | None => Fault
        end
      else Ret d
    else Ret d.

(** The state of the offset loop against the sample buffer of the
    cache-free reading, for a target of width [W]; [st0] is the state the
    loop started from. *)
Definition OffsetRel (W : N) (st0 st : Sampling) (d : list float) : Prop :=
  ConsistentOffsets st
  /\ heightfields st = heightfields st0
  /\ heightfieldActualKeys st = heightfieldActualKeys st0
  /\ heightFailed st = heightFailed st0
  /\ data (target st) = d
  /\ width (target st) = W
  /\ height (target st) = height (target st0)
  /\ aborted st = false.

Hypothesis not_canceled : canceled io = false.

Lemma offsetStep_sim (W : N) (st0 : Sampling) (cell : Cell) (resolvedIndex : Z) (j : nat)
    (ld : LayerData) (st : Sampling) (d : list float) :
  os !! j = Some ld ->
  OffsetRel W st0 st d ->
  sim (OffsetRel W st0)
    (offsetStep os keySRS interpolation io cell resolvedIndex j st)
    (specOffsetStep cell (N.to_nat (cell_r cell * W + cell_c cell)) resolvedIndex ld d).
Proof using not_canceled.
  intros Hj (Hco&Hc1&Hc2&Hc3&Hd&Hw&Hh&Hab).
  unfold offsetStep, specOffsetStep. rewrite Hab, not_canceled, Hj.
  destruct ((0 <=? resolvedIndex)%Z && (index ld <? resolvedIndex)%Z); [done|].
  pose proof Hco as (Hl1&Hl2&Hslots).
  specialize (Hslots j ld Hj). unfold OffsetSlot in Hslots.
  pose proof (lookup_lt_Some _ _ _ Hj) as Hlt.
  destruct (default false (offsetFailed st !! j)) eqn:Hfailed.
  { destruct Hslots as (r&Hr&Hinv). rewrite Hr. simpl. rewrite Hinv. done. }
  assert (Hfl : <[j := false]> (offsetFailed st) = offsetFailed st).
  { apply list_insert_id.
    destruct (lookup_lt_is_Some_2 (offsetFailed st) j) as [f Hf]; [lia|].
    rewrite Hf in Hfailed. simpl in Hfailed. congruence. }
  set (hf0 := default GeoHeightfield_INVALID (offsetfields st !! j)) in *.
  assert (Hfetch : sim (fun hf1 r => hf1 = value r)
            (if negb (GeoHeightfield_valid hf0)
             then let! r := createHeightfield (layer ld) (key ld) io in Ret (value r)
             else Ret hf0)
            (createHeightfield (layer ld) (key ld) io)).
  { destruct (GeoHeightfield_valid hf0); simpl.
    - destruct Hslots as (r&->&<-). done.
    - by destruct (createHeightfield (layer ld) (key ld) io). }
  destruct (if negb (GeoHeightfield_valid hf0)
            then let! r := createHeightfield (layer ld) (key ld) io in Ret (value r)
            else Ret hf0) as [|hf1],
    (createHeightfield (layer ld) (key ld) io) as [|r] eqn:Hr; simpl in Hfetch; try done.
  subst hf1. simpl.
  assert (Hupd : forall st', offsetfields st' = <[j := value r]> (offsetfields st) ->
            forall f', offsetFailed st' = <[j := f']> (offsetFailed st) ->
            OffsetSlot ld (value r) f' -> ConsistentOffsets st').
  { intros st' Hf1 f' Hf2 Hslot. unfold ConsistentOffsets.
    rewrite Hf1, Hf2, !length_insert. repeat split; try done.
    intros j' ld' Hj'. destruct (decide (j' = j)) as [->|Hne].
    - rewrite !list_lookup_insert_eq by lia. simpl. congruence.
    - rewrite !list_lookup_insert_ne by done. by apply Hco. }
  destruct (GeoHeightfield_valid (value r)) eqn:Hv; simpl negb; cbn iota.
  2: { simpl. split; [|done].
       eapply Hupd with (f' := true); [done|done|]. unfold OffsetSlot. by exists r. }
  set (e := heightAt (value r) (cell_x cell) (cell_y cell) keySRS interpolation).
  assert (Hslot : OffsetSlot ld (value r) false).
  { unfold OffsetSlot. rewrite Hv. by exists r. }
  destruct (negb (e =? NO_DATA_VALUE)%float && negb (equiv e 0%float)).
  2: { simpl. split; [|done].
       eapply Hupd with (f' := false); [done| |done]. simpl. by rewrite Hfl. }
  unfold Heightfield_read, cell_index. rewrite Hw, Hd.
  destruct (d !! N.to_nat (cell_r cell * W + cell_c cell)) as [h|]; simpl; [|done].
  split; [eapply Hupd with (f' := false); [done| |done]; simpl; by rewrite Hfl|].
  simpl. rewrite Hw, Hd. unfold cell_index. rewrite Hw. done.
Qed.

Lemma offsetLoop_sim (W : N) (cell : Cell) (resolvedIndex : Z) (st : Sampling) :
  ConsistentOffsets st -> aborted st = false -> width (target st) = W ->
  sim (OffsetRel W st)
    (for_each (reverse (seq 0 (length os)))
       (offsetStep os keySRS interpolation io cell resolvedIndex) st)
    (for_each (reverse os)
       (specOffsetStep cell (N.to_nat (cell_r cell * W + cell_c cell)) resolvedIndex)
       (data (target st))).
Proof using not_canceled.
  intros Hco Hab Hw.
  apply (for_each_sim (fun j ld => os !! j = Some ld)).
  - apply Forall2_reverse, Forall2_seq_lookup.
  - intros j ld s1 s2 Hj Hrel. by apply offsetStep_sim.
  - unfold OffsetRel. done.
Qed.

(** The state of the grid loop against the sample buffer, for a target of
    width [W] and height [Ht]. *)
Definition GridRel (W Ht : N) (st : Sampling) (d : list float) : Prop :=
  ConsistentContenders st
  /\ ConsistentOffsets st
  /\ data (target st) = d
  /\ width (target st) = W
  /\ height (target st) = Ht
  /\ aborted st = false.

(** ** A cell, and the grid *)

(** The cache-free reading of a cell: the first contender, in list order,
    whose sample is not NO_DATA_VALUE is written to the cell, then the
    offsets are visited from the last to the first. *)
Definition specCell (W : N) (cell : Cell) (d : list float) : outcome (list float) :=
  let idx := N.to_nat (cell_r cell * W + cell_c cell) in
  let! res := for_each cs (specContenderStep cell) None in
  let d1 := match res with Some (e, _) => <[idx := e]> d | None => d end in
  let ri := match res with Some (_, i) => i | None => (-1)%Z end in
  for_each (reverse os) (specOffsetStep cell idx ri) d1.

Definition specGrid (W numColumns numRows : N) (xmin ymin dx dy : float) (d : list float)
  : outcome (list float) :=
  for_upto numColumns (fun c d =>
    let x := (xmin + dx * double_of_unsigned c)%float in
    for_upto numRows (fun r d =>
      let y := (ymin + dy * double_of_unsigned r)%float in
      specCell W (mkCell c r x y) d) d) d.

Lemma sampleCell_sim (W Ht : N) (cell : Cell) (st : Sampling) (d : list float) :
  GridRel W Ht st d ->
  sim (GridRel W Ht) (sampleCell cs os keySRS interpolation io cell st) (specCell W cell d).
Proof using indices_nonnegative not_canceled.
  intros (Hcc&Hco&Hd&Hw&Hh&Hab). unfold sampleCell, specCell.
  pose proof (contenderLoop_sim cell st Hcc) as Hloop.
  destruct (for_each (seq 0 (length cs)) _ _) as [|[st1 ri]],
    (for_each cs (specContenderStep cell) None) as [|res]; simpl in Hloop; try done.
  simpl. destruct Hloop as (Hcc1&Hof&Hofl&Hab1&Hres). simpl in *.
  assert (Hco1 : ConsistentOffsets st1).
  { unfold ConsistentOffsets in *. by rewrite Hof, Hofl. }
  assert (Hst1 : ri = match res with Some (_, i) => i | None => (-1)%Z end
                 /\ width (target st1) = W /\ height (target st1) = Ht
                 /\ data (target st1)
                    = match res with
                      | Some (e, _) => <[N.to_nat (cell_r cell * W + cell_c cell) := e]> d
                      | None => d
                      end).
  { destruct res as [[e idx]|].
    - destruct Hres as (->&_&->). simpl. unfold cell_index. by rewrite Hw, Hd.
    - destruct Hres as (->&->). done. }
  destruct Hst1 as (->&Hw1&Hh1&Hd1).
  pose proof (offsetLoop_sim W cell (match res with Some (_, i) => i | None => (-1)%Z end)
                st1 Hco1 ltac:(congruence) Hw1) as Hoff.
  rewrite Hd1 in Hoff.
  destruct (for_each (reverse (seq 0 (length os))) _ _) as [|st2],
    (for_each (reverse os) _ _) as [|d2]; simpl in *; try done.
  destruct Hoff as (Hco2&Hc1&Hc2&Hc3&Hd2&Hw2&Hh2&Hab2).
  unfold GridRel.
  split; [by apply (ConsistentContenders_ext st1 st2)|].
  split; [done|]. repeat split; congruence.
Qed.

Lemma sampleGrid_sim (W Ht numColumns numRows : N) (xmin ymin dx dy : float)
    (st : Sampling) (d : list float) :
  GridRel W Ht st d ->
  sim (GridRel W Ht)
    (sampleGrid cs os keySRS interpolation io numColumns numRows xmin ymin dx dy st)
    (specGrid W numColumns numRows xmin ymin dx dy d).
Proof using indices_nonnegative not_canceled.
  unfold sampleGrid, specGrid, for_upto.
  apply (for_each_sim eq); [apply Forall2_eq_refl|].
  intros c ? st1 d1 <- Hrel.
  pose proof Hrel as (_&_&_&_&_&Hab). rewrite Hab, not_canceled.
  apply (for_each_sim eq); [apply Forall2_eq_refl| |done].
  intros r ? st2 d2 <- Hrel2.
  pose proof Hrel2 as (_&_&_&_&_&Hab2). rewrite Hab2.
  by apply sampleCell_sim.
Qed.

Lemma initialSampling_GridRel (hf : Heightfield) :
  GridRel (width hf) (height hf) (initialSampling cs os hf) (data hf).
Proof.
  unfold GridRel. split; [|split; [|done]].
  - unfold ConsistentContenders, initialSampling. simpl. rewrite !length_map.
    split; [done|]. split; [done|]. split; [done|].
    intros i ld Hi. rewrite !list_lookup_fmap, Hi. simpl.
    unfold ContenderSlot. simpl. done.
  - unfold ConsistentOffsets, initialSampling. simpl. rewrite !length_map.
    split; [done|]. split; [done|].
    intros j ld Hj. rewrite !list_lookup_fmap, Hj. simpl. unfold OffsetSlot. simpl. done.
Qed.

(** The resampling loop computes what its cache-free reading computes: the
    two fault together, and otherwise the loop was not aborted and its
    target holds the buffer the reading returns. *)
Theorem sampleGrid_refines_specGrid (hf : Heightfield) (numColumns numRows : N)
    (xmin ymin dx dy : float) :
  sim (fun st d => data (target st) = d /\ width (target st) = width hf
                   /\ height (target st) = height hf /\ aborted st = false)
    (sampleGrid cs os keySRS interpolation io numColumns numRows xmin ymin dx dy
       (initialSampling cs os hf))
    (specGrid (width hf) numColumns numRows xmin ymin dx dy (data hf)).
Proof using indices_nonnegative not_canceled.
  pose proof (sampleGrid_sim (width hf) (height hf) numColumns numRows xmin ymin dx dy
                _ _ (initialSampling_GridRel hf)) as Hsim.
  destruct (sampleGrid _ _ _ _ _ _ _ _ _ _ _ _) as [|st], (specGrid _ _ _ _ _ _ _ _) as [|d];
    simpl in *; try done.
  by destruct Hsim as (_&_&?&?&?&?).
Qed.

(** ** Which contender wins a cell *)

(** A contender yields the sample [e] at a cell: its resolved heightfield is
    valid and its sample there is [e], not NO_DATA_VALUE. *)
Definition yields (ld : LayerData) (cell : Cell) (e : float) : Prop :=
  fetch_fault (resolveContender ld) = false
  /\ GeoHeightfield_valid (layerHF (resolveContender ld)) = true
  /\ heightAt (layerHF (resolveContender ld)) (cell_x cell) (cell_y cell)
       keySRS interpolation = e
  /\ (e =? NO_DATA_VALUE)%float = false.

(** A contender yields nothing: it resolves to no heightfield, or its
    sample at the cell is NO_DATA_VALUE. *)
Definition yields_nothing (ld : LayerData) (cell : Cell) : Prop :=
  fetch_fault (resolveContender ld) = false
  /\ (GeoHeightfield_valid (layerHF (resolveContender ld)) = false
      \/ (heightAt (layerHF (resolveContender ld)) (cell_x cell) (cell_y cell)
            keySRS interpolation =? NO_DATA_VALUE)%float = true).

Lemma specContender_resolved (cell : Cell) (l : list LayerData) (x : float * Z) :
  for_each l (specContenderStep cell) (Some x) = Ret (Some x).
Proof. induction l as [|ld l IH]; simpl; done. Qed.

Lemma specContenderStep_nothing (cell : Cell) (C : LayerData) :
  yields_nothing C cell -> specContenderStep cell C None = Ret None.
Proof.
  intros (Hf&HC). unfold specContenderStep. rewrite Hf.
  destruct HC as [HC|HC]; [by rewrite HC|].
  destruct (GeoHeightfield_valid _); [|done]. simpl. by rewrite HC.
Qed.

Lemma specContenderStep_yields (cell : Cell) (A : LayerData) (e : float) :
  yields A cell e -> specContenderStep cell A None = Ret (Some (e, index A)).
Proof.
  intros (Hf&Hv&He&Hnd). unfold specContenderStep. rewrite Hf, Hv. simpl.
  by rewrite He, Hnd.
Qed.

Lemma specContender_first (cell : Cell) (pre post : list LayerData) (A : LayerData)
    (e : float) :
  (forall C, C ∈ pre -> yields_nothing C cell) ->
  yields A cell e ->
  for_each (pre ++ A :: post) (specContenderStep cell) None = Ret (Some (e, index A)).
Proof.
  intros Hpre HA. induction pre as [|C pre IH]; cbn [for_each app].
  - rewrite (specContenderStep_yields _ _ _ HA). simpl. apply specContender_resolved.
  - rewrite specContenderStep_nothing by (apply Hpre; left). simpl.
    apply IH. intros C' HC'. apply Hpre. by right.
Qed.

Lemma contenderLoop_first (cell : Cell) (st : Sampling) (pre post : list LayerData)
    (A : LayerData) (e : float) :
  cs = pre ++ A :: post ->
  ConsistentContenders st ->
  (forall C, C ∈ pre -> yields_nothing C cell) ->
  yields A cell e ->
  exists st',
    for_each (seq 0 (length cs)) (contenderStep cs keySRS interpolation io cell) (st, (-1)%Z)
    = Ret (st', index A)
    /\ target st' = Heightfield_write (target st) (cell_c cell) (cell_r cell) e
    /\ ConsistentContenders st'.
Proof using indices_nonnegative.
  intros Hcs Hcons Hpre HA.
  pose proof (contenderLoop_sim cell st Hcons) as Hsim.
  rewrite Hcs in Hsim at 3. rewrite (specContender_first cell pre post A e Hpre HA) in Hsim.
  destruct (for_each (seq 0 (length cs)) _ _) as [|[st' ri]]; simpl in Hsim; [done|].
  destruct Hsim as (Hc'&_&_&_&Hri&_&Htgt). simpl in *. subst ri.
  by exists st'.
Qed.

(** The iterations down to [A] already end the loop: the winner is known
    after the iteration of [A]'s position. *)
Lemma contenderLoop_prefix (cell : Cell) (st : Sampling) (pre post : list LayerData)
    (A : LayerData) (e : float) :
  cs = pre ++ A :: post ->
  ConsistentContenders st ->
  (forall C, C ∈ pre -> yields_nothing C cell) ->
  yields A cell e ->
  exists st',
    for_each (seq 0 (S (length pre))) (contenderStep cs keySRS interpolation io cell)
      (st, (-1)%Z)
    = Ret (st', index A)
    /\ (0 <= index A)%Z.
Proof using indices_nonnegative.
  intros Hcs Hcons Hpre HA.
  assert (Hsim : sim (ContenderRel cell st)
            (for_each (seq 0 (S (length pre))) (contenderStep cs keySRS interpolation io cell)
               (st, (-1)%Z))
            (for_each (pre ++ [A]) (specContenderStep cell) None)).
  { apply (for_each_sim (fun i ld => cs !! i = Some ld)).
    - apply Forall2_same_length_lookup. split.
      + rewrite length_seq, length_app. simpl. lia.
      + intros i j ld Hj Hld. apply lookup_seq in Hj as [-> _]. simpl.
        rewrite Hcs. change (A :: post) with ([A] ++ post).
        rewrite app_assoc. apply lookup_app_l_Some. done.
    - intros i ld s acc Hi Hrel. apply contenderStep_sim; try done.
      apply indices_nonnegative. by eapply list_elem_of_lookup_2.
    - unfold ContenderRel. simpl. done. }
  rewrite (specContender_first cell pre [] A e Hpre HA) in Hsim.
  destruct (for_each (seq 0 (S (length pre))) _ _) as [|[st' ri]]; simpl in Hsim; [done|].
  destruct Hsim as (_&_&_&_&Hri&Hpos&_). simpl in *. subst ri.
  by exists st'.
Qed.

(** ** Which offsets are added to a cell *)

(** The sample an offset layer has for a cell, when its heightfield can be
    fetched. *)
Definition offsetSample (ld : LayerData) (cell : Cell) : option float :=
  match createHeightfield (layer ld) (key ld) io with
  | Ret r =>
      if GeoHeightfield_valid (value r)
      then Some (heightAt (value r) (cell_x cell) (cell_y cell) keySRS interpolation)
      else None
  | Fault => None
  end.

(** The condition of the claim: the offset sits at or above the winning
    contender, or no contender resolved, and its sample is neither
    NO_DATA_VALUE nor zero. *)
Definition offsetApplies (resolvedIndex : Z) (ld : LayerData) (e : float) : bool :=
  ((resolvedIndex <? 0)%Z || (resolvedIndex <=? index ld)%Z)
  && negb (e =? NO_DATA_VALUE)%float && negb (equiv e 0%float).

(** What the claim says of one offset layer and the value [v] of the cell:
    the binary32 sum of [v] and the sample where the condition holds, [v]
    otherwise. *)
Definition applyOffset (cell : Cell) (resolvedIndex : Z) (v : float) (ld : LayerData)
  : float :=
  match offsetSample ld cell with
  | Some e => if offsetApplies resolvedIndex ld e then float_cast (v + e)%float else v
  | None => v
  end.






End Resampling.

(** * The priority of contenders *)

Section Priority.
Context `{Collaborators}.

(** Contenders are collected from the last layer of the stack down: their
    indices decrease strictly along the list and none is negative. *)
Definition higher_priority (a b : LayerData) : Prop := (index b < index a)%Z.

Definition classified_above (n : nat) (acc : Classification) : Prop :=
  StronglySorted higher_priority (contenders acc)
  /\ forall c, c ∈ contenders acc -> (Z.of_nat n <= index c)%Z.

Lemma classifyLayer_above (hfWidth : N) (key0 query : TileKey) (n i : nat)
    (L : ElevationLayer) (acc : Classification) :
  i < n -> classified_above n acc ->
  classified_above i (classifyLayer hfWidth key0 query i L acc).
Proof.
  intros Hi [Hsorted Hbound].
  assert (Hweak : classified_above i acc).
  { split; [done|]. intros c Hc. apply Hbound in Hc. lia. }
  unfold classifyLayer.
  destruct (isOpen L); [|done].
  destruct (levelOfDetail key0 <? minLevel L); [done|].
  destruct (TileKey_valid _); [|done].
  destruct (offset L); [done|].
  split; simpl.
  - apply StronglySorted_app_2; [|done|repeat constructor].
    intros c x Hc Hx. apply list_elem_of_singleton in Hx. subst x.
    unfold higher_priority. simpl. apply Hbound in Hc. lia.
  - intros c Hc. apply elem_of_app in Hc as [Hc|Hc].
    + apply Hbound in Hc. lia.
    + apply list_elem_of_singleton in Hc. subst c. simpl. lia.
Qed.

Lemma classifyLayers_above (hfWidth : N) (key0 query : TileKey)
    (layers : list ElevationLayer) (acc : Classification) :
  classified_above (length layers) acc ->
  classified_above 0
    (foldl (fun acc il => classifyLayer hfWidth key0 query (fst il) (snd il) acc) acc
       (reverse (imap (fun i l => (i, l)) layers))).
Proof.
  revert acc. induction layers as [|L layers IH] using rev_ind; intros acc Hacc.
  - done.
  - rewrite imap_app, reverse_app. simpl. rewrite length_app in Hacc. simpl in Hacc.
    rewrite Nat.add_0_r. apply IH. apply (classifyLayer_above _ _ _ (length layers + 1)); [lia|done].
Qed.

Lemma classifyLayers_sorted (hfWidth : N) (key0 query : TileKey)
    (layers : list ElevationLayer) :
  StronglySorted higher_priority (contenders (classifyLayers hfWidth key0 query layers))
  /\ forall c, c ∈ contenders (classifyLayers hfWidth key0 query layers) ->
       (0 <= index c)%Z.
Proof.
  apply (classifyLayers_above hfWidth key0 query layers (mkClassification [] [] 0)).
  split; [constructor|]. intros c Hc. by apply elem_of_nil in Hc.
Qed.

(** Once a contender has resolved the cell, no iteration does anything, for
    any contender list. *)
Lemma contenderLoop_resolved (cs : list LayerData) (keySRS : SRS)
    (interpolation : Interpolation) (io : IOOptions) (cell : Cell) (l : list nat)
    (st : Sampling) (resolvedIndex : Z) :
  (0 <= resolvedIndex)%Z ->
  for_each l (contenderStep cs keySRS interpolation io cell) (st, resolvedIndex)
  = Ret (st, resolvedIndex).
Proof.
  intros Hpos. induction l as [|i l IH]; simpl; [done|].
  destruct (Z.leb_spec 0 resolvedIndex); [|lia]. simpl. apply IH.
Qed.

(** An iteration looks at the contender of its own position only. *)
Lemma contenderStep_lookup (cs cs' : list LayerData) (keySRS : SRS)
    (interpolation : Interpolation) (io : IOOptions) (cell : Cell) (i : nat)
    (s : Sampling * Z) :
  cs !! i = cs' !! i ->
  contenderStep cs keySRS interpolation io cell i s
  = contenderStep cs' keySRS interpolation io cell i s.
Proof. intros Hi. unfold contenderStep. by rewrite Hi. Qed.

(** The loop over [pre ++ A :: below] is the loop down to [A] when that one
    resolves the cell. *)
Lemma contenderLoop_stops (pre below : list LayerData) (A : LayerData) (keySRS : SRS)
    (interpolation : Interpolation) (io : IOOptions) (cell : Cell)
    (s : Sampling * Z) (st' : Sampling) (resolvedIndex : Z) :
  for_each (seq 0 (S (length pre)))
    (contenderStep (pre ++ A :: below) keySRS interpolation io cell) s
  = Ret (st', resolvedIndex) ->
  (0 <= resolvedIndex)%Z ->
  for_each (seq 0 (length (pre ++ A :: below)))
    (contenderStep (pre ++ A :: below) keySRS interpolation io cell) s
  = Ret (st', resolvedIndex).
Proof.
  intros Hrun Hpos.
  replace (length (pre ++ A :: below)) with (S (length pre) + length below)
    by (rewrite length_app; simpl; lia).
  rewrite seq_app, for_each_app, Hrun. simpl. by apply contenderLoop_resolved.
Qed.

(** C2 (amended): at a cell, the value the contender loop writes is the
    sample of the contender of highest stack position among those that yield
    a sample other than NO_DATA_VALUE.  If contender A yields [e] and every
    contender above A in the stack yields nothing, the loop resolves to A's
    index and writes [e] to the cell; no contender below A is consulted: with
    any other contenders [below'] in place of those below A, and however many,
    the loop ends in the same state - the same cached heightfields, keys and
    flags, the same counters and the same target - and with the same
    index. *)
Theorem populateHeightfield_highest_contender_wins
    (layers : list ElevationLayer) (hfWidth : N) (key0 query : TileKey)
    (keySRS : SRS) (interpolation : Interpolation) (io : IOOptions)
    (cell : Cell) (st : Sampling) (A : LayerData) (e : float) :
  let cs := contenders (classifyLayers hfWidth key0 query layers) in
  ConsistentContenders cs io st ->
  A ∈ cs ->
  yields keySRS interpolation io A cell e ->
  (forall C, C ∈ cs -> (index A < index C)%Z ->
     yields_nothing keySRS interpolation io C cell) ->
  exists st',
    for_each (seq 0 (length cs)) (contenderStep cs keySRS interpolation io cell) (st, (-1)%Z)
    = Ret (st', index A)
    /\ target st' = Heightfield_write (target st) (cell_c cell) (cell_r cell) e
    /\ ConsistentContenders cs io st'
    /\ forall pre below below', cs = pre ++ A :: below ->
         for_each (seq 0 (length (pre ++ A :: below')))
           (contenderStep (pre ++ A :: below') keySRS interpolation io cell) (st, (-1)%Z)
         = Ret (st', index A).
Proof.
  intros cs Hcons HA Hyield Habove.
  destruct (classifyLayers_sorted hfWidth key0 query layers) as [Hsorted Hnonneg].
  fold cs in Hsorted, Hnonneg.
  assert (Hpre : forall pre post, cs = pre ++ A :: post ->
            forall C, C ∈ pre -> yields_nothing keySRS interpolation io C cell).
  { intros pre post Hcs C HC. apply Habove.
    - rewrite Hcs. apply elem_of_app. by left.
    - rewrite Hcs in Hsorted.
      apply (StronglySorted_app_1_elem_of _ _ _ C A Hsorted HC). left. }
  destruct (list_elem_of_split _ _ HA) as (pre0&post0&Hcs0).
  destruct (contenderLoop_first cs keySRS interpolation io Hnonneg cell st pre0 post0 A e
              Hcs0 Hcons (Hpre pre0 post0 Hcs0) Hyield) as (st'&Hrun&Htarget&Hcons').
  exists st'. split; [done|]. split; [done|]. split; [done|].
  intros pre below below' Hcs.
  destruct (contenderLoop_prefix cs keySRS interpolation io Hnonneg cell st pre below A e
              Hcs Hcons (Hpre pre below Hcs) Hyield) as (st1&Hprefix&Hpos).
  assert (Hst1 : st1 = st').
  { pose proof Hprefix as Hfull. rewrite Hcs in Hfull.
    apply contenderLoop_stops in Hfull; [|done]. rewrite <- Hcs in Hfull.
    rewrite Hrun in Hfull. by inversion Hfull. }
  subst st1. apply contenderLoop_stops; [|done].
  rewrite <- Hprefix. apply for_each_ext_in. intros i s Hi.
  apply contenderStep_lookup. apply elem_of_seq in Hi. rewrite Hcs.
  change (A :: below') with ([A] ++ below'). change (A :: below) with ([A] ++ below).
  rewrite !app_assoc.
  rewrite (lookup_app_l (pre ++ [A]) below), (lookup_app_l (pre ++ [A]) below')
    by (rewrite length_app; simpl; lia).
  done.
Qed.

End Priority.

(** Three contenders with data everywhere: the middle one, A, and the
    lowest one, B, both yield a sample at the first cell, and the loop
    resolves to the top contender, not to A. *)
Lemma populateHeightfield_priority_counterexample :
  ~ (forall (C : Collaborators) (layers : list ElevationLayer) (hfWidth : N)
       (key0 query : TileKey) (keySRS : SRS) (interpolation : Interpolation)
       (io : IOOptions) (cell : Cell) (st : Sampling) (A B : LayerData) (eA eB : float),
       let cs := contenders (classifyLayers hfWidth key0 query layers) in
       2 <= length cs ->
       ConsistentContenders cs io st ->
       A ∈ cs -> B ∈ cs -> (index B < index A)%Z ->
       yields keySRS interpolation io A cell eA ->
       yields keySRS interpolation io B cell eB ->
       exists st',
         for_each (seq 0 (length cs)) (contenderStep cs keySRS interpolation io cell)
           (st, (-1)%Z) = Ret (st', index A)
         /\ target st' = Heightfield_write (target st) (cell_c cell) (cell_r cell) eA).
Proof.
  intros Hclaim.
  pose (cs := contenders (@classifyLayers demo 2 keyA keyA stack_10_20_30)).
  assert (Hcs : cs = [contender_of (flat 30) 2; contender_of (flat 20) 1;
                      contender_of (flat 10) 0]) by (vm_compute; reflexivity).
  destruct (Hclaim demo stack_10_20_30 2%N keyA keyA 1 BILINEAR io_running first_cell
              (initialSampling cs [] used_target)
              (contender_of (flat 20) 1) (contender_of (flat 10) 0) 20%float 10%float)
    as (st'&Hloop&_).
  - vm_compute. lia.
  - apply (@initialSampling_GridRel demo cs [] io_running used_target).
  - fold cs. rewrite Hcs. right. left.
  - fold cs. rewrite Hcs. right. right. left.
  - simpl. lia.
  - unfold yields. vm_compute. done.
  - unfold yields. vm_compute. done.
  - vm_compute in Hloop. inversion Hloop.
Qed.

Lemma populateHeightfield_highest_contender_wins_witness :
  let cs := contenders (@classifyLayers demo 2 keyA keyA stack_10_20_nodata) in
  exists st',
    for_each (seq 0 (length cs)) (@contenderStep demo cs 1 BILINEAR io_running first_cell)
      (initialSampling cs [] used_target, (-1)%Z)
    = Ret (st', index (contender_of (flat 20) 1))
    /\ target st' = Heightfield_write (target (initialSampling cs [] used_target))
                      (cell_c first_cell) (cell_r first_cell) 20%float
    /\ @ConsistentContenders demo cs io_running st'
    /\ forall pre below below', cs = pre ++ contender_of (flat 20) 1 :: below ->
         for_each (seq 0 (length (pre ++ contender_of (flat 20) 1 :: below')))
           (@contenderStep demo (pre ++ contender_of (flat 20) 1 :: below') 1 BILINEAR
              io_running first_cell)
           (initialSampling cs [] used_target, (-1)%Z)
         = Ret (st', index (contender_of (flat 20) 1)).
Proof.
  intros cs.
  assert (Hcs : cs = [contender_of (flat (- FLT_MAX)) 2; contender_of (flat 20) 1;
                      contender_of (flat 10) 0]) by (vm_compute; reflexivity).
  apply (@populateHeightfield_highest_contender_wins demo stack_10_20_nodata 2%N keyA keyA
           1 BILINEAR io_running first_cell (initialSampling cs [] used_target)
           (contender_of (flat 20) 1) 20%float).
  - apply (@initialSampling_GridRel demo cs [] io_running used_target).
  - fold cs. rewrite Hcs. right. left.
  - unfold yields. vm_compute. done.
  - fold cs. rewrite Hcs. intros C HC Hlt.
    apply elem_of_cons in HC as [->|HC].
    { unfold yields_nothing. vm_compute. split; [done|by right]. }
    apply elem_of_cons in HC as [->|HC]; [simpl in Hlt; lia|].
    apply list_elem_of_singleton in HC. subst C. simpl in Hlt. lia.
Defined.

(** * The offsets of a cell *)

Section Offsets.
Context `{Collaborators}.


End Offsets.


Example offset_added_to_second_cell :
  foldl (@applyOffset demo 1 BILINEAR io_running second_cell 0) 2%float
    (reverse [offset_at_1]) = 3%float.
Proof. vm_compute. reflexivity. Qed.

(** * The single-contender shortcut against the resampling loop *)

Section FastPath.
Context `{Collaborators}.

(** A heightfield the pipeline returned was fetched for a key in the
    layer's legal range. *)
Lemma createHeightfield_valid_legal (L : ElevationLayer) (k : TileKey) (io : IOOptions)
    (r : Result GeoHeightfield) :
  createHeightfield L k io = Ret r ->
  GeoHeightfield_valid (value r) = true ->
  isKeyInLegalRange L k = true.
Proof.
  unfold createHeightfield. destruct (negb (isOpen L)).
  { intros [= <-]. done. }
  intros Hrun%createHeightfieldInKeyProfile_cases Hv.
  destruct Hrun; try done; try (by compute in Hv).
Qed.

Lemma contender_walk_direct (L : ElevationLayer) (k : TileKey) (io : IOOptions)
    (r : Result GeoHeightfield) :
  createHeightfield L k io = Ret r ->
  GeoHeightfield_valid (value r) = true ->
  TileKey_valid k = true ->
  contender_walk L io GeoHeightfield_INVALID k = mkContenderWalk (value r) k false.
Proof.
  intros Hfetch Hv Hk.
  pose proof (createHeightfield_valid_legal L k io r Hfetch Hv) as Hlegal.
  unfold contender_walk. cbn [while_fuel].
  unfold contender_guard at 1. simpl. rewrite Hk, Hlegal. simpl.
  unfold contender_body at 2. simpl. rewrite Hfetch, Hv. simpl.
  destruct (levelOfDetail k); cbn [while_fuel]; [done|].
  unfold contender_guard at 1. simpl. by rewrite Hv.
Qed.

(** ** The resampling loop for one contender and no offsets *)

Section SingleContender.
Variables (c0 : LayerData) (keySRS : SRS) (interpolation : Interpolation) (io : IOOptions).
Variables (r0 : Result GeoHeightfield) (src hf : Heightfield) (xmin ymin dx dy : float).

Hypothesis not_canceled : canceled io = false.
Hypothesis index_nonnegative : (0 <= index c0)%Z.
Hypothesis key_valid : TileKey_valid (key c0) = true.
Hypothesis fetched : createHeightfield (layer c0) (key c0) io = Ret r0.
Hypothesis fetched_valid : GeoHeightfield_valid (value r0) = true.
Hypothesis fetched_heightfield : heightfield (value r0) = Some src.
Hypothesis same_width : width src = width hf.
Hypothesis same_height : height src = height hf.
Hypothesis source_size : N.to_nat (width hf * height hf) <= length (data src).
Hypothesis target_wf : Heightfield_wf hf.

(** Sampling the source at the world coordinates of an output cell gives
    the source's own sample of that cell. *)
Hypothesis aligned : forall c r : N,
  (c < width hf)%N -> (r < height hf)%N ->
  data src !! cell_index src c r
  = Some (heightAt (value r0)
            (xmin + dx * double_of_unsigned c)%float
            (ymin + dy * double_of_unsigned r)%float keySRS interpolation).

(** What the loop leaves in a cell: the source's sample, or the target's
    earlier sample where the source has none. *)
Definition merged (e v : float) : float :=
  if (e =? NO_DATA_VALUE)%float then v else e.

Definition painted (d : list float) : Prop :=
  length d = N.to_nat (width hf * height hf)
  /\ forall i e v, data src !! i = Some e -> data hf !! i = Some v ->
       d !! i = Some v \/ d !! i = Some (merged e v).

Definition settled (i : nat) (d : list float) : Prop :=
  forall e v, data src !! i = Some e -> data hf !! i = Some v ->
    d !! i = Some (merged e v).

Lemma specCell_single (cell : Cell) (d : list float) :
  specCell [c0] [] keySRS interpolation io (width hf) cell d
  = Ret (let e := heightAt (value r0) (cell_x cell) (cell_y cell) keySRS interpolation in
         if negb (e =? NO_DATA_VALUE)%float
         then <[N.to_nat (cell_r cell * width hf + cell_c cell) := e]> d
         else d).
Proof using fetched fetched_valid key_valid.
  unfold specCell. cbn [for_each]. unfold specContenderStep, resolveContender.
  rewrite (contender_walk_direct _ _ _ _ fetched fetched_valid key_valid).
  simpl. rewrite fetched_valid.
  by destruct (negb (_ =? NO_DATA_VALUE)%float).
Qed.

Lemma paint_cell (c r : nat) (d : list float) :
  c < N.to_nat (width hf) -> r < N.to_nat (height hf) -> painted d ->
  exists d1,
    specCell [c0] [] keySRS interpolation io (width hf)
      (mkCell (N.of_nat c) (N.of_nat r)
         (xmin + dx * double_of_unsigned (N.of_nat c))%float
         (ymin + dy * double_of_unsigned (N.of_nat r))%float) d = Ret d1
    /\ painted d1
    /\ settled (r * N.to_nat (width hf) + c) d1
    /\ forall i, settled i d -> settled i d1.
Proof using All.
  intros Hc Hr [Hlen Hd]. rewrite specCell_single. eexists. split; [done|].
  simpl. rewrite cell_index_nat.
  set (idx := r * N.to_nat (width hf) + c).
  assert (Hidx : idx < length d) by (rewrite Hlen; subst idx; nia).
  pose proof (aligned (N.of_nat c) (N.of_nat r) ltac:(lia) ltac:(lia)) as Hal.
  unfold cell_index in Hal. rewrite same_width, cell_index_nat in Hal. fold idx in Hal.
  set (e0 := heightAt _ _ _ _ _) in *.
  destruct (e0 =? NO_DATA_VALUE)%float eqn:He0; simpl.
  - repeat split; try done.
    intros e v He Hv. rewrite Hal in He. inversion He; subst e.
    unfold merged. rewrite He0.
    destruct (Hd idx e0 v Hal Hv) as [Hi|Hi]; [done|].
    unfold merged in Hi. by rewrite He0 in Hi.
  - repeat split.
    + by rewrite length_insert.
    + intros i e v He Hv. destruct (decide (i = idx)) as [->|Hne].
      * right. rewrite list_lookup_insert_eq by done.
        rewrite Hal in He. inversion He; subst e. unfold merged. by rewrite He0.
      * rewrite list_lookup_insert_ne by done. by apply Hd.
    + intros e v He Hv. rewrite list_lookup_insert_eq by done.
      rewrite Hal in He. inversion He; subst e. unfold merged. by rewrite He0.
    + intros i Hi e v He Hv. destruct (decide (i = idx)) as [->|Hne].
      * rewrite list_lookup_insert_eq by done.
        rewrite Hal in He. inversion He; subst e. unfold merged. by rewrite He0.
      * rewrite list_lookup_insert_ne by done. by apply Hi.
Qed.

Lemma specGrid_single :
  exists d',
    specGrid [c0] [] keySRS interpolation io (width hf) (width hf) (height hf)
      xmin ymin dx dy (data hf) = Ret d'
    /\ painted d'
    /\ forall i, i < N.to_nat (width hf * height hf) -> settled i d'.
Proof using All.
  set (w := N.to_nat (width hf)). set (h := N.to_nat (height hf)).
  pose (P := fun (cols : list nat) (d : list float) =>
               painted d /\ forall c r, c ∈ cols -> r < h -> settled (r * w + c) d).
  destruct (for_each_prefix_total P
              (fun c d =>
                 for_upto (height hf) (fun r d =>
                   specCell [c0] [] keySRS interpolation io (width hf)
                     (mkCell (N.of_nat c) r
                        (xmin + dx * double_of_unsigned (N.of_nat c))%float
                        (ymin + dy * double_of_unsigned r)%float) d) d)
              (seq 0 w)) with (s := data hf) as (d'&Hrun&Hpainted&Hsettled).
  - intros pre c d [Hd Hpre] Hc. apply elem_of_seq in Hc.
    pose (Q := fun (rows : list nat) (d1 : list float) =>
                 painted d1
                 /\ (forall c' r, c' ∈ pre -> r < h -> settled (r * w + c') d1)
                 /\ forall r, r ∈ rows -> settled (r * w + c) d1).
    destruct (for_each_prefix_total Q
                (fun r d =>
                   specCell [c0] [] keySRS interpolation io (width hf)
                     (mkCell (N.of_nat c) (N.of_nat r)
                        (xmin + dx * double_of_unsigned (N.of_nat c))%float
                        (ymin + dy * double_of_unsigned (N.of_nat r))%float) d)
                (seq 0 h)) with (s := d) as (d1&Hrun1&Hd1&Hpre1&Hrows1).
    + intros rows r d1 (Hq1&Hq2&Hq3) Hr. apply elem_of_seq in Hr.
      destruct (paint_cell c r d1) as (d2&Hcell&Hd2&Hset&Hstable); try done; try lia.
      exists d2. split; [done|]. split; [done|]. split.
      * intros c' r' Hc' Hr'. by apply Hstable, Hq2.
      * intros r' Hr'. apply elem_of_app in Hr' as [Hr'|Hr'].
        -- by apply Hstable, Hq3.
        -- apply list_elem_of_singleton in Hr'. by subst r'.
    + split; [done|]. split; [done|]. intros r Hr. by apply elem_of_nil in Hr.
    + exists d1. split; [exact Hrun1|]. split; [done|].
      intros c' r Hc' Hr. apply elem_of_app in Hc' as [Hc'|Hc'].
      * by apply Hpre1.
      * apply list_elem_of_singleton in Hc'. subst c'. apply Hrows1.
        apply elem_of_seq. lia.
  - split; [|intros c r Hc; by apply elem_of_nil in Hc].
    split; [exact target_wf|]. intros i e v He Hv. by left.
  - exists d'. split; [exact Hrun|]. split; [done|].
    intros i Hi.
    destruct (cell_cover w h i) as (c&r&Hc&Hr&->); [subst w h; lia|].
    apply Hsettled; [|done]. apply elem_of_seq. lia.
Qed.

(** Where the source has no sample, the target held NO_DATA_VALUE or zero
    before the call. *)
Hypothesis earlier_samples : forall i e v,
  data src !! i = Some e -> (e =? NO_DATA_VALUE)%float = true ->
  data hf !! i = Some v -> zeroFill v = 0%float.

Lemma fastPath_copies :
  fastPath [c0] [] io hf
  = Ret (Some (mkHeightfield (width hf) (height hf)
                 (take (N.to_nat (width hf * height hf)) (data src)
                  ++ drop (N.to_nat (width hf * height hf)) (data hf)))).
Proof using All.
  unfold fastPath. rewrite fetched. simpl.
  rewrite fetched_valid, fetched_heightfield, same_width, same_height, !N.eqb_refl.
  simpl. unfold memcpy_samples.
  destruct (decide _) as [|Hno]; [done|].
  exfalso. apply Hno. split; [done|]. by rewrite target_wf.
Qed.

Lemma single_contender_paths_agree :
  exists st copied,
    sampleGrid [c0] [] keySRS interpolation io (width hf) (height hf) xmin ymin dx dy
      (initialSampling [c0] [] hf) = Ret st
    /\ aborted st = false
    /\ fastPath [c0] [] io hf = Ret (Some copied)
    /\ forall geodeticExtent ext,
         resolveInvalidHeights geodeticExtent (Some (target st)) ext NO_DATA_VALUE None
         = resolveInvalidHeights geodeticExtent (Some copied) ext NO_DATA_VALUE None.
Proof using All.
  destruct specGrid_single as (d'&Hspec&[Hlen Hd']&Hsettled).
  assert (Hnonneg : forall ld, ld ∈ [c0] -> (0 <= index ld)%Z).
  { intros ld Hld. apply list_elem_of_singleton in Hld. by subst ld. }
  pose proof (sampleGrid_refines_specGrid [c0] [] keySRS interpolation io Hnonneg
                not_canceled hf (width hf) (height hf) xmin ymin dx dy) as Hsim.
  rewrite Hspec in Hsim.
  destruct (sampleGrid _ _ _ _ _ _ _ _ _ _ _ _) as [|st]; [done|].
  simpl in Hsim. destruct Hsim as (Hd&Hw&Hh&Hab).
  exists st. eexists. split; [done|]. split; [done|]. split; [apply fastPath_copies|].
  intros geodeticExtent ext. simpl. rewrite Hw, Hh, Hd. do 3 f_equal.
  set (n := N.to_nat (width hf * height hf)) in *.
  apply list_eq. intros i. rewrite !list_lookup_fmap.
  destruct (decide (i < n)) as [Hi|Hi].
  - destruct (lookup_lt_is_Some_2 (data src) i) as [e He]; [lia|].
    destruct (lookup_lt_is_Some_2 (data hf) i) as [v Hv]; [rewrite target_wf; fold n; lia|].
    rewrite (Hsettled i Hi e v He Hv).
    rewrite lookup_app_l by (rewrite length_take; lia).
    rewrite lookup_take_lt by done. rewrite He. simpl. f_equal.
    unfold merged. destruct (e =? NO_DATA_VALUE)%float eqn:Hnd; cbn iota.
    + apply (earlier_samples i e v He Hnd Hv).
    + by rewrite Hnd.
  - rewrite (lookup_ge_None_2 d') by lia.
    rewrite lookup_ge_None_2; [done|].
    rewrite length_app, length_take, length_drop, target_wf. fold n. lia.
Qed.

End SingleContender.

End FastPath.

(** C7 (amended): one contender, no offsets, and a contender heightfield of
    the target's width and height.  When sampling that heightfield at the
    world coordinates of an output cell gives its own sample of the cell, and
    when the target held NO_DATA_VALUE or zero wherever the contender has no
    sample, the copy of the fast path and the resampling loop give the same
    output after the invalid heights are resolved.  (The resampling loop
    leaves a cell without a sample as the target had it; the copy overwrites
    it.) *)
Theorem fastPath_agrees_with_resampling `{Collaborators}
    (c0 : LayerData) (key0 : TileKey) (keySRS : SRS) (interpolation : Interpolation)
    (io : IOOptions) (r0 : Result GeoHeightfield) (src hf : Heightfield) :
  let ext := TileKey_extent key0 in
  let dx := (extent_width ext / double_of_unsigned (unsigned_sub (width hf) 1))%float in
  let dy := (extent_height ext / double_of_unsigned (unsigned_sub (height hf) 1))%float in
  canceled io = false ->
  (0 <= index c0)%Z ->
  TileKey_valid (key c0) = true ->
  createHeightfield (layer c0) (key c0) io = Ret r0 ->
  GeoHeightfield_valid (value r0) = true ->
  heightfield (value r0) = Some src ->
  width src = width hf ->
  height src = height hf ->
  N.to_nat (width hf * height hf) <= length (data src) ->
  Heightfield_wf hf ->
  (forall c r : N, (c < width hf)%N -> (r < height hf)%N ->
     data src !! cell_index src c r
     = Some (heightAt (value r0)
               (xMin ext + dx * double_of_unsigned c)%float
               (yMin ext + dy * double_of_unsigned r)%float keySRS interpolation)) ->
  (forall i e v, data src !! i = Some e -> (e =? NO_DATA_VALUE)%float = true ->
     data hf !! i = Some v -> zeroFill v = 0%float) ->
  exists st copied,
    resample [c0] [] key0 keySRS interpolation io hf = Ret st
    /\ aborted st = false
    /\ fastPath [c0] [] io hf = Ret (Some copied)
    /\ forall geodeticExtent,
         resolveInvalidHeights geodeticExtent (Some (target st)) ext NO_DATA_VALUE None
         = resolveInvalidHeights geodeticExtent (Some copied) ext NO_DATA_VALUE None.
Proof.
  intros ext dx dy Hio Hidx Hkey Hfetch Hvalid Hsrc Hw Hh Hsize Hwf Haligned Hearlier.
  destruct (single_contender_paths_agree c0 keySRS interpolation io r0 src hf
              (xMin ext) (yMin ext) dx dy Hio Hidx Hkey Hfetch Hvalid Hsrc Hw Hh Hsize Hwf
              Haligned Hearlier) as (st&copied&Hrun&Hab&Hfast&Hsame).
  exists st, copied. repeat split; try done.
Qed.

(** A contender without a sample in the second cell, and a target that held
    2 there: the copy gives 0 in that cell, the resampling loop leaves 2. *)
Lemma fastPath_agrees_with_resampling_counterexample :
  ~ (forall (C : Collaborators) (c0 : LayerData) (key0 : TileKey) (keySRS : SRS)
       (interpolation : Interpolation) (io : IOOptions) (hf copied : Heightfield)
       (st : Sampling) (geodeticExtent : GeoExtent -> GeoExtent),
       canceled io = false ->
       fastPath [c0] [] io hf = Ret (Some copied) ->
       resample [c0] [] key0 keySRS interpolation io hf = Ret st ->
       resolveInvalidHeights geodeticExtent (Some (target st)) (TileKey_extent key0)
         NO_DATA_VALUE None
       = resolveInvalidHeights geodeticExtent (Some copied) (TileKey_extent key0)
           NO_DATA_VALUE None).
Proof.
  intros Hclaim.
  pose (probe := fun o : outcome (option Heightfield) =>
                   match o with
                   | Ret (Some x) =>
                       match data x !! 1 with
                       | Some u => (u =? 0)%float
                       | None => false
                       end
                   | _ => false
                   end).
  assert (Hrun : exists st,
            @resample demo [contender_of gap_samples 0] [] keyA 1 BILINEAR
              io_running used_target = Ret st
            /\ probe (resolveInvalidHeights (fun e => e) (Some (target st))
                        (@TileKey_extent demo keyA) (@NO_DATA_VALUE demo) None) = false).
  { eexists. split; vm_compute; reflexivity. }
  destruct Hrun as (st&Hrun&Hprobe).
  assert (Hfast : @fastPath demo [contender_of gap_samples 0] [] io_running used_target
                  = Ret (Some (mkHeightfield 2 2 gap_samples)))
    by (vm_compute; reflexivity).
  pose proof (Hclaim demo (contender_of gap_samples 0) keyA 1 BILINEAR io_running
                used_target (mkHeightfield 2 2 gap_samples) st (fun e => e)
                eq_refl Hfast Hrun) as Hsame.
  rewrite Hsame in Hprobe. vm_compute in Hprobe. discriminate.
Qed.
Lemma fastPath_agrees_with_resampling_witness :
  exists st copied,
    @resample demo [contender_of gap_samples 0] [] keyA 1 BILINEAR io_running blank_target
      = Ret st
    /\ aborted st = false
    /\ @fastPath demo [contender_of gap_samples 0] [] io_running blank_target
       = Ret (Some copied)
    /\ forall geodeticExtent,
         resolveInvalidHeights geodeticExtent (Some (target st)) (@TileKey_extent demo keyA)
           (@NO_DATA_VALUE demo) None
         = resolveInvalidHeights geodeticExtent (Some copied) (@TileKey_extent demo keyA)
             (@NO_DATA_VALUE demo) None.
Proof.
  apply (@fastPath_agrees_with_resampling demo (contender_of gap_samples 0) keyA 1 BILINEAR
           io_running (raster gap_samples) (mkHeightfield 2 2 gap_samples) blank_target).
  - reflexivity.
  - simpl. lia.
  - reflexivity.
  - vm_compute. reflexivity.
  - reflexivity.
  - reflexivity.
  - reflexivity.
  - reflexivity.
  - simpl. lia.
  - reflexivity.
  - intros c r Hc Hr. simpl in Hc, Hr.
    assert (Hcases : (c = 0 \/ c = 1)%N /\ (r = 0 \/ r = 1)%N) by lia.
    destruct Hcases as [[-> | ->] [-> | ->]]; vm_compute; reflexivity.
  - intros i e v He Hnd Hv.
    destruct i as [|[|[|[|i]]]]; simpl in He, Hv; try discriminate;
      inversion He; subst e; inversion Hv; subst v;
      vm_compute in Hnd; try discriminate; vm_compute; reflexivity.
Defined.

(** * More of the single-layer pipeline *)

Section PipelineMore.
Context `{Collaborators}.

Lemma normalize_sample_idempotent (L : ElevationLayer) (h : float) :
  normalize_sample L (normalize_sample L h) = normalize_sample L h.
Proof.
  unfold normalize_sample at 2 3. destruct (is_no_data L h) eqn:Hnd.
  - unfold normalize_sample. by destruct (is_no_data L NO_DATA_VALUE).
  - unfold normalize_sample. by rewrite Hnd.
Qed.

Lemma normalize_pixels_idempotent (L : ElevationLayer) (n : nat) (pixels : list float) :
  normalize_pixels L n (normalize_pixels L n pixels) = normalize_pixels L n pixels.
Proof.
  revert pixels. induction n as [|n IH]; intros [|h rest]; simpl; try done.
  by rewrite normalize_sample_idempotent, IH.
Qed.

(** X1: normalizing twice is normalizing once, whatever the layer's no-data
    value and valid range are - also when NO_DATA_VALUE itself is outside the
    valid range - and the heightfield keeps its width, its height and the
    length of its buffer; a null heightfield stays null. *)
Theorem normalizeNoDataValues_idempotent (L : ElevationLayer) (hf : option Heightfield) :
  normalizeNoDataValues L (normalizeNoDataValues L hf) = normalizeNoDataValues L hf
  /\ (hf = None <-> normalizeNoDataValues L hf = None)
  /\ forall h h', hf = Some h -> normalizeNoDataValues L hf = Some h' ->
       width h' = width h /\ height h' = height h
       /\ length (data h') = length (data h).
Proof.
  split; [|split].
  - destruct hf as [h|]; simpl; [|done].
    by rewrite normalize_pixels_idempotent.
  - by destruct hf.
  - intros h h' -> [= <-]. simpl. by rewrite normalize_pixels_length.
Qed.

(** X2: a heightfield that [createHeightfield] returns with an ok status has
    a width and a height in [1, 1024] and carries the extent of the key that
    was asked for, whatever extent the driver reported; and it is returned
    only by an open layer with a valid profile, for a key in the legal range,
    in a call that was not canceled. *)
Theorem createHeightfield_returns_validated_heightfield
    (L : ElevationLayer) (key0 : TileKey) (io : IOOptions)
    (r : Result GeoHeightfield) (hf : Heightfield) :
  createHeightfield L key0 io = Ret r ->
  status_ok r = true ->
  heightfield (value r) = Some hf ->
  legal_size hf
  /\ extent (value r) = TileKey_extent key0
  /\ isOpen L = true /\ profile_valid (layer_profile L) = true
  /\ isKeyInLegalRange L key0 = true
  /\ canceled io = false.
Proof.
  unfold createHeightfield. destruct (isOpen L) eqn:Hopen; simpl; [|by intros [= <-]].
  intros Hrun%createHeightfieldInKeyProfile_cases Hok Hhf.
  destruct Hrun as [Hr|Hr Hl|d Hr Hl Hd|g Hr Hl Hg Hc|g h Hr Hl Hg Hc Hh Hs
                   |g Hr Hl Hg Hc Hh|g h Hr Hl Hg Hc Hh Hs]; try done.
  - apply driver_failure_failed in Hd. congruence.
  - simpl in Hhf. inversion Hhf; subst hf. simpl.
    unfold layer_ready in Hr. apply andb_prop in Hr as [Hp _].
    repeat split; try done; apply Hs.
Qed.

(** X3: [createHeightfield] reports a failure only for an open layer, and
    exactly when its profile is invalid, or the key is legal and either the
    driver failed for a key of the layer's own profile or the raster acquired
    in a call that was not canceled has an illegal size.  A driver failure
    that gets this far is the result, as it is.  A closed layer answers with
    the non-error INVALID result. *)
Theorem createHeightfield_fails_iff
    (L : ElevationLayer) (key0 : TileKey) (io : IOOptions) (r : Result GeoHeightfield) :
  createHeightfield L key0 io = Ret r ->
  (status_ok r = false <->
     isOpen L = true
     /\ (profile_valid (layer_profile L) = false
         \/ (isKeyInLegalRange L key0 = true
             /\ ((exists d, driver_failure L key0 io = Some d)
                 \/ exists g h, acquireHeightfield L key0 io = Ret (inr g)
                      /\ canceled io = false /\ heightfield g = Some h
                      /\ ~ legal_size h))))
  /\ (isOpen L = true -> profile_valid (layer_profile L) = true ->
      isKeyInLegalRange L key0 = true ->
      forall d, driver_failure L key0 io = Some d -> r = d)
  /\ (isOpen L = false -> r = Result_of GeoHeightfield_INVALID).
Proof.
  unfold createHeightfield. destruct (isOpen L) eqn:Hopen; simpl.
  2: { intros [= <-]. split; [|done]. split; [done|]. by intros [? _]. }
  intros Hrun%createHeightfieldInKeyProfile_cases. split; [|split; [|done]].
  all: assert (Hexcl : forall d g, driver_failure L key0 io = Some d ->
            acquireHeightfield L key0 io = Ret (inr g) -> False)
    by (intros d g Hd%acquire_driver_failure Hg; congruence).
  all: destruct Hrun as [Hr|Hr Hl|d Hr Hl Hd|g Hr Hl Hg Hc|g h Hr Hl Hg Hc Hh Hs
                   |g Hr Hl Hg Hc Hh|g h Hr Hl Hg Hc Hh Hs];
    unfold layer_ready in Hr; rewrite Hopen, andb_true_r in Hr;
    try pose proof (driver_failure_failed _ _ _ _ Hd);
    try (split; [intros Hst | intros Hrhs]);
    try (by naive_solver congruence).
Qed.

End PipelineMore.

(** * More of the compositor *)

Section CompositorMore.
Context `{Collaborators}.

(** ** Cancellation *)

Lemma sampleGrid_canceled (cs os : list LayerData) (keySRS : SRS)
    (interpolation : Interpolation) (io : IOOptions) (numColumns numRows : N)
    (xmin ymin dx dy : float) (st : Sampling) :
  canceled io = true ->
  exists st',
    sampleGrid cs os keySRS interpolation io numColumns numRows xmin ymin dx dy st = Ret st'
    /\ target st' = target st.
Proof.
  intros Hc. unfold sampleGrid, for_upto. rewrite Hc.
  generalize (seq 0 (N.to_nat numColumns)). intros l. revert st.
  induction l as [|c l IH]; intros st; simpl; [by exists st|].
  destruct (aborted st); simpl.
  - apply IH.
  - destruct (IH (mkSampling (heightfields st) (heightfieldActualKeys st) (offsetfields st)
                    (heightFallback st) (heightFailed st) (offsetFailed st)
                    (numHeightfieldsInCache st) (realData st) (nodataCount st)
                    (target st) true)) as (st'&Hrun&Ht).
    by exists st'.
Qed.

(** X4: a call made with a canceled token returns false, whichever path it
    takes; and when it is the resampling loop that notices the cancellation,
    the target heightfield is handed back exactly as it was given. *)
Theorem populateHeightfield_canceled_returns_false
    (geodeticExtent : GeoExtent -> GeoExtent) (layers : list ElevationLayer)
    (hf : option Heightfield) (key0 : TileKey) (haeProfile : Profile)
    (interpolation : Interpolation) (io : IOOptions) (p : Populated) :
  canceled io = true ->
  populateHeightfield geodeticExtent layers hf key0 haeProfile interpolation io = Ret p ->
  returned p = false
  /\ site p <> return_realData
  /\ (site p = return_canceled_sampling -> output p = hf).
Proof.
  intros Hc Hrun. unfold populateHeightfield in Hrun.
  destruct hf as [hf|]; [|by inversion Hrun; subst].
  destruct (empty _ && empty _); [by inversion Hrun; subst|].
  destruct (_ =? _)%nat; [by inversion Hrun; subst|].
  destruct (fastPath _ _ io hf) as [|[copied|]]; simpl in Hrun; [done| |].
  - rewrite Hc in Hrun. by inversion Hrun; subst.
  - unfold resample in Hrun.
    match type of Hrun with
    | obind (sampleGrid ?cs ?os ?srs ?ip ?io ?nc ?nr ?x ?y ?dx ?dy ?st) _ = _ =>
        destruct (sampleGrid_canceled cs os srs ip io nc nr x y dx dy st Hc) as (st'&Hgrid&Ht)
    end.
    rewrite Hgrid in Hrun. simpl in Hrun.
    destruct (aborted st').
    + inversion Hrun; subst. simpl. by rewrite Ht.
    + rewrite Hc in Hrun. by inversion Hrun; subst.
Qed.

(** ** The size of the target *)

Definition same_size (hf hf' : Heightfield) : Prop :=
  width hf' = width hf /\ height hf' = height hf
  /\ length (data hf') = length (data hf).

Lemma same_size_write (hf hf' : Heightfield) (c r : N) (v : float) :
  same_size hf hf' -> same_size hf (Heightfield_write hf' c r v).
Proof.
  intros (Hw&Hh&Hl). unfold same_size, Heightfield_write. simpl.
  by rewrite length_insert.
Qed.

Lemma clearCache_target (st : Sampling) : target (clearCache st) = target st.
Proof. unfold clearCache. by destruct (_ <=? _)%N. Qed.

Lemma contenderStep_same_size (hf : Heightfield) (cs : list LayerData) (keySRS : SRS)
    (interpolation : Interpolation) (io : IOOptions) (cell : Cell) (i : nat)
    (s s' : Sampling * Z) :
  same_size hf (target s.1) ->
  contenderStep cs keySRS interpolation io cell i s = Ret s' ->
  same_size hf (target s'.1).
Proof.
  destruct s as [st ri]. unfold contenderStep. intros Hs Hrun.
  repeat case_match; simplify_eq; simpl in *; try done;
    rewrite ?clearCache_target; simpl; try done; by apply same_size_write.
Qed.

Lemma offsetStep_same_size (hf : Heightfield) (os : list LayerData) (keySRS : SRS)
    (interpolation : Interpolation) (io : IOOptions) (cell : Cell) (resolvedIndex : Z)
    (i : nat) (st st' : Sampling) :
  same_size hf (target st) ->
  offsetStep os keySRS interpolation io cell resolvedIndex i st = Ret st' ->
  same_size hf (target st').
Proof.
  unfold offsetStep, Heightfield_read, obind. intros Hs Hrun.
  repeat (case_match; simplify_eq; simpl in *; try done);
    try (by apply same_size_write).
Qed.

Lemma sampleCell_same_size (hf : Heightfield) (cs os : list LayerData) (keySRS : SRS)
    (interpolation : Interpolation) (io : IOOptions) (cell : Cell) (st st' : Sampling) :
  same_size hf (target st) ->
  sampleCell cs os keySRS interpolation io cell st = Ret st' ->
  same_size hf (target st').
Proof.
  unfold sampleCell. intros Hs Hrun.
  destruct (for_each (seq 0 (length cs)) _ _) as [|[st1 ri]] eqn:Hloop; simpl in Hrun; [done|].
  assert (Hs1 : same_size hf (target (st1, ri).1)).
  { revert Hloop.
    apply (for_each_preserves (fun s : Sampling * Z => same_size hf (target s.1))); [|done].
    intros a s s' Hq Hstep. by eapply contenderStep_same_size. }
  revert Hrun. apply (for_each_preserves (fun st => same_size hf (target st))); [|done].
  intros a s s' Hq Hstep. by eapply offsetStep_same_size.
Qed.

Lemma sampleGrid_same_size (hf : Heightfield) (cs os : list LayerData) (keySRS : SRS)
    (interpolation : Interpolation) (io : IOOptions) (numColumns numRows : N)
    (xmin ymin dx dy : float) (st st' : Sampling) :
  same_size hf (target st) ->
  sampleGrid cs os keySRS interpolation io numColumns numRows xmin ymin dx dy st = Ret st' ->
  same_size hf (target st').
Proof.
  unfold sampleGrid, for_upto.
  apply (for_each_preserves (fun st => same_size hf (target st))).
  intros c s s' Hs Hstep.
  destruct (aborted s); [by inversion Hstep; subst|].
  destruct (canceled io); [by inversion Hstep; subst|].
  revert Hstep. apply (for_each_preserves (fun st => same_size hf (target st))); [|done].
  intros r s1 s1' Hs1 Hstep.
  destruct (aborted s1); [by inversion Hstep; subst|].
  by eapply sampleCell_same_size.
Qed.

Lemma fastPath_same_size (cs os : list LayerData) (io : IOOptions)
    (hf copied : Heightfield) :
  fastPath cs os io hf = Ret (Some copied) -> same_size hf copied.
Proof.
  unfold fastPath, obind, memcpy_samples. intros Hfast.
  repeat (case_match; simplify_eq; simpl in *; try done).
  unfold same_size. simpl. rewrite length_app, length_take, length_drop. lia.
Qed.

(** X5: whatever the layers deliver and however the call ends, the
    heightfield [populateHeightfield] hands back has the width, the height
    and the buffer length of the target it was given: the compositor samples
    into the caller's grid and never resizes it. *)
Theorem populateHeightfield_keeps_size
    (geodeticExtent : GeoExtent -> GeoExtent) (layers : list ElevationLayer)
    (hf : Heightfield) (key0 : TileKey) (haeProfile : Profile)
    (interpolation : Interpolation) (io : IOOptions) (p : Populated) :
  populateHeightfield geodeticExtent layers (Some hf) key0 haeProfile interpolation io
  = Ret p ->
  exists out, output p = Some out /\ same_size hf out.
Proof.
  unfold populateHeightfield. intros Hrun.
  destruct (empty _ && empty _); [by inversion Hrun; subst; exists hf|].
  destruct (_ =? _)%nat; [by inversion Hrun; subst; exists hf|].
  destruct (fastPath _ _ io hf) as [|fast] eqn:Hfast; simpl in Hrun; [done|].
  assert (Hdone : forall t, same_size hf t ->
            same_size hf
              (mkHeightfield (width t) (height t)
                 (map (fun height => if (height =? NO_DATA_VALUE)%float then 0%float else height)
                    (data t)))).
  { intros t (?&?&?). unfold same_size. simpl. by rewrite length_map. }
  destruct fast as [copied|]; simpl in Hrun.
  - apply fastPath_same_size in Hfast.
    destruct (canceled io); inversion Hrun; subst; simpl; eexists; (split; [done|]);
      by apply Hdone.
  - destruct (resample _ _ _ _ _ _ _) as [|st] eqn:Hres; simpl in Hrun; [done|].
    assert (Hs : same_size hf (target st)).
    { unfold resample in Hres. eapply sampleGrid_same_size; [|exact Hres]. done. }
    destruct (aborted st); [inversion Hrun; subst; by eexists|].
    simpl in Hrun.
    destruct (canceled io); inversion Hrun; subst; simpl; eexists; (split; [done|]);
      by apply Hdone.
Qed.

End CompositorMore.

(** * The classification of the layer stack *)

Section Classified.
Context `{Collaborators}.

Lemma Profile_eqb_sym (a b : Profile) : Profile_eqb a b = Profile_eqb b a.
Proof.
  unfold Profile_eqb.
  rewrite (Nat.eqb_sym (profile_scheme a)), (Nat.eqb_sym (profile_srs a)).
  by destruct (profile_valid a), (profile_valid b).
Qed.

Lemma TileKey_eqb_sym (a b : TileKey) : TileKey_eqb a b = TileKey_eqb b a.
Proof.
  unfold TileKey_eqb.
  by rewrite (Nat.eqb_sym (levelOfDetail a)), (Nat.eqb_sym (tileX a)),
    (Nat.eqb_sym (tileY a)), (Profile_eqb_sym (profile a)).
Qed.

(** The entry a usable layer at stack position [i] is recorded with. *)
Definition layerEntry (hfWidth : N) (query : TileKey) (i : nat) (L : ElevationLayer)
  : LayerData :=
  mkLayerData L
    (bestAvailableTileKey L (mapResolution query hfWidth (tileSize L)))
    (fallbackOnly hfWidth query L)
    (Z.of_nat i).

(** The usable layers with the given [offset] flag, as entries. *)
Definition keptEntries (hfWidth : N) (key0 query : TileKey) (as_offset : bool)
    (stack : list (nat * ElevationLayer)) : list LayerData :=
  omap (fun il : nat * ElevationLayer =>
          if usableLayer hfWidth key0 query il.2 && Bool.eqb (offset il.2) as_offset
          then Some (layerEntry hfWidth query il.1 il.2) else None)
    stack.

Definition countFallback (l : list LayerData) : nat :=
  length (filter (fun ld => isFallback ld = true) l).

Lemma classifyLayer_kept (hfWidth : N) (key0 query : TileKey) (i : nat)
    (L : ElevationLayer) (acc : Classification) :
  let acc' := classifyLayer hfWidth key0 query i L acc in
  contenders acc' = contenders acc ++ keptEntries hfWidth key0 query false [(i, L)]
  /\ offsets acc' = offsets acc ++ keptEntries hfWidth key0 query true [(i, L)]
  /\ numFallbackLayers acc'
     = numFallbackLayers acc
       + countFallback (keptEntries hfWidth key0 query false [(i, L)])
       + countFallback (keptEntries hfWidth key0 query true [(i, L)]).
Proof.
  unfold classifyLayer, keptEntries, usableLayer, layerEntry, fallbackOnly, countFallback.
  simpl. rewrite (TileKey_eqb_sym (bestAvailableTileKey L _)).
  destruct (isOpen L); simpl; [|by rewrite !app_nil_r, !Nat.add_0_r].
  destruct (levelOfDetail key0 <? minLevel L); simpl;
    [by rewrite !app_nil_r, !Nat.add_0_r|].
  destruct (TileKey_valid _); simpl; [|by rewrite !app_nil_r, !Nat.add_0_r].
  destruct (offset L); simpl; rewrite ?app_nil_r;
    destruct (TileKey_eqb _ _); simpl;
    (split; [done|split; [done|]]); rewrite ?filter_cons, ?filter_nil; simpl;
    repeat case_decide; simpl; try done; lia.
Qed.

Lemma countFallback_app (l1 l2 : list LayerData) :
  countFallback (l1 ++ l2) = countFallback l1 + countFallback l2.
Proof. unfold countFallback. by rewrite filter_app, length_app. Qed.

(** X6: the classification loop keeps exactly the usable layers - open, not
    below their minimum level, with a valid best available key - each once,
    from the top of the stack down, the offset layers apart from the
    contenders; each entry holds the layer's best available key, whether
    that key differs from the resolution-mapped key, and the layer's stack
    position; and the counter of fallback layers is the number of kept
    entries so flagged. *)
Theorem classifyLayers_keeps_usable_layers (hfWidth : N) (key0 query : TileKey)
    (layers : list ElevationLayer) :
  let cl := classifyLayers hfWidth key0 query layers in
  let stack := reverse (imap (fun i l => (i, l)) layers) in
  contenders cl = keptEntries hfWidth key0 query false stack
  /\ offsets cl = keptEntries hfWidth key0 query true stack
  /\ numFallbackLayers cl = countFallback (contenders cl) + countFallback (offsets cl).
Proof.
  unfold classifyLayers.
  generalize (reverse (imap (fun i l => (i, l)) layers)). intros stack.
  induction stack as [|[i L] stack IH] using rev_ind; [done|].
  rewrite foldl_app. simpl.
  destruct IH as (Hc&Ho&Hn).
  destruct (classifyLayer_kept hfWidth key0 query i L
              (foldl (fun acc il => classifyLayer hfWidth key0 query il.1 il.2 acc)
                 (mkClassification [] [] 0) stack)) as (Hc'&Ho'&Hn').
  rewrite Hc', Ho', Hn', Hc, Ho, Hn.
  unfold keptEntries. rewrite !omap_app, !countFallback_app.
  split; [done|split; [done|]]. rewrite Hc, Ho. unfold keptEntries. lia.
Qed.

(** X7: the compositor returns true only in a call that was not canceled
    and only when the stack holds a usable layer whose best available key is
    the resolution-mapped key itself: without a layer that can serve the
    request at the resolution asked for, the answer is false. *)
Theorem populateHeightfield_true_needs_exact_layer
    (geodeticExtent : GeoExtent -> GeoExtent) (layers : list ElevationLayer)
    (hf : Heightfield) (key0 : TileKey) (haeProfile : Profile)
    (interpolation : Interpolation) (io : IOOptions) (p : Populated) :
  populateHeightfield geodeticExtent layers (Some hf) key0 haeProfile interpolation io
  = Ret p ->
  returned p = true ->
  canceled io = false
  /\ exists L, L ∈ layers
       /\ usableLayer (width hf) key0 (keyToUse key0 haeProfile) L = true
       /\ fallbackOnly (width hf) (keyToUse key0 haeProfile) L = false.
Proof.
  unfold populateHeightfield. intros Hrun Hret.
  destruct (empty _ && empty _); [by inversion Hrun; subst|].
  destruct (_ =? _)%nat eqn:Hcount; [by inversion Hrun; subst|].
  split.
  - destruct (fastPath _ _ io hf) as [|fast]; simpl in Hrun; [done|].
    match type of Hrun with
    | obind ?m _ = _ => destruct m as [|st]; simpl in Hrun; [done|]
    end.
    destruct (aborted st); [by inversion Hrun; subst|].
    simpl in Hrun. destruct (canceled io); [by inversion Hrun; subst|done].
  - clear Hrun.
    destruct (decide (Exists (fun L =>
                usableLayer (width hf) key0 (keyToUse key0 haeProfile) L = true
                /\ fallbackOnly (width hf) (keyToUse key0 haeProfile) L = false) layers))
      as [Hex|Hno].
    + by apply Exists_exists in Hex.
    + exfalso. apply Nat.eqb_neq in Hcount. apply Hcount.
      symmetry. apply classifyLayers_all_counted.
      intros L HL Hu.
      destruct (fallbackOnly (width hf) (keyToUse key0 haeProfile) L) eqn:Hfb; [done|].
      exfalso. apply Hno. apply Exists_exists. by exists L.
Qed.

(** X8: the cache of the resampling loop is transparent.  The loop keeps the
    heightfields it has fetched, evicts them all once fifty are held and
    never retries a contender that failed; the target it computes is the one
    obtained by resolving every contender afresh for every cell - the first
    contender, from the top of the stack down, whose sample is not
    NO_DATA_VALUE is written, then the offsets on top of it are added - and
    the loop faults exactly when that reading does. *)
Theorem resample_cache_is_transparent (layers : list ElevationLayer) (key0 query : TileKey)
    (keySRS : SRS) (interpolation : Interpolation) (io : IOOptions) (hf : Heightfield) :
  let cl := classifyLayers (width hf) key0 query layers in
  let ext := TileKey_extent key0 in
  let dx := (extent_width ext / double_of_unsigned (unsigned_sub (width hf) 1))%float in
  let dy := (extent_height ext / double_of_unsigned (unsigned_sub (height hf) 1))%float in
  canceled io = false ->
  sim (fun st d => data (target st) = d /\ width (target st) = width hf
                   /\ height (target st) = height hf /\ aborted st = false)
    (resample (contenders cl) (offsets cl) key0 keySRS interpolation io hf)
    (specGrid (contenders cl) (offsets cl) keySRS interpolation io
       (width hf) (width hf) (height hf) (xMin ext) (yMin ext) dx dy (data hf)).
Proof.
  intros cl ext dx dy Hc. unfold resample.
  apply sampleGrid_refines_specGrid; [|done].
  intros ld Hld. by apply (classifyLayers_sorted (width hf) key0 query layers).
Qed.

End Classified.

(** * More of the mosaic assembler *)

Section AssemblerMore.

Lemma subTile_walk_canceled (L : ElevationLayer) (io : IOOptions) (k : TileKey) :
  canceled io = true ->
  walk_returned (subTile_walk L io k) = true
  \/ status_ok (subTile (subTile_walk L io k)) = false.
Proof.
  intros Hc.
  assert (Hstop : forall n s, walk_returned s = true ->
            while_fuel n subTile_guard (subTile_body L io) s = s).
  { intros [|n] s Hs; cbn [while_fuel]; [done|].
    unfold subTile_guard. by rewrite Hs. }
  unfold subTile_walk. cbn [while_fuel].
  destruct (subTile_guard (mkSubTileWalk k Result_default false)); [|by right].
  left. by rewrite Hstop.
Qed.

Lemma collectSources_canceled (L : ElevationLayer) (io : IOOptions) (targetLOD : nat)
    (keys : list TileKey) (acc : list GeoHeightfield) (b : bool) :
  canceled io = true ->
  collectSources L io targetLOD keys acc b = None
  \/ collectSources L io targetLOD keys acc b = Some (acc, b).
Proof.
  intros Hc. induction keys as [|k keys IH]; simpl; [by right|].
  destruct (subTile_walk_canceled L io k Hc) as [Hr|Hs].
  - rewrite Hr. by left.
  - destruct (walk_returned _); [by left|]. by rewrite Hs.
Qed.

Context `{Collaborators}.

(** X9: with a canceled token the assembler returns null for every key and
    every driver: it never builds a mosaic and never reaches the size
    computation that dereferences the sources. *)
Theorem assembleHeightfield_canceled_is_empty
    (L : ElevationLayer) (key0 : TileKey) (io : IOOptions) :
  canceled io = true -> assembleHeightfield L key0 io = Ret None.
Proof.
  intros Hc. unfold assembleHeightfield.
  destruct (collectSources_canceled L io (levelOfDetail key0)
              (getIntersectingKeys key0 (layer_profile L)) [] false Hc) as [-> | ->];
    [done|].
  simpl. by rewrite Hc.
Qed.

Lemma maxSourceSize_fault (sources : list GeoHeightfield) (cols rows : N) :
  (exists s, s ∈ sources /\ heightfield s = None) ->
  maxSourceSize sources cols rows = Fault.
Proof.
  revert cols rows. induction sources as [|s0 sources IH]; intros cols rows (s&Hs&Hnull).
  - by apply elem_of_nil in Hs.
  - simpl. apply elem_of_cons in Hs as [->|Hs]; [by rewrite Hnull|].
    destruct (heightfield s0); [|done]. apply IH. by exists s.
Qed.

(** X10: the assembler checks the status of a fetched source, not its
    heightfield.  When a source reached the target level, a source that came
    back with an ok status and a null heightfield - whichever intersecting
    key it was fetched for - is dereferenced by the size computation of
    lines 305-309. *)
Theorem assembleHeightfield_null_source_faults
    (L : ElevationLayer) (key0 : TileKey) (io : IOOptions)
    (sources : list GeoHeightfield) :
  collectSources L io (levelOfDetail key0)
    (getIntersectingKeys key0 (layer_profile L)) [] false = Some (sources, true) ->
  (exists s, s ∈ sources /\ heightfield s = None) ->
  assembleHeightfield L key0 io = Fault.
Proof.
  intros Hcollect Hnull. unfold assembleHeightfield. rewrite Hcollect.
  unfold buildMosaic. by rewrite (maxSourceSize_fault sources 0 0 Hnull).
Qed.

Lemma sort_insert_Permutation {A : Type} (less : A -> A -> bool) (a : A) (l : list A) :
  sort_insert less a l ≡ₚ a :: l.
Proof.
  induction l as [|b l IH]; simpl; [done|].
  destruct (less b a); [|done]. rewrite IH. apply Permutation_swap.
Qed.

Lemma std_sort_Permutation {A : Type} (less : A -> A -> bool) (l : list A) :
  std_sort less l ≡ₚ l.
Proof.
  unfold std_sort. induction l as [|a l IH]; simpl; [done|].
  by rewrite sort_insert_Permutation, IH.
Qed.

Lemma maxSourceSize_bounds (sources : list GeoHeightfield) (c0 r0 cols rows : N) :
  maxSourceSize sources c0 r0 = Ret (cols, rows) ->
  (c0 <= cols /\ r0 <= rows)%N
  /\ (forall s, s ∈ sources ->
        exists h, heightfield s = Some h /\ (width h <= cols)%N /\ (height h <= rows)%N)
  /\ (cols = c0 \/ exists s h, s ∈ sources /\ heightfield s = Some h /\ width h = cols)
  /\ (rows = r0 \/ exists s h, s ∈ sources /\ heightfield s = Some h /\ height h = rows).
Proof.
  revert c0 r0. induction sources as [|s0 sources IH]; intros c0 r0 Hrun; simpl in Hrun.
  - inversion Hrun; subst. repeat split; try lia; try (by left).
    intros s Hs. by apply elem_of_nil in Hs.
  - destruct (heightfield s0) as [h0|] eqn:Hh0; [|done].
    apply IH in Hrun as ((Hc&Hr)&Hall&Hcols&Hrows).
    split; [lia|]. split; [|split].
    + intros s Hs. apply elem_of_cons in Hs as [->|Hs]; [|by apply Hall].
      exists h0. split; [done|]. lia.
    + destruct Hcols as [->|(s&h&Hs&Hh&Hw)].
      * destruct (N.max_spec c0 (width h0)) as [[_ ->]|[_ ->]].
        -- right. exists s0, h0. split; [left|done].
        -- by left.
      * right. exists s, h. split; [by right|done].
    + destruct Hrows as [->|(s&h&Hs&Hh&Hw)].
      * destruct (N.max_spec r0 (height h0)) as [[_ ->]|[_ ->]].
        -- right. exists s0, h0. split; [left|done].
        -- by left.
      * right. exists s, h. split; [by right|done].
Qed.

(** X11: a mosaic the assembler returns is as wide as its widest source and
    as high as its highest, fallback sources included, and the heightfields
    it keeps alive are those of the fetched sources, each once. *)
Theorem assembleHeightfield_mosaic_covers_sources
    (L : ElevationLayer) (key0 : TileKey) (io : IOOptions) (m : HeightfieldMosaic) :
  assembleHeightfield L key0 io = Ret (Some m) ->
  exists sources,
    collectSources L io (levelOfDetail key0)
      (getIntersectingKeys key0 (layer_profile L)) [] false = Some (sources, true)
    /\ dependencies m ≡ₚ map heightfield sources
    /\ (forall s, s ∈ sources ->
          exists h, heightfield s = Some h
                    /\ (width h <= width (mosaic m))%N /\ (height h <= height (mosaic m))%N)
    /\ (exists s h, s ∈ sources /\ heightfield s = Some h /\ width h = width (mosaic m))
    /\ (exists s h, s ∈ sources /\ heightfield s = Some h /\ height h = height (mosaic m)).
Proof.
  unfold assembleHeightfield.
  destruct (collectSources L io (levelOfDetail key0)
              (getIntersectingKeys key0 (layer_profile L)) [] false)
    as [[sources flag]|]; [|done].
  destruct flag; [|by simpl; destruct (canceled io)].
  destruct (buildMosaic key0 sources) as [|m0] eqn:Hbuild; [done|]. simpl.
  destruct (canceled io); [done|]. intros [= <-].
  exists sources. split; [done|].
  unfold buildMosaic in Hbuild.
  destruct (maxSourceSize sources 0 0) as [|[cols rows]] eqn:Hmax; [done|].
  simpl in Hbuild. destruct sources as [|source0 rest] eqn:Hsrc; [done|].
  rewrite <- Hsrc in *.
  destruct (buildGrid _ _ _ _ _ _ _) as [|points]; [done|]. simpl in Hbuild.
  destruct (assignHeights _ _ _ _) as [|output] eqn:Hassign; [done|].
  simpl in Hbuild. inversion Hbuild; subst m0. simpl.
  apply assignHeights_size in Hassign as [Hw Hh]. simpl in Hw, Hh. rewrite Hw, Hh.
  apply maxSourceSize_bounds in Hmax as (_&Hall&Hcols&Hrows).
  split; [by rewrite std_sort_Permutation|]. split; [done|].
  assert (Hfirst : exists h, heightfield source0 = Some h
                     /\ (width h <= cols)%N /\ (height h <= rows)%N).
  { apply Hall. rewrite Hsrc. left. }
  destruct Hfirst as (h0&Hh0&Hw0&Hr0).
  split.
  - destruct Hcols as [->|?]; [|done].
    exists source0, h0. split; [rewrite Hsrc; left|]. split; [done|lia].
  - destruct Hrows as [->|?]; [|done].
    exists source0, h0. split; [rewrite Hsrc; left|]. split; [done|lia].
Qed.

End AssemblerMore.

(** * [ElevationLayer::decodeMapboxRGB] (lines 951-978) *)

(** A loop [for (unsigned i = 0; i < n; ++i)] whose iterations all return,
    with an invariant indexed by the number of iterations done. *)
Lemma for_each_seq_total {St : Type} (P : nat -> St -> Prop)
    (body : nat -> St -> outcome St) (n a : nat) :
  (forall i s, a <= i < a + n -> P i s -> exists s1, body i s = Ret s1 /\ P (S i) s1) ->
  forall s, P a s -> exists s', for_each (seq a n) body s = Ret s' /\ P (a + n) s'.
Proof.
  revert a. induction n as [|n IH]; intros a Hstep s Hs; simpl.
  - exists s. by rewrite Nat.add_0_r.
  - destruct (Hstep a s) as (s1&Hb&Hs1); [lia|done|]. rewrite Hb. simpl.
    destruct (IH (S a)) with (s := s1) as (s'&Hrun&Hs'); [|done|].
    { intros i s2 Hi. apply Hstep. lia. }
    exists s'. split; [done|]. by replace (a + S n) with (S a + n) by lia.
Qed.

(** Modelled from the spec: an Image is a raster "of fixed width x height,
    single- or multi-channel samples" ([Image.h] is not part of the
    sources), with a pixel format; [image->read(pixel, x, y)] gives the
    channels of the pixel at column x, row y as floats. *)
Record fvec4 := mkfvec4 { px_r : float; px_g : float; px_b : float; px_a : float }.

Inductive PixelFormat := R8_UNORM | R8G8_UNORM | R8G8B8_UNORM | R8G8B8A8_UNORM | R32_SFLOAT.

Record Image := mkImage {
  image_valid : bool;
  pixelFormat : PixelFormat;
  image_width : N;
  image_height : N;
  image_read : N -> N -> fvec4
}.

(** Arithmetic on [float] operands: the exact result rounded to binary32. *)
Definition float_mul (a b : float) : float := float_cast (a * b)%float.

(** The literal [0.1f]. *)
Definition tenth : float := 0x1.99999ap-4%float.

(** It is the double nearest to one tenth, rounded to binary32. *)
Example tenth_is_the_float_literal : float_cast 0x1.999999999999ap-4 = tenth.
Proof. vm_compute. reflexivity. Qed.

Section MapboxRGB.
Context `{Collaborators}.

(** Lines 967-971: the height a pixel encodes, or NO_DATA_VALUE when it is
    below -9999 or above 999999. *)
Definition decodeHeight (pixel : fvec4) : float :=
  let height :=
    float_add (-10000)%float
      (float_mul
         (float_mul
            (float_add
               (float_add (float_mul (float_mul (px_r pixel) 256) 256)
                  (float_mul (px_g pixel) 256))
               (px_b pixel))
            256)
         tenth) in
  if (height <? -9999)%float || (999999 <? height)%float then NO_DATA_VALUE else height.

Definition decodeMapboxRGB (image : option Image) : outcome (option Heightfield) :=
  match image with
  | None => Ret None
  | Some image =>
      if negb (image_valid image) then Ret None
      else
        let hf := Heightfield_create (image_width image) (image_height image) in
        let! hf :=
          for_upto (image_height image) (fun y hf =>
            for_upto (image_width image) (fun x hf =>
              Ret (Heightfield_write hf x y (decodeHeight (image_read image x y)))) hf) hf in
        Ret (Some hf)
  end.

(** Cells of the rows before [rows_done], and of the first [cols_done]
    columns of that row, hold the decoded pixel. *)
Definition decoded (image : Image) (rows_done cols_done : nat) (hf : Heightfield) : Prop :=
  width hf = image_width image /\ height hf = image_height image
  /\ Heightfield_wf hf
  /\ forall x y : nat,
       x < N.to_nat (image_width image) ->
       y < rows_done \/ (y = rows_done /\ x < cols_done) ->
       data hf !! (y * N.to_nat (image_width image) + x)
       = Some (decodeHeight (image_read image (N.of_nat x) (N.of_nat y))).

Lemma decodeMapboxRGB_loop (image : Image) :
  exists hf,
    for_upto (image_height image) (fun y hf =>
      for_upto (image_width image) (fun x hf =>
        Ret (Heightfield_write hf x y (decodeHeight (image_read image x y)))) hf)
      (Heightfield_create (image_width image) (image_height image)) = Ret hf
    /\ decoded image (N.to_nat (image_height image)) 0 hf.
Proof.
  set (w := N.to_nat (image_width image)). set (h := N.to_nat (image_height image)).
  unfold for_upto.
  destruct (for_each_seq_total (fun y hf => decoded image y 0 hf)
              (fun y hf =>
                 for_each (seq 0 (N.to_nat (image_width image)))
                   (fun x hf =>
                      Ret (Heightfield_write hf (N.of_nat x) (N.of_nat y)
                             (decodeHeight (image_read image (N.of_nat x) (N.of_nat y))))) hf)
              h 0)
    with (s := Heightfield_create (image_width image) (image_height image))
    as (hf&Hrun&Hdone).
  - intros y hf0 Hy Hrows.
    destruct (for_each_seq_total (fun x hf => decoded image y x hf)
                (fun x hf =>
                   Ret (Heightfield_write hf (N.of_nat x) (N.of_nat y)
                          (decodeHeight (image_read image (N.of_nat x) (N.of_nat y)))))
                w 0) with (s := hf0) as (hf1&Hrun1&Hrow).
    + intros x hf1 Hx (Hw&Hh&Hwf&Hcells). eexists. split; [done|].
      unfold decoded, Heightfield_write, Heightfield_wf, cell_index in *. simpl.
      rewrite Hw, cell_index_nat, length_insert. fold w.
      split; [done|]. split; [done|]. split; [by rewrite Hwf, Hw|].
      intros x' y' Hx' Hpos.
      destruct (decide (y' * w + x' = y * w + x)) as [Heq|Hne].
      * assert (y' = y /\ x' = x) as [-> ->] by nia.
        rewrite list_lookup_insert_eq; [done|].
        rewrite Hwf, Hw, Hh. subst w h. nia.
      * rewrite list_lookup_insert_ne by done. apply Hcells; [done|].
        destruct Hpos as [?|[-> ?]]; [by left|]. right. split; [done|].
        assert (x' <> x) by (intros ->; done). lia.
    + done.
    + exists hf1. split; [exact Hrun1|].
      destruct Hrow as (Hw&Hh&Hwf&Hcells).
      split; [done|]. split; [done|]. split; [done|].
      intros x' y' Hx' Hpos. apply Hcells; [done|]. simpl. fold w. lia.
  - unfold decoded, Heightfield_create, Heightfield_wf. simpl.
    split; [done|]. split; [done|]. split; [by rewrite length_replicate|]. intros; lia.
  - exists hf. split; [exact Hrun|]. done.
Qed.

(** X12: a null or invalid image decodes to null.  For a valid image the
    decoder returns a heightfield of the image's width and height whose
    every cell holds the height decoded from the pixel of the same column
    and row; and no cell holds a height below -9999 or above 999999: such a
    height is replaced by NO_DATA_VALUE. *)
Theorem decodeMapboxRGB_decodes_every_pixel (image : Image) :
  decodeMapboxRGB None = Ret None
  /\ (image_valid image = false -> decodeMapboxRGB (Some image) = Ret None)
  /\ (image_valid image = true ->
      exists hf,
        decodeMapboxRGB (Some image) = Ret (Some hf)
        /\ width hf = image_width image /\ height hf = image_height image
        /\ Heightfield_wf hf
        /\ (forall x y : N,
              (x < image_width image)%N -> (y < image_height image)%N ->
              Heightfield_read hf x y = Ret (decodeHeight (image_read image x y)))
        /\ forall v, v ∈ data hf ->
             v = NO_DATA_VALUE
             \/ ((v <? -9999)%float = false /\ (999999 <? v)%float = false)).
Proof.
  split; [done|]. split.
  { intros Hv. unfold decodeMapboxRGB. by rewrite Hv. }
  intros Hv. unfold decodeMapboxRGB. rewrite Hv. simpl.
  destruct (decodeMapboxRGB_loop image) as (hf&Hrun&Hw&Hh&Hwf&Hcells).
  rewrite Hrun. simpl. exists hf.
  split; [done|]. split; [done|]. split; [done|]. split; [done|]. split.
  - intros x y Hx Hy. unfold Heightfield_read, cell_index.
    replace (N.to_nat (y * width hf + x))
      with (N.to_nat y * N.to_nat (image_width image) + N.to_nat x) by (rewrite Hw; lia).
    rewrite Hcells by lia. by rewrite !N2Nat.id.
  - intros v Hin. apply list_elem_of_lookup in Hin as (i&Hi).
    assert (Hlt : i < N.to_nat (image_width image) * N.to_nat (image_height image)).
    { apply lookup_lt_Some in Hi. unfold Heightfield_wf in Hwf.
      rewrite Hwf, Hw, Hh in Hi. lia. }
    destruct (cell_cover _ _ i Hlt) as (x&y&Hx&Hy&->).
    rewrite Hcells in Hi by lia. inversion Hi; subst v.
    unfold decodeHeight.
    destruct (_ <? -9999)%float eqn:Hlo; simpl; [by left|].
    destruct (999999 <? _)%float eqn:Hhi; simpl; [by left|]. right. done.
Qed.

End MapboxRGB.

(** * The lifecycle of a layer ([Layer.cpp]) *)

Section LayerLifecycle.
Import Stdlib.Strings.String.

(** Modelled from the spec: a layer has "a status (ok/failed + message)"
    ([Status.h] is not part of the sources): a code and a message, ok when
    the code is NoError; [Status_OK] is the ok status without a message. *)
Record Status := mkStatus { code : StatusCode; message : string }.

Definition Status_ok (s : Status) : bool := StatusCode_eqb (code s) NoError.
Definition Status_failed (s : Status) : bool := negb (Status_ok s).
Definition Status_OK : Status := mkStatus NoError EmptyString.

(** The members of [Layer] that [open] and [close] work on, and the state
    [D] a subclass adds. *)
Record Layer (D : Type) := mkLayer {
  _openAutomatically : bool;
  _status : Status;
  subclass : D
}.
Arguments mkLayer {D} _ _ _.
Arguments _openAutomatically {D} _.
Arguments _status {D} _.
Arguments subclass {D} _.

(** The virtual methods of a layer; a subclass sees the whole object. *)
Class LayerImplementation (D : Type) := {
  openImplementation : IOOptions -> Layer D -> Status * Layer D;
  closeImplementation : Layer D -> Layer D
}.

(** [Layer::openImplementation] and [Layer::closeImplementation] of the
    base class (lines 139-149). *)
Definition Layer_base (D : Type) : LayerImplementation D :=
  {| openImplementation := fun _ l => (Status_OK, l);
     closeImplementation := fun l => l |}.

Section Methods.
Context {D : Type} `{LayerImplementation D}.

(** [Layer::construct] (lines 26-40); [openAutomatically] is what the test
    of line 39 finds. *)
Definition Layer_construct (openAutomatically : bool) (d : D) : Layer D :=
  mkLayer openAutomatically
    (mkStatus ResourceUnavailable
       (if openAutomatically then "Layer closed"%string else "Layer disabled"%string))
    d.

(** [Layer::status] (lines 157-161) and [Layer::isOpen] (lines 151-155). *)
Definition Layer_status (l : Layer D) : Status := _status l.
Definition Layer_isOpen (l : Layer D) : bool := Status_ok (Layer_status l).

(** [Layer::setStatus] (lines 96-101). *)
Definition Layer_setStatus (s : Status) (l : Layer D) : Layer D :=
  mkLayer (_openAutomatically l) s (subclass l).

(** [Layer::open] (lines 109-126): the status returned and the layer
    afterwards. *)
Definition Layer_open (io : IOOptions) (l : Layer D) : Status * Layer D :=
  if Layer_isOpen l then (Layer_status l, l)
  else
    let l := Layer_setStatus Status_OK l in
    let '(s, l) := openImplementation io l in
    let l := Layer_setStatus s l in
    (Layer_status l, l).

(** [Layer::close] (lines 128-137). *)
Definition Layer_close (l : Layer D) : Layer D :=
  if Layer_isOpen l then
    let l := closeImplementation l in
    Layer_setStatus (mkStatus ResourceUnavailable "Layer closed"%string) l
  else l.

(** X13: the contract of [open] and [close], for every subclass.  A layer
    that was just constructed is not open.  [open] returns the status the
    layer ends with, and the layer is open afterwards exactly when that
    status is ok; on a layer that is open it changes nothing and returns
    the current status, so a second [open] after a successful one is a
    no-op.  After [close] a layer is not open; a layer that was open has the
    status ResourceUnavailable, "Layer closed", and [close] on a layer that
    is not open - just constructed, or after a failed [open] - changes
    nothing, neither the status nor what the subclass holds. *)
Theorem Layer_open_close_contract (io io' : IOOptions) (l : Layer D) (flag : bool) (d : D) :
  Layer_isOpen (Layer_construct flag d) = false
  /\ Layer_status (Layer_open io l).2 = (Layer_open io l).1
  /\ Layer_isOpen (Layer_open io l).2 = Status_ok (Layer_open io l).1
  /\ (Layer_isOpen (Layer_open io l).2 = true ->
      Layer_open io' (Layer_open io l).2 = Layer_open io l)
  /\ Layer_isOpen (Layer_close l) = false
  /\ (Layer_isOpen l = true ->
      Layer_status (Layer_close l) = mkStatus ResourceUnavailable "Layer closed"%string
      /\ code (Layer_status (Layer_close l)) = ResourceUnavailable)
  /\ (Layer_isOpen l = false -> Layer_close l = l)
  /\ Layer_close (Layer_construct flag d) = Layer_construct flag d
  /\ (Layer_isOpen (Layer_open io l).2 = false ->
      Layer_close (Layer_open io l).2 = (Layer_open io l).2)
  /\ Layer_close (Layer_close l) = Layer_close l.
Proof.
  assert (Hopen : Layer_status (Layer_open io l).2 = (Layer_open io l).1).
  { unfold Layer_open. destruct (Layer_isOpen l); [done|].
    by destruct (openImplementation io _). }
  assert (Hclosed : Layer_isOpen (Layer_close l) = false).
  { unfold Layer_close. by destruct (Layer_isOpen l) eqn:Hl. }
  assert (Hnoop : forall l' : Layer D, Layer_isOpen l' = false -> Layer_close l' = l').
  { intros l' Hl'. unfold Layer_close. by rewrite Hl'. }
  split; [done|]. split; [done|]. split; [by unfold Layer_isOpen; rewrite Hopen|].
  split; [|split; [done|split; [|split; [|split; [|split]]]]].
  - intros Hl. unfold Layer_open at 1. rewrite Hl, Hopen. by destruct (Layer_open io l).
  - intros Hl. unfold Layer_close. by rewrite Hl.
  - apply Hnoop.
  - by apply Hnoop.
  - apply Hnoop.
  - by apply Hnoop.
Qed.

End Methods.

(** ** The calls a subclass sees *)

(** A subclass that records the calls made to its virtual methods, and
    answers [openImplementation] as [answer] says from the token and the
    calls recorded so far. *)
Inductive LayerCall :=
| open_called (ok : bool)
| close_called.

Definition Layer_recording (answer : IOOptions -> list LayerCall -> Status)
  : LayerImplementation (list LayerCall) :=
  {| openImplementation := fun io l =>
       let s := answer io (subclass l) in
       (s, mkLayer (_openAutomatically l) (_status l)
             (subclass l ++ [open_called (Status_ok s)]));
     closeImplementation := fun l =>
       mkLayer (_openAutomatically l) (_status l) (subclass l ++ [close_called]) |}.

Inductive LayerOp :=
| op_open (io : IOOptions)
| op_close.

Definition Layer_run {D : Type} `{LayerImplementation D} (op : LayerOp) (l : Layer D)
  : Layer D :=
  match op with
  | op_open io => (Layer_open io l).2
  | op_close => Layer_close l
  end.

(** The calls a layer makes while it follows the protocol, and whether it
    is open after them: [openImplementation] is entered only when the layer
    is not open, [closeImplementation] only when it is. *)
Inductive Alternates : list LayerCall -> bool -> Prop :=
| alternates_nil : Alternates [] false
| alternates_opened calls :
    Alternates calls false -> Alternates (calls ++ [open_called true]) true
| alternates_failed calls :
    Alternates calls false -> Alternates (calls ++ [open_called false]) false
| alternates_closed calls :
    Alternates calls true -> Alternates (calls ++ [close_called]) false.

Lemma Layer_run_alternates (answer : IOOptions -> list LayerCall -> Status)
    (op : LayerOp) (l : Layer (list LayerCall)) :
  Alternates (subclass l) (Layer_isOpen l) ->
  Alternates (subclass (@Layer_run _ (Layer_recording answer) op l))
    (Layer_isOpen (@Layer_run _ (Layer_recording answer) op l)).
Proof.
  intros Hl. destruct op as [io|]; simpl.
  - unfold Layer_open. destruct (Layer_isOpen l) eqn:Hopen; simpl; [by rewrite Hopen|].
    unfold Layer_isOpen, Layer_status. simpl.
    destruct (Status_ok (answer io (subclass l))); by constructor.
  - unfold Layer_close. destruct (Layer_isOpen l) eqn:Hopen; simpl.
    + by apply alternates_closed.
    + by rewrite Hopen.
Qed.

(** X14: whatever sequence of [open] and [close] calls a layer receives
    after its construction, a subclass that leaves the status to the base
    class sees its virtual methods called in turn: [openImplementation] only
    while the layer is not open, [closeImplementation] only while it is
    open - never two successful opens without a close in between, never a
    close without a successful open before it - and the layer is open at the
    end exactly when the last call it made was an [openImplementation] that
    succeeded. *)
Theorem Layer_calls_alternate (answer : IOOptions -> list LayerCall -> Status)
    (flag : bool) (ops : list LayerOp) :
  let l := foldl (fun l op => @Layer_run _ (Layer_recording answer) op l)
             (@Layer_construct (list LayerCall) flag []) ops in
  Alternates (subclass l) (Layer_isOpen l).
Proof.
  simpl. induction ops as [|op ops IH] using rev_ind.
  - simpl. constructor.
  - rewrite foldl_app. simpl. by apply Layer_run_alternates.
Qed.

End LayerLifecycle.

(** * The GDAL elevation layer ([GDALElevationLayer.cpp]) *)

Section GDALElevation.
Context `{Collaborators}.

(** The GDAL driver as the layer uses it: the options the layer hands over,
    whether the dataset is open, the profile it found, and its two
    operations, which belong to [GDALLayers.cpp] and the GDAL library.  One
    driver stands for the driver of the calling thread. *)
Record GDALDriver := mkGDALDriver {
  driver_maxDataLevel : option N;
  driver_noDataValue : option float;
  driver_minValidValue : option float;
  driver_maxValidValue : option float;
  driver_isOpen : bool;
  driver_profile : Profile
}.

(** What the layer is configured with, and the profile and data extents it
    publishes once it is open. *)
Record GDALElevationLayer := mkGDALElevationLayer {
  gdal_maxDataLevel : option N;
  gdal_noDataValue : option float;
  gdal_minValidValue : option float;
  gdal_maxValidValue : option float;
  gdal_tileSize : N;
  gdal_profile : Profile;
  gdal_dataExtents : list GeoExtent;
  gdal_driver : GDALDriver
}.

(** [driver.open(name, layer, tileSize, out_dataExtents, io)] gives a
    status, the driver afterwards and the data extents it found;
    [driver.createImage(key, tileSize, io)] gives a result and the driver
    afterwards; [Heightfield::create(image)] reads a float image as a
    heightfield. *)
Record GDALBackend := mkGDALBackend {
  driver_open :
    GDALElevationLayer -> N -> IOOptions -> GDALDriver -> Status * GDALDriver * list GeoExtent;
  driver_createImage :
    GDALDriver -> TileKey -> N -> IOOptions -> Result (option Image) * GDALDriver;
  Heightfield_of_Image : Image -> Heightfield
}.

Variable backend : GDALBackend.

Definition override {A : Type} (layer_value driver_value : option A) : option A :=
  match layer_value with
  | Some a => Some a
  | None => driver_value
  end.

(** [openOnThisThread] (lines 21-55): the status, the driver afterwards,
    and what is stored through [profile] and [out_dataExtents] when they are
    not null ([wants_outputs]). *)
Definition openOnThisThread (layer : GDALElevationLayer) (driver : GDALDriver)
    (wants_outputs : bool) (io : IOOptions)
  : Status * GDALDriver * option Profile * option (list GeoExtent) :=
  let driver :=
    mkGDALDriver
      (override (gdal_maxDataLevel layer) (driver_maxDataLevel driver))
      (override (gdal_noDataValue layer) (driver_noDataValue driver))
      (override (gdal_minValidValue layer) (driver_minValidValue driver))
      (override (gdal_maxValidValue layer) (driver_maxValidValue driver))
      (driver_isOpen driver) (driver_profile driver) in
  let '(status, driver, extents) :=
    driver_open backend layer (gdal_tileSize layer) io driver in
  let extents := if wants_outputs then Some extents else None in
  if Status_failed status then (status, driver, None, extents)
  else
    (Status_OK, driver,
     (if profile_valid (driver_profile driver) && wants_outputs
      then Some (driver_profile driver) else None),
     extents).

(** Lines 151-157: the driver of this thread, opened if it was not. *)
Definition threadDriver (layer : GDALElevationLayer) (io : IOOptions) : GDALDriver :=
  let driver := gdal_driver layer in
  if negb (driver_isOpen driver)
  then (openOnThisThread layer driver false io).1.1.2
  else driver.

(** [GDALElevationLayer::createHeightfieldImplementation] (lines 145-178):
    the result and the driver of this thread afterwards. *)
Definition GDAL_createHeightfieldImplementation (layer_status : Status)
    (layer : GDALElevationLayer) (key0 : TileKey) (io : IOOptions)
  : outcome (Result GeoHeightfield * GDALDriver) :=
  if Status_failed layer_status then
    Ret (Result_error (code layer_status), gdal_driver layer)
  else
    let driver := threadDriver layer io in
    if driver_isOpen driver then
      let '(r, driver) := driver_createImage backend driver key0 (gdal_tileSize layer) io in
      if status_ok r then
        match value r with
        | None => Fault
        | Some image =>
            match pixelFormat image with
            | R32_SFLOAT =>
                Ret (Result_of (mkGeoHeightfield (Some (Heightfield_of_Image backend image))
                                  (TileKey_extent key0)), driver)
            | _ =>
                let! hf := decodeMapboxRGB (Some image) in
                Ret (Result_of (mkGeoHeightfield hf (TileKey_extent key0)), driver)
            end
        end
      else Ret (Result_error ResourceUnavailable, driver)
    else Ret (Result_error ResourceUnavailable, driver).

Lemma decodeMapboxRGB_returns (image : option Image) :
  exists hf, decodeMapboxRGB image = Ret hf.
Proof.
  destruct image as [image|]; [|by exists None].
  unfold decodeMapboxRGB. destruct (image_valid image); simpl; [|by exists None].
  destruct (decodeMapboxRGB_loop image) as (hf&Hrun&_). rewrite Hrun. simpl. by eexists.
Qed.

(** X15: what the GDAL elevation driver answers.  A layer whose status is
    failed answers with that status and leaves the driver alone.  Otherwise
    the driver of the thread is opened first if need be, and the answer is
    either an ok result that carries the extent of the key asked for - the
    driver was open and created an image - or ResourceUnavailable: when the
    dataset could not be opened, and when the driver failed to create the
    image, whatever status that failure had. *)
Theorem GDAL_createHeightfieldImplementation_results
    (layer_status : Status) (layer : GDALElevationLayer) (key0 : TileKey) (io : IOOptions)
    (r : Result GeoHeightfield) (driver : GDALDriver) :
  GDAL_createHeightfieldImplementation layer_status layer key0 io = Ret (r, driver) ->
  let opened := threadDriver layer io in
  let created := driver_createImage backend opened key0 (gdal_tileSize layer) io in
  (Status_failed layer_status = true ->
     r = Result_error (code layer_status) /\ driver = gdal_driver layer)
  /\ (Status_failed layer_status = false ->
      (status_ok r = true /\ extent (value r) = TileKey_extent key0
       /\ driver_isOpen opened = true /\ status_ok created.1 = true
       /\ driver = created.2)
      \/ (r = Result_error ResourceUnavailable
          /\ ((driver_isOpen opened = false /\ driver = opened)
              \/ (driver_isOpen opened = true /\ status_ok created.1 = false
                  /\ driver = created.2)))).
Proof.
  intros Hrun opened created. unfold GDAL_createHeightfieldImplementation in Hrun.
  destruct (Status_failed layer_status); [by inversion Hrun|].
  split; [done|]. intros _. fold opened in Hrun.
  destruct (driver_isOpen opened) eqn:Hopen.
  2: { inversion Hrun; subst. right. split; [done|by left]. }
  fold created in Hrun. destruct created as [res d]. simpl.
  destruct (status_ok res) eqn:Hok.
  2: { inversion Hrun; subst. right. split; [done|]. by right. }
  destruct (value res) as [image|]; [|done].
  destruct (decodeMapboxRGB_returns (Some image)) as (hf&Hhf).
  left. destruct (pixelFormat image); rewrite ?Hhf in Hrun; simpl in Hrun;
    inversion Hrun; subst; done.
Qed.

(** The driver's ok answer without an image is dereferenced by the test of
    the pixel format (line 165). *)
Lemma GDAL_createHeightfieldImplementation_null_image
    (layer_status : Status) (layer : GDALElevationLayer) (key0 : TileKey) (io : IOOptions) :
  Status_failed layer_status = false ->
  driver_isOpen (threadDriver layer io) = true ->
  status_ok (driver_createImage backend (threadDriver layer io) key0
               (gdal_tileSize layer) io).1 = true ->
  value (driver_createImage backend (threadDriver layer io) key0
           (gdal_tileSize layer) io).1 = None ->
  GDAL_createHeightfieldImplementation layer_status layer key0 io = Fault.
Proof.
  intros Hs Hopen Hok Hnull. unfold GDAL_createHeightfieldImplementation.
  rewrite Hs, Hopen.
  destruct (driver_createImage backend _ key0 _ io) as [res d]. simpl in *.
  by rewrite Hok, Hnull.
Qed.

End GDALElevation.

(** * The validity test of the GDAL driver ([GDALLayers.cpp]) *)

Lemma SFeqb_irreflexive_nan (x : spec_float) : SFeqb x x = false -> x = S754_nan.
Proof.
  unfold SFeqb. destruct x as [s|s| |s m e]; simpl; try done.
  - by destruct s.
  - rewrite Z.compare_refl. change (PosDef.Pos.compare_cont Eq m m) with (Pos.compare m m).
    rewrite Pos.compare_refl. by destruct s.
Qed.

Lemma is_nan_Prim2SF (v : float) : PrimFloat.is_nan v = true -> Prim2SF v = S754_nan.
Proof.
  unfold PrimFloat.is_nan. rewrite FloatAxioms.eqb_spec.
  intros Hv. apply SFeqb_irreflexive_nan. by destruct (SFeqb _ _).
Qed.

(** A NaN is neither equal to, nor below, nor above any float. *)
Lemma nan_compares_false (v a : float) :
  PrimFloat.is_nan v = true ->
  (a =? v)%float = false /\ (v <? a)%float = false /\ (a <? v)%float = false.
Proof.
  intros Hv%is_nan_Prim2SF.
  rewrite FloatAxioms.eqb_spec, !FloatAxioms.ltb_spec, Hv.
  unfold SFeqb, SFltb. simpl. by destruct (Prim2SF a).
Qed.

(** [GDAL::Driver::isValidValue] (lines 862-888); [band_noData] is what
    [band->GetNoDataValue] reports when it succeeds. *)
Definition GDAL_isValidValue (driver : GDALDriver) (band_noData : option float) (v : float)
  : bool :=
  let bandNoData :=
    match band_noData with
    | Some value => float_cast value
    | None => (-32767)%float
    end in
  if (bandNoData =? v)%float then false
  else if match driver_noDataValue driver with
          | Some nd => (nd =? v)%float
          | None => false
          end then false
  else if match driver_minValidValue driver with
          | Some lo => (v <? lo)%float
          | None => false
          end then false
  else if match driver_maxValidValue driver with
          | Some hi => (hi <? v)%float
          | None => false
          end then false
  else true.

(** X21: the GDAL driver's validity test lets a NaN sample through,
    whatever no-data values the band and the user declare and whatever the
    valid range is: every comparison it makes is false on a NaN.  The
    normalization of the elevation pipeline is what turns such a sample into
    NO_DATA_VALUE. *)
Theorem GDAL_isValidValue_accepts_nan `{Collaborators} (driver : GDALDriver)
    (band_noData : option float) (L : ElevationLayer) (v : float) :
  PrimFloat.is_nan v = true ->
  GDAL_isValidValue driver band_noData v = true
  /\ normalize_sample L v = NO_DATA_VALUE.
Proof.
  intros Hv. split.
  - unfold GDAL_isValidValue.
    destruct (nan_compares_false v
                (match band_noData with
                 | Some value => float_cast value
                 | None => (-32767)%float
                 end) Hv) as (->&_&_).
    destruct (driver_noDataValue driver) as [nd|];
      [destruct (nan_compares_false v nd Hv) as (->&_&_)|];
      (destruct (driver_minValidValue driver) as [lo|];
        [destruct (nan_compares_false v lo Hv) as (_&->&_)|]);
      (destruct (driver_maxValidValue driver) as [hi|];
        [destruct (nan_compares_false v hi Hv) as (_&_&->)|]); done.
  - unfold normalize_sample, is_no_data. by rewrite Hv.
Qed.

(** * The image layer ([ImageLayer.cpp]) *)

(** Modelled from the spec: a GeoImage "pairs a Raster with the GeoExtent it
    covers" ([GeoImage.h] is not part of the sources); the image pointer may
    be null, and the pair is valid when the extent is and the image is
    there. *)
Record GeoImage := mkGeoImage {
  geo_image : option Image;
  geo_extent : GeoExtent
}.

Definition GeoImage_INVALID : GeoImage := mkGeoImage None GeoExtent_INVALID.

Definition GeoImage_valid (g : GeoImage) : bool :=
  extent_valid (geo_extent g) && non_null (geo_image g).

(** An image layer: its state, the tile-layer queries and the driver. *)
Record ImageLayer := mkImageLayer {
  image_isOpen : bool;
  image_profile : Profile;
  image_isKeyInLegalRange : TileKey -> bool;
  mayHaveData : TileKey -> bool;
  createImageImplementation : TileKey -> IOOptions -> Result GeoImage
}.

(** The collaborators [ImageLayer.cpp] calls but does not define, besides
    those of the elevation layer: the level of the layer's profile that
    corresponds to a level of another profile, the keys of a profile that
    intersect an extent at a level, point sampling of a GeoImage (the pixel
    passed in and the pixel left behind, and whether the read succeeded),
    what a pixel reads back as once written to an R8G8B8A8_UNORM image, and
    the dependency cache. *)
Class ImageCollaborators := {
  getEquivalentLOD : Profile -> Profile -> nat -> Z;
  getIntersectingKeys_at : GeoExtent -> Z -> Profile -> list TileKey;
  GeoImage_read : GeoImage -> fvec4 -> float -> float -> bool * fvec4;
  unorm8 : fvec4 -> fvec4;
  DependencyCache : Type;
  cache_get : DependencyCache -> TileKey -> option Image;
  cache_put : DependencyCache -> TileKey -> option Image -> DependencyCache
}.

(** [v.assign(n, a)]: [n] copies of [a], all of them elements. *)
Definition vec_assign {A} (n : nat) (a : A) : vector A := mkVector n (replicate n a).

(** [v[i] = f(v[i])] through the unchecked [operator[]]. *)
Definition vec_update {A} (v : vector A) (i : nat) (f : A -> A) : outcome (vector A) :=
  let! a := vec_load v i in vec_store v i (f a).

Section ImagePipeline.
Context `{Collaborators} `{ImageCollaborators}.

(** Modelled from the spec: [CompositeImage::create(format, s, t)] gives a
    raster "of fixed width x height", and [write(pixel, c, r)] replaces the
    pixel of column c, row r ([Image.h] is not part of the sources). *)
Definition Image_create (format : PixelFormat) (s t : N) : Image :=
  mkImage true format s t (fun _ _ => mkfvec4 0 0 0 0).

Definition Image_write (img : Image) (pixel : fvec4) (c r : N) : Image :=
  mkImage (image_valid img) (pixelFormat img) (image_width img) (image_height img)
    (fun x y => if (x =? c)%N && (y =? r)%N then unorm8 pixel else image_read img x y).

(** The [CompositeImage] of lines 27-52: an image and the source images it
    keeps alive. *)
Record CompositeImage := mkCompositeImage {
  composite : Image;
  composite_dependencies : list (option Image)
}.

(** ** [ImageLayer::assembleImage] (lines 191-365) *)

(** Lines 207-217: the keys that intersect the key and each of its
    ancestors, while the level is above 0. *)
Definition parentKeys_guard (s : TileKey * list TileKey) : bool :=
  (0 <? levelOfDetail s.1)%nat.

Definition parentKeys_body (L : ImageLayer) (s : TileKey * list TileKey)
  : TileKey * list TileKey :=
  (makeParent s.1, s.2 ++ getIntersectingKeys s.1 (image_profile L)).

Definition parentKeys (L : ImageLayer) (key0 : TileKey) : list TileKey :=
  (while_fuel (levelOfDetail key0) parentKeys_guard (parentKeys_body L) (key0, [])).2.

(** Lines 225-248: for a key at level 0, the keys at the equivalent level of
    the layer's profile, or at the nearest level below it where a tile may
    have data. *)
Record LevelWalk := mkLevelWalk {
  walk_keys : list TileKey;
  numTilesThatMayHaveData : N;
  intersectionLOD : Z
}.

Definition levelWalk_guard (s : LevelWalk) : bool :=
  (numTilesThatMayHaveData s =? 0)%N && (0 <=? intersectionLOD s)%Z.

Definition levelWalk_body (L : ImageLayer) (key0 : TileKey) (s : LevelWalk) : LevelWalk :=
  let keys :=
    getIntersectingKeys_at (TileKey_extent key0) (intersectionLOD s) (image_profile L) in
  mkLevelWalk keys
    (foldl (fun n layerKey => if mayHaveData L layerKey then ((n + 1) mod uint32_mod)%N else n)
       (numTilesThatMayHaveData s) keys)
    (intersectionLOD s - 1).

Definition levelKeys (L : ImageLayer) (key0 : TileKey) : list TileKey :=
  let lod := getEquivalentLOD (image_profile L) (profile key0) (levelOfDetail key0) in
  walk_keys
    (while_fuel (Z.to_nat (lod + 1)) levelWalk_guard (levelWalk_body L key0)
       (mkLevelWalk [] 0 lod)).

Definition imageKeys (L : ImageLayer) (key0 : TileKey) : list TileKey :=
  if (0 <? levelOfDetail key0)%nat then parentKeys L key0 else levelKeys L key0.

(** Lines 254-273: the source of each intersecting key in the legal range,
    from the dependency cache or else from the driver. *)
Fixpoint collectImages (L : ImageLayer) (io : IOOptions) (keys : list TileKey)
    (cache : DependencyCache) (source_list : list GeoImage)
  : DependencyCache * list GeoImage :=
  match keys with
  | [] => (cache, source_list)
  | layerKey :: rest =>
      if image_isKeyInLegalRange L layerKey then
        match cache_get cache layerKey with
        | Some cached =>
            collectImages L io rest cache
              (source_list ++ [mkGeoImage (Some cached) (TileKey_extent layerKey)])
        | None =>
            let result := createImageImplementation L layerKey io in
            if status_ok result && GeoImage_valid (value result) then
              collectImages L io rest
                (cache_put cache layerKey (geo_image (value result)))
                (source_list ++ [value result])
            else collectImages L io rest cache source_list
        end
      else collectImages L io rest cache source_list
  end.

(** Lines 282-286; a source without an image is dereferenced. *)
Fixpoint maxImageSize (source_list : list GeoImage) (width height : N) : outcome (N * N) :=
  match source_list with
  | [] => Ret (width, height)
  | source :: rest =>
      match geo_image source with
      | None => Fault
      | Some img =>
          maxImageSize rest (N.max width (image_width img)) (N.max height (image_height img))
      end
  end.

(** Lines 339-350: the pixel of the first source whose read succeeds with
    an alpha above zero; each read works on the pixel the one before left. *)
Fixpoint samplePixel (source_list : list GeoImage) (x y : float) (pixel : fvec4) : fvec4 :=
  match source_list with
  | [] => pixel
  | source :: rest =>
      let '(ok, pixel) := GeoImage_read source pixel x y in
      if ok && (0 <? px_a pixel)%float then pixel else samplePixel rest x y pixel
  end.

(** Lines 312-321: the grid of sample points on the corners of the pixels. *)
Definition buildImageGrid (width height : N) (minx miny dx dy : float)
    (points : vector dvec3) : outcome (vector dvec3) :=
  for_upto height (fun r points =>
    let y := (miny + dy * double_of_unsigned r)%float in
    for_upto width (fun c points =>
      let x := (minx + dx * double_of_unsigned c)%float in
      let! points :=
        vec_update points (point_index width r c) (fun p => mkdvec3 x (vy p) (vz p)) in
      vec_update points (point_index width r c) (fun p => mkdvec3 (vx p) y (vz p))) points)
    points.

(** Lines 328-354: every pixel of the output is sampled and written. *)
Definition sampleImage (width height : N) (source_list : list GeoImage)
    (points : vector dvec3) (output : Image) : outcome Image :=
  for_upto height (fun r output =>
    for_upto width (fun c output =>
      let! p := vec_load points (point_index width r c) in
      let pixel := samplePixel source_list (vx p) (vy p) (mkfvec4 0 0 0 0) in
      Ret (Image_write output pixel c r)) output) output.

(** Lines 276-355, taken when a source was collected. *)
Definition buildImageMosaic (key0 : TileKey) (source_list : list GeoImage)
  : outcome CompositeImage :=
  let! size := maxImageSize source_list 0%N 0%N in
  let '(width, height) := size in
  match source_list with
  | [] => Fault
  | source0 :: _ =>
      let keyExtent := TileKey_extent key0 in
      let xform := SRS_to (extent_srs keyExtent) (extent_srs (geo_extent source0)) in
      let output := Image_create R8G8B8A8_UNORM width height in
      let deps := map geo_image source_list in
      let points :=
        vec_assign (N.to_nat ((width * height) mod uint32_mod)) (mkdvec3 0 0 0) in
      let dx := ((xMax keyExtent - xMin keyExtent)
                 / double_of_unsigned (unsigned_sub width 1))%float in
      let dy := ((yMax keyExtent - yMin keyExtent)
                 / double_of_unsigned (unsigned_sub height 1))%float in
      let! points := buildImageGrid width height (xMin keyExtent) (yMin keyExtent) dx dy points in
      let points :=
        if operation_valid xform then vec_foreach (transform xform) points else points in
      let! output := sampleImage width height source_list points output in
      Ret (mkCompositeImage output deps)
  end.

Definition assembleImage (L : ImageLayer) (key0 : TileKey) (io : IOOptions)
    (cache : DependencyCache) : outcome (option CompositeImage * DependencyCache) :=
  let intersectingKeys := imageKeys L key0 in
  let '(cache, source_list) := collectImages L io intersectingKeys cache [] in
  let! output :=
    (if empty source_list then Ret None
     else let! m := buildImageMosaic key0 source_list in Ret (Some m)) in
  Ret (if canceled io then None else output, cache).

(** ** [ImageLayer::createImageInKeyProfile] (lines 143-189) and
    [ImageLayer::createImage] (lines 96-134) *)

Definition createImageInKeyProfile (L : ImageLayer) (key0 : TileKey) (io : IOOptions)
    (cache : DependencyCache) : outcome (Result GeoImage * DependencyCache) :=
  if negb (image_isOpen L) then Ret (mkResult NoError GeoImage_INVALID, cache)
  else if negb (image_isKeyInLegalRange L key0) then
    Ret (mkResult NoError GeoImage_INVALID, cache)
  else if negb (profile_valid (image_profile L)) then
    Ret (createImageImplementation L key0 io, cache)
  else if Profile_eqb (profile key0) (image_profile L) then
    Ret (createImageImplementation L key0 io, cache)
  else
    let! assembled := assembleImage L key0 io cache in
    Ret (mkResult NoError
           (mkGeoImage (option_map composite assembled.1) (TileKey_extent key0)),
         assembled.2).

Definition createImage (L : ImageLayer) (key0 : TileKey) (io : IOOptions)
    (cache : DependencyCache) : outcome (Result GeoImage * DependencyCache) :=
  if negb (image_isOpen L) then Ret (mkResult NoError GeoImage_INVALID, cache)
  else createImageInKeyProfile L key0 io cache.

End ImagePipeline.

Section ImageResults.
Context `{Collaborators} `{ImageCollaborators}.

(** ** The keys the image assembler collects *)

(** A key and its ancestors, [n] keys in all. *)
Fixpoint ancestors (n : nat) (k : TileKey) : list TileKey :=
  match n with
  | O => []
  | S n' => k :: ancestors n' (makeParent k)
  end.

Lemma ancestors_levels (n : nat) (k : TileKey) :
  levelOfDetail k = n -> map levelOfDetail (ancestors n k) = reverse (seq 1 n).
Proof.
  revert k. induction n as [|n IH]; intros k Hk; [done|].
  cbn [ancestors map]. rewrite seq_S, reverse_app. simpl. rewrite Hk. f_equal.
  apply IH. unfold makeParent. by rewrite Hk.
Qed.

Lemma parentKeys_loop (L : ImageLayer) (n : nat) (k : TileKey) (acc : list TileKey) :
  levelOfDetail k = n ->
  (while_fuel n parentKeys_guard (parentKeys_body L) (k, acc)).2
  = acc ++ concat (map (fun a => getIntersectingKeys a (image_profile L)) (ancestors n k)).
Proof.
  revert k acc. induction n as [|n IH]; intros k acc Hk; simpl.
  - by rewrite app_nil_r.
  - unfold parentKeys_guard at 1. simpl. rewrite Hk. simpl.
    unfold parentKeys_body at 2. simpl. rewrite IH.
    + by rewrite <- app_assoc.
    + unfold makeParent. by rewrite Hk.
Qed.

(** X16: for a key above level 0 the image assembler gathers the keys that
    intersect the key itself and each of its ancestors, the finest level
    first, and stops before level 0: with the key at level n, the levels
    visited are n, n - 1, ..., 1, and the ancestor at level 0 is never asked
    for its intersecting keys. *)
Theorem imageKeys_from_ancestors (L : ImageLayer) (key0 : TileKey) :
  0 < levelOfDetail key0 ->
  imageKeys L key0
  = concat (map (fun a => getIntersectingKeys a (image_profile L))
              (ancestors (levelOfDetail key0) key0))
  /\ map levelOfDetail (ancestors (levelOfDetail key0) key0)
     = reverse (seq 1 (levelOfDetail key0)).
Proof.
  intros Hlevel. split; [|by apply ancestors_levels].
  unfold imageKeys. destruct (Nat.ltb_spec 0 (levelOfDetail key0)); [|lia].
  unfold parentKeys. by rewrite parentKeys_loop.
Qed.

(** ** The status of the image pipeline *)

(** X17: the image pipeline has no error of its own.  A closed layer and a
    key outside the legal range get the non-error INVALID result and leave
    the cache alone.  A layer whose profile is invalid is not refused, as an
    elevation layer is: like a key of the layer's own profile, the request
    goes to the driver and the driver's result comes back as it is, so a
    failed status is always the driver's.  A key of another profile gets an
    ok result that carries the key's extent, also when no image could be
    assembled. *)
Theorem createImageInKeyProfile_status (L : ImageLayer) (key0 : TileKey) (io : IOOptions)
    (cache cache' : DependencyCache) (r : Result GeoImage) :
  createImageInKeyProfile L key0 io cache = Ret (r, cache') ->
  (image_isOpen L = false \/ image_isKeyInLegalRange L key0 = false ->
     r = mkResult NoError GeoImage_INVALID /\ cache' = cache)
  /\ (image_isOpen L = true -> image_isKeyInLegalRange L key0 = true ->
      profile_valid (image_profile L) = false
      \/ Profile_eqb (profile key0) (image_profile L) = true ->
      r = createImageImplementation L key0 io /\ cache' = cache)
  /\ (image_isOpen L = true -> image_isKeyInLegalRange L key0 = true ->
      profile_valid (image_profile L) = true ->
      Profile_eqb (profile key0) (image_profile L) = false ->
      status_ok r = true /\ geo_extent (value r) = TileKey_extent key0)
  /\ (status_ok r = false -> r = createImageImplementation L key0 io).
Proof.
  unfold createImageInKeyProfile. intros Hrun.
  destruct (image_isOpen L); simpl in Hrun;
    [|by inversion Hrun; subst; naive_solver].
  destruct (image_isKeyInLegalRange L key0); simpl in Hrun;
    [|by inversion Hrun; subst; naive_solver].
  destruct (profile_valid (image_profile L)); simpl in Hrun;
    [|by inversion Hrun; subst; naive_solver].
  destruct (Profile_eqb (profile key0) (image_profile L));
    [by inversion Hrun; subst; naive_solver|].
  destruct (assembleImage L key0 io cache) as [|[image cache1]]; simpl in Hrun; [done|].
  inversion Hrun; subst. simpl. naive_solver.
Qed.

End ImageResults.

(** ** The image mosaic samples every pixel *)

Lemma vec_foreach_full {A : Type} (f : A -> A) (v : vector A) :
  vec_size v = length (vec_storage v) ->
  vec_foreach f v = mkVector (vec_size v) (map f (vec_storage v)).
Proof.
  intros Hsize. unfold vec_foreach.
  by rewrite Hsize, firstn_all, drop_all, app_nil_r.
Qed.

Section ImageMosaic.
Context `{Collaborators} `{ImageCollaborators}.
Variables (key0 : TileKey) (source_list : list GeoImage) (width height : N).
Hypothesis size_fits : (width * height < uint32_mod)%N.

Let keyExtent := TileKey_extent key0.
Let dx := ((xMax keyExtent - xMin keyExtent)
           / double_of_unsigned (unsigned_sub width 1))%float.
Let dy := ((yMax keyExtent - yMin keyExtent)
           / double_of_unsigned (unsigned_sub height 1))%float.

(** The sample point of the pixel of column [c], row [r] in the key's SRS,
    and in the SRS of the first source. *)
Definition gridPoint (c r : N) : dvec3 :=
  mkdvec3 (xMin keyExtent + dx * double_of_unsigned c)
    (yMin keyExtent + dy * double_of_unsigned r) 0.

Definition imagePoint (c r : N) : dvec3 :=
  match source_list with
  | [] => gridPoint c r
  | source0 :: _ =>
      let xform := SRS_to (extent_srs keyExtent) (extent_srs (geo_extent source0)) in
      if operation_valid xform then transform xform (gridPoint c r) else gridPoint c r
  end.

Definition gridded (rows_done cols_done : nat) (points : vector dvec3) : Prop :=
  vec_size points = N.to_nat (width * height)
  /\ length (vec_storage points) = N.to_nat (width * height)
  /\ (forall i p, vec_storage points !! i = Some p -> vz p = 0%float)
  /\ forall c r : nat,
       c < N.to_nat width ->
       r < rows_done \/ (r = rows_done /\ c < cols_done) ->
       vec_storage points !! (r * N.to_nat width + c)
       = Some (gridPoint (N.of_nat c) (N.of_nat r)).

Lemma buildImageGrid_gridded :
  exists points,
    buildImageGrid width height (xMin keyExtent) (yMin keyExtent) dx dy
      (vec_assign (N.to_nat ((width * height) mod uint32_mod)) (mkdvec3 0 0 0)) = Ret points
    /\ gridded (N.to_nat height) 0 points.
Proof using size_fits.
  set (w := N.to_nat width). set (h := N.to_nat height).
  rewrite N.mod_small by done. unfold buildImageGrid, for_upto.
  destruct (for_each_seq_total (fun r points => gridded r 0 points)
              (fun r points =>
                 for_each (seq 0 (N.to_nat width))
                   (fun c points =>
                      let! points :=
                        vec_update points (point_index width (N.of_nat r) (N.of_nat c))
                          (fun p => mkdvec3
                             (xMin keyExtent + dx * double_of_unsigned (N.of_nat c))
                             (vy p) (vz p)) in
                      vec_update points (point_index width (N.of_nat r) (N.of_nat c))
                        (fun p => mkdvec3 (vx p)
                           (yMin keyExtent + dy * double_of_unsigned (N.of_nat r))
                           (vz p))) points)
              h 0)
    with (s := vec_assign (N.to_nat (width * height)) (mkdvec3 0 0 0))
    as (points&Hrun&Hdone).
  - intros r v0 Hr Hrows.
    destruct (for_each_seq_total (fun c points => gridded r c points)
                (fun c points =>
                   let! points :=
                     vec_update points (point_index width (N.of_nat r) (N.of_nat c))
                       (fun p => mkdvec3
                          (xMin keyExtent + dx * double_of_unsigned (N.of_nat c))
                          (vy p) (vz p)) in
                   vec_update points (point_index width (N.of_nat r) (N.of_nat c))
                     (fun p => mkdvec3 (vx p)
                        (yMin keyExtent + dy * double_of_unsigned (N.of_nat r))
                        (vz p)))
                w 0) with (s := v0) as (v1&Hrun1&Hrow).
    + intros c v Hc (Hsz&Hlen&Hz&Hcells).
      rewrite (point_index_nat width height size_fits) by (fold w h; lia). fold w.
      set (idx := r * w + c).
      assert (Hidx : idx < length (vec_storage v)) by (rewrite Hlen; subst idx w h; nia).
      destruct (lookup_lt_is_Some_2 _ _ Hidx) as [p Hp].
      unfold vec_update, vec_load, vec_store. rewrite Hp. simpl.
      destruct (decide _) as [_|Hno]; [|done]. simpl.
      rewrite list_lookup_insert_eq by done. simpl.
      rewrite length_insert. destruct (decide _) as [_|Hno]; [|done].
      eexists. split; [done|]. unfold gridded. simpl.
      rewrite list_insert_insert_eq, length_insert.
      split; [done|]. split; [done|]. split.
      * intros i q Hq. destruct (decide (i = idx)) as [->|Hne].
        -- rewrite list_lookup_insert_eq in Hq by done. inversion Hq; subst. simpl.
           by eapply Hz.
        -- rewrite list_lookup_insert_ne in Hq by done. by eapply Hz.
      * intros c' r' Hc' Hpos.
        destruct (decide (r' * w + c' = idx)) as [Heq|Hne].
        -- assert (r' = r /\ c' = c) as [-> ->] by (subst idx; nia).
           rewrite list_lookup_insert_eq by done. unfold gridPoint. f_equal. f_equal.
           by eapply Hz.
        -- rewrite list_lookup_insert_ne by done. apply Hcells; [done|].
           destruct Hpos as [?|[-> ?]]; [by left|]. right. split; [done|].
           assert (c' <> c) by (intros ->; done). lia.
    + done.
    + exists v1. split; [exact Hrun1|].
      destruct Hrow as (Hsz&Hlen&Hz&Hcells).
      split; [done|]. split; [done|]. split; [done|].
      intros c' r' Hc' Hpos. apply Hcells; [done|]. simpl. fold w. lia.
  - unfold gridded, vec_assign. simpl. rewrite length_replicate.
    split; [done|]. split; [done|]. split; [|intros; lia].
    intros i p Hp. apply lookup_replicate in Hp as [-> _]. done.
  - exists points. split; [exact Hrun|]. done.
Qed.

Definition sampled (rows_done cols_done : nat) (output : Image) : Prop :=
  image_width output = width /\ image_height output = height
  /\ forall c r : nat,
       c < N.to_nat width ->
       r < rows_done \/ (r = rows_done /\ c < cols_done) ->
       image_read output (N.of_nat c) (N.of_nat r)
       = unorm8 (samplePixel source_list
                   (vx (imagePoint (N.of_nat c) (N.of_nat r)))
                   (vy (imagePoint (N.of_nat c) (N.of_nat r)))
                   (mkfvec4 0 0 0 0)).

Lemma sampleImage_sampled (points : vector dvec3) :
  (forall c r : nat, c < N.to_nat width -> r < N.to_nat height ->
     vec_storage points !! (r * N.to_nat width + c)
     = Some (imagePoint (N.of_nat c) (N.of_nat r))) ->
  exists output,
    sampleImage width height source_list points
      (Image_create R8G8B8A8_UNORM width height) = Ret output
    /\ sampled (N.to_nat height) 0 output.
Proof using size_fits.
  intros Hpoints.
  set (w := N.to_nat width). set (h := N.to_nat height).
  unfold sampleImage, for_upto.
  destruct (for_each_seq_total (fun r output => sampled r 0 output)
              (fun r output =>
                 for_each (seq 0 (N.to_nat width))
                   (fun c output =>
                      let! p := vec_load points (point_index width (N.of_nat r) (N.of_nat c)) in
                      Ret (Image_write output
                             (samplePixel source_list (vx p) (vy p) (mkfvec4 0 0 0 0))
                             (N.of_nat c) (N.of_nat r))) output)
              h 0)
    with (s := Image_create R8G8B8A8_UNORM width height) as (output&Hrun&Hdone).
  - intros r o0 Hr Hrows.
    destruct (for_each_seq_total (fun c output => sampled r c output)
                (fun c output =>
                   let! p := vec_load points (point_index width (N.of_nat r) (N.of_nat c)) in
                   Ret (Image_write output
                          (samplePixel source_list (vx p) (vy p) (mkfvec4 0 0 0 0))
                          (N.of_nat c) (N.of_nat r)))
                w 0) with (s := o0) as (o1&Hrun1&Hrow).
    + intros c o Hc (Hw&Hh&Hcells).
      rewrite (point_index_nat width height size_fits) by (fold w h; lia). fold w.
      unfold vec_load. rewrite Hpoints by (fold w h; lia). simpl.
      eexists. split; [done|]. unfold sampled, Image_write. simpl.
      split; [done|]. split; [done|].
      intros c' r' Hc' Hpos.
      destruct (N.eqb_spec (N.of_nat c') (N.of_nat c)) as [Hcc|Hcc],
        (N.eqb_spec (N.of_nat r') (N.of_nat r)) as [Hrr|Hrr]; simpl.
      * apply Nat2N.inj in Hcc, Hrr. by subst.
      * apply Hcells; [done|]. destruct Hpos as [?|[-> ?]]; [by left|done].
      * apply Hcells; [done|]. destruct Hpos as [?|[-> ?]]; [by left|].
        right. split; [done|]. assert (c' <> c) by (intros ->; done). lia.
      * apply Hcells; [done|]. destruct Hpos as [?|[-> ?]]; [by left|done].
    + done.
    + exists o1. split; [exact Hrun1|].
      destruct Hrow as (Hw&Hh&Hcells). split; [done|]. split; [done|].
      intros c' r' Hc' Hpos. apply Hcells; [done|]. simpl. fold w. lia.
  - unfold sampled, Image_create. simpl. split; [done|]. split; [done|]. intros; lia.
  - exists output. split; [exact Hrun|]. done.
Qed.

Lemma buildImageMosaic_samples_every_pixel :
  source_list <> [] ->
  maxImageSize source_list 0 0 = Ret (width, height) ->
  exists out,
    buildImageMosaic key0 source_list = Ret out
    /\ image_width (composite out) = width /\ image_height (composite out) = height
    /\ composite_dependencies out = map geo_image source_list
    /\ forall c r : N,
         (c < width)%N -> (r < height)%N ->
         image_read (composite out) c r
         = unorm8 (samplePixel source_list (vx (imagePoint c r)) (vy (imagePoint c r))
                     (mkfvec4 0 0 0 0)).
Proof using size_fits.
  intros Hne Hsize. unfold buildImageMosaic. rewrite Hsize. simpl.
  destruct source_list as [|source0 rest] eqn:Hsrc; [done|]. rewrite <- Hsrc in *.
  fold keyExtent. fold dx dy.
  destruct buildImageGrid_gridded as (points&Hgrid&Hsz&Hlen&Hz&Hcells).
  rewrite Hgrid. simpl.
  set (xform := SRS_to (extent_srs keyExtent) (extent_srs (geo_extent source0))).
  destruct (sampleImage_sampled
              (if operation_valid xform then vec_foreach (transform xform) points else points))
    as (output&Hsample&Hw&Hh&Hpixels).
  { intros c r Hc Hr. unfold imagePoint. rewrite Hsrc. fold xform.
    destruct (operation_valid xform).
    - rewrite vec_foreach_full by congruence. simpl.
      rewrite list_lookup_fmap, Hcells by lia. done.
    - apply Hcells; lia. }
  rewrite Hsample. simpl. eexists. split; [done|]. simpl.
  split; [done|]. split; [done|]. split; [done|].
  intros c r Hc Hr.
  specialize (Hpixels (N.to_nat c) (N.to_nat r)). rewrite !N2Nat.id in Hpixels.
  apply Hpixels; lia.
Qed.

End ImageMosaic.

Section ImageAssembler.
Context `{Collaborators} `{ImageCollaborators}.

Lemma collectImages_have_images (L : ImageLayer) (io : IOOptions) (keys : list TileKey)
    (cache : DependencyCache) (acc : list GeoImage) :
  (forall s, s ∈ acc -> geo_image s <> None) ->
  forall s, s ∈ (collectImages L io keys cache acc).2 -> geo_image s <> None.
Proof.
  revert cache acc. induction keys as [|k keys IH]; intros cache acc Hacc; simpl; [done|].
  destruct (image_isKeyInLegalRange L k); [|by apply IH].
  destruct (cache_get cache k) as [cached|].
  - apply IH. intros s Hs. apply elem_of_app in Hs as [Hs|Hs]; [by apply Hacc|].
    apply list_elem_of_singleton in Hs. by subst s.
  - destruct (status_ok _ && GeoImage_valid _) eqn:Hvalid; [|by apply IH].
    apply IH. intros s Hs. apply elem_of_app in Hs as [Hs|Hs]; [by apply Hacc|].
    apply list_elem_of_singleton in Hs. subst s.
    apply andb_prop in Hvalid as [_ Hvalid]. unfold GeoImage_valid in Hvalid.
    apply andb_prop in Hvalid as [_ Hvalid]. by destruct (geo_image _).
Qed.

Lemma maxImageSize_returns (source_list : list GeoImage) (w0 h0 : N) :
  (forall s, s ∈ source_list -> geo_image s <> None) ->
  exists w h, maxImageSize source_list w0 h0 = Ret (w, h).
Proof.
  revert w0 h0. induction source_list as [|s rest IH]; intros w0 h0 Hall; simpl.
  - by exists w0, h0.
  - destruct (geo_image s) as [img|] eqn:Himg.
    + apply IH. intros s' Hs'. apply Hall. by right.
    + exfalso. apply (Hall s); [left|done].
Qed.

(** X18: the image assembler builds a mosaic from whatever sources it
    collected, fallback tiles of coarser levels included, and samples every
    pixel of it.  Every collected source has an image, so the size of the
    mosaic - the largest source width and height - is always computed; and
    when the call is not canceled and the mosaic has fewer than 2^32 pixels,
    the pixel of column c, row r is the sample at the grid point of (c, r),
    transformed to the SRS of the first source, of the first source in
    collection order whose read succeeds with an alpha above zero. *)
Theorem assembleImage_samples_every_pixel (L : ImageLayer) (key0 : TileKey)
    (io : IOOptions) (cache cache' : DependencyCache) (source_list : list GeoImage) :
  collectImages L io (imageKeys L key0) cache [] = (cache', source_list) ->
  source_list <> [] ->
  canceled io = false ->
  exists width height,
    maxImageSize source_list 0 0 = Ret (width, height)
    /\ ((width * height < uint32_mod)%N ->
        exists out,
          assembleImage L key0 io cache = Ret (Some out, cache')
          /\ image_width (composite out) = width
          /\ image_height (composite out) = height
          /\ composite_dependencies out = map geo_image source_list
          /\ forall c r : N,
               (c < width)%N -> (r < height)%N ->
               image_read (composite out) c r
               = unorm8 (samplePixel source_list
                           (vx (imagePoint key0 source_list width height c r))
                           (vy (imagePoint key0 source_list width height c r))
                           (mkfvec4 0 0 0 0))).
Proof.
  intros Hcollect Hne Hc.
  destruct (maxImageSize_returns source_list 0 0) as (width&height&Hsize).
  { pose proof (collectImages_have_images L io (imageKeys L key0) cache []) as Himg.
    rewrite Hcollect in Himg. apply Himg. intros s Hs. by apply elem_of_nil in Hs. }
  exists width, height. split; [done|]. intros Hfits.
  destruct (buildImageMosaic_samples_every_pixel key0 source_list width height Hfits Hne Hsize)
    as (out&Hbuild&Hw&Hh&Hdeps&Hpixels).
  exists out. unfold assembleImage. rewrite Hcollect.
  destruct source_list as [|s0 rest] eqn:Hsrc; [done|]. rewrite <- Hsrc in *.
  assert (Hempty : empty source_list = false) by (by rewrite Hsrc).
  rewrite Hempty, Hbuild. simpl. rewrite Hc. done.
Qed.

(** ** The keys for a key at level 0 *)

Definition keysAt (L : ImageLayer) (key0 : TileKey) (lod : Z) : list TileKey :=
  getIntersectingKeys_at (TileKey_extent key0) lod (image_profile L).

Definition noData (L : ImageLayer) (keys : list TileKey) : Prop :=
  forall k, k ∈ keys -> mayHaveData L k = false.

Lemma count_mayHaveData (L : ImageLayer) (keys : list TileKey) (n : N) :
  (n + N.of_nat (length keys) < uint32_mod)%N ->
  (n <= foldl (fun n layerKey => if mayHaveData L layerKey then ((n + 1) mod uint32_mod)%N else n)
          n keys)%N
  /\ (foldl (fun n layerKey => if mayHaveData L layerKey then ((n + 1) mod uint32_mod)%N else n)
        n keys = n <-> noData L keys).
Proof.
  revert n. induction keys as [|k keys IH]; intros n Hn; simpl.
  - split; [lia|]. split; [|done]. intros _ k Hk. by apply elem_of_nil in Hk.
  - simpl in Hn. destruct (mayHaveData L k) eqn:Hk.
    + rewrite N.mod_small by lia.
      destruct (IH (n + 1)%N) as [Hle Hiff]; [lia|]. split; [lia|].
      split; [lia|]. intros Hno. specialize (Hno k). rewrite Hk in Hno.
      discriminate Hno. left.
    + destruct (IH n) as [Hle Hiff]; [lia|]. split; [done|].
      rewrite Hiff. split.
      * intros Hno k' Hk'. apply elem_of_cons in Hk' as [->|Hk']; [done|by apply Hno].
      * intros Hno k' Hk'. apply Hno. by right.
Qed.

Lemma levelWalk_loop (L : ImageLayer) (key0 : TileKey) (fuel : nat) (lod : Z)
    (keys : list TileKey) :
  (forall l, N.of_nat (length (keysAt L key0 l)) < uint32_mod)%N ->
  (0 <= lod)%Z -> Z.to_nat (lod + 1) <= fuel ->
  exists l,
    (0 <= l <= lod)%Z
    /\ walk_keys (while_fuel fuel levelWalk_guard (levelWalk_body L key0)
                    (mkLevelWalk keys 0 lod)) = keysAt L key0 l
    /\ (l = 0%Z \/ ~ noData L (keysAt L key0 l))
    /\ forall l', (l < l' <= lod)%Z -> noData L (keysAt L key0 l').
Proof.
  intros Hshort. revert lod keys.
  induction fuel as [|fuel IH]; intros lod keys Hlod Hfuel; [lia|].
  cbn [while_fuel]. unfold levelWalk_guard at 1. simpl.
  destruct (Z.leb_spec 0 lod); [|lia]. simpl.
  unfold levelWalk_body at 2. simpl. fold (keysAt L key0 lod).
  destruct (count_mayHaveData L (keysAt L key0 lod) 0) as [_ Hcount].
  { specialize (Hshort lod). lia. }
  set (n := foldl _ 0%N (keysAt L key0 lod)) in *.
  destruct (N.eqb_spec n 0) as [Hzero|Hsome].
  - rewrite Hzero. apply Hcount in Hzero.
    destruct (Z.eq_dec lod 0%Z) as [->|Hpos].
    + exists 0%Z. split; [lia|]. split.
      * destruct fuel as [|fuel']; [done|]. cbn [while_fuel].
        unfold levelWalk_guard. simpl. done.
      * split; [by left|]. intros; lia.
    + destruct (IH (lod - 1)%Z (keysAt L key0 lod)) as (l&Hl&Hkeys&Hdata&Habove); [lia|lia|].
      exists l. split; [lia|]. split; [done|]. split; [done|].
      intros l' Hl'. destruct (Z.eq_dec l' lod) as [->|Hne]; [done|].
      apply Habove. lia.
  - exists lod. split; [lia|]. split.
    + destruct fuel as [|fuel']; [done|]. cbn [while_fuel].
      unfold levelWalk_guard. simpl. destruct (N.eqb_spec n 0); [done|]. done.
    + split; [|intros; lia]. right. intros Hno. by apply Hcount in Hno.
Qed.

(** X19: for a key at level 0 the image assembler starts at the level of
    its profile that corresponds to the key and steps down while no
    intersecting tile may have data.  With fewer than 2^32 intersecting keys
    at every level, the loop ends with the keys of the highest level, not
    above the equivalent level, at which some tile may have data, or with
    those of level 0 when there is none; and with none at all when the
    equivalent level is negative. *)
Theorem imageKeys_at_level_zero (L : ImageLayer) (key0 : TileKey) :
  levelOfDetail key0 = 0 ->
  (forall l, N.of_nat (length (keysAt L key0 l)) < uint32_mod)%N ->
  let lod := getEquivalentLOD (image_profile L) (profile key0) (levelOfDetail key0) in
  ((lod < 0)%Z -> imageKeys L key0 = [])
  /\ ((0 <= lod)%Z ->
      exists l,
        (0 <= l <= lod)%Z
        /\ imageKeys L key0 = keysAt L key0 l
        /\ (l = 0%Z \/ ~ noData L (keysAt L key0 l))
        /\ forall l', (l < l' <= lod)%Z -> noData L (keysAt L key0 l')).
Proof.
  intros Hlevel Hshort lod. subst lod. unfold imageKeys, levelKeys.
  rewrite Hlevel. simpl.
  set (lod := getEquivalentLOD (image_profile L) (profile key0) 0). split.
  - intros Hneg. replace (Z.to_nat (lod + 1)) with 0 by lia. done.
  - intros Hlod. by apply levelWalk_loop.
Qed.

End ImageAssembler.

(** ** The fallback walks find the nearest ancestor with data *)

(** The key [n] levels up. *)
Definition ancestor (n : nat) (k : TileKey) : TileKey := Nat.iter n makeParent k.

Lemma ancestor_parent (n : nat) (k : TileKey) :
  ancestor (S n) k = ancestor n (makeParent k).
Proof. unfold ancestor. apply Nat.iter_succ_r. Qed.

Section SubTileWalkResult.
Variables (L : ElevationLayer) (io : IOOptions).
Hypothesis not_canceled : canceled io = false.

(** What a walk over the ancestors of [k] ends with: it stopped [n] levels
    up, every key below had been fetched in vain, and either the fetch at
    that key succeeded or that key is not valid. *)
Definition nearestSource (k : TileKey) (w : SubTileWalk) : Prop :=
  exists n,
    subKey w = ancestor n k
    /\ walk_returned w = false
    /\ (forall m, m < n ->
          TileKey_valid (ancestor m k) = true
          /\ status_ok (createHeightfieldImplementation_internal L (ancestor m k) io) = false)
    /\ ((TileKey_valid (ancestor n k) = true
         /\ subTile w = createHeightfieldImplementation_internal L (ancestor n k) io
         /\ status_ok (subTile w) = true)
        \/ (TileKey_valid (ancestor n k) = false /\ status_ok (subTile w) = false)).

Lemma subTile_walk_loop (fuel : nat) (k : TileKey) (t : Result GeoHeightfield) :
  (TileKey_valid k = true -> levelOfDetail k < fuel) ->
  status_ok t = false ->
  nearestSource k
    (while_fuel fuel subTile_guard (subTile_body L io) (mkSubTileWalk k t false)).
Proof using not_canceled.
  revert k t. induction fuel as [|fuel IH]; intros k t Hfuel Ht.
  - exists 0. simpl. split; [done|]. split; [done|]. split; [intros; lia|].
    right. split; [|done]. destruct (TileKey_valid k); [|done].
    specialize (Hfuel eq_refl). lia.
  - cbn [while_fuel]. unfold subTile_guard at 1. simpl. rewrite Ht. simpl.
    rewrite andb_true_r.
    destruct (TileKey_valid k) eqn:Hvalid.
    2: { exists 0. simpl. split; [done|]. split; [done|]. split; [intros; lia|].
         right. by split. }
    unfold subTile_body at 2. simpl. rewrite not_canceled. unfold status_failed.
    destruct (status_ok (createHeightfieldImplementation_internal L k io)) eqn:Hok; simpl.
    + exists 0. simpl.
      assert (Hstop : while_fuel fuel subTile_guard (subTile_body L io)
                (mkSubTileWalk k (createHeightfieldImplementation_internal L k io) false)
              = mkSubTileWalk k (createHeightfieldImplementation_internal L k io) false).
      { destruct fuel as [|fuel']; [done|]. cbn [while_fuel].
        unfold subTile_guard. simpl. by rewrite Hok, andb_false_r. }
      rewrite Hstop. simpl. split; [done|]. split; [done|]. split; [intros; lia|].
      left. by rewrite Hvalid.
    + destruct (IH (makeParent k) (createHeightfieldImplementation_internal L k io))
        as (n&Hkey&Hret&Hbelow&Hend); [|done|].
      { intros Hp. apply makeParent_level in Hp. specialize (Hfuel eq_refl). lia. }
      exists (S n). rewrite !ancestor_parent. split; [done|]. split; [done|]. split; [|done].
      intros m Hm. destruct m as [|m]; [by simpl|].
      rewrite ancestor_parent. apply Hbelow. lia.
Qed.

End SubTileWalkResult.

(** X23: in a call that is not canceled, the walk the assembler makes for an
    intersecting key ends on the nearest ancestor of the key, the key itself
    included, for which the driver answers with an ok status, with that
    answer; every key below it was valid and was fetched in vain.  If there
    is no such key the walk ends on the first invalid ancestor, without a
    source. *)
Theorem subTile_walk_finds_nearest_source (L : ElevationLayer) (io : IOOptions)
    (k : TileKey) :
  canceled io = false ->
  nearestSource L io k (subTile_walk L io k).
Proof.
  intros Hc. unfold subTile_walk. apply subTile_walk_loop; [done| |done].
  intros _. lia.
Qed.

Section ContenderWalkResult.
Context `{Collaborators}.
Variables (L : ElevationLayer) (io : IOOptions).

(** A key the compositor's walk can fetch at. *)
Definition fetchable (k : TileKey) : bool :=
  TileKey_valid k && isKeyInLegalRange L k.

(** What the walk of a contender ends with: it stopped [n] levels up, every
    key below was fetchable and gave no valid heightfield, and at that key
    the fetch faulted, or gave the valid heightfield the walk holds, or the
    key is not fetchable and the walk holds no valid heightfield. *)
Definition nearestHeightfield (k : TileKey) (w : ContenderWalk) : Prop :=
  exists n,
    actualKey w = ancestor n k
    /\ (forall m, m < n ->
          fetchable (ancestor m k) = true
          /\ exists r, createHeightfield L (ancestor m k) io = Ret r
                       /\ GeoHeightfield_valid (value r) = false)
    /\ ((fetchable (ancestor n k) = true /\ fetch_fault w = true
         /\ createHeightfield L (ancestor n k) io = Fault)
        \/ (fetchable (ancestor n k) = true /\ fetch_fault w = false
            /\ GeoHeightfield_valid (layerHF w) = true
            /\ exists r, createHeightfield L (ancestor n k) io = Ret r
                         /\ value r = layerHF w)
        \/ (fetchable (ancestor n k) = false /\ fetch_fault w = false
            /\ GeoHeightfield_valid (layerHF w) = false)).

Lemma contender_walk_loop (fuel : nat) (k : TileKey) (hf : GeoHeightfield) :
  (TileKey_valid k = true -> levelOfDetail k < fuel) ->
  GeoHeightfield_valid hf = false ->
  nearestHeightfield k
    (while_fuel fuel (contender_guard L) (contender_body L io) (mkContenderWalk hf k false)).
Proof.
  revert k hf. induction fuel as [|fuel IH]; intros k hf Hfuel Hhf.
  - exists 0. simpl. split; [done|]. split; [intros; lia|].
    right. right. split; [|done]. unfold fetchable.
    destruct (TileKey_valid k); [|done]. specialize (Hfuel eq_refl). lia.
  - cbn [while_fuel]. unfold contender_guard at 1. simpl. rewrite Hhf. simpl.
    fold (fetchable k).
    destruct (fetchable k) eqn:Hfetch.
    2: { exists 0. simpl. split; [done|]. split; [intros; lia|]. right. right. by split. }
    assert (Hstop : forall s, fetch_fault s = true \/ GeoHeightfield_valid (layerHF s) = true ->
              while_fuel fuel (contender_guard L) (contender_body L io) s = s).
    { intros s Hs. destruct fuel as [|fuel']; [done|]. cbn [while_fuel].
      unfold contender_guard. destruct Hs as [-> | ->]; [done|].
      by rewrite andb_false_r. }
    unfold contender_body at 2. simpl.
    destruct (createHeightfield L k io) as [|r] eqn:Hcreate.
    + rewrite Hstop by (by left). exists 0. simpl. split; [done|]. split; [intros; lia|].
      left. by rewrite Hfetch.
    + destruct (GeoHeightfield_valid (value r)) eqn:Hvalid; simpl.
      * rewrite Hstop by (by right). exists 0. simpl. split; [done|].
        split; [intros; lia|]. right. left. rewrite Hfetch.
        split; [done|]. split; [done|]. split; [done|]. by exists r.
      * destruct (IH (makeParent k) (value r)) as (n&Hkey&Hbelow&Hend); [|done|].
        { intros Hp. apply makeParent_level in Hp.
          unfold fetchable in Hfetch. apply andb_prop in Hfetch as [Hv _].
          specialize (Hfuel Hv). lia. }
        exists (S n). rewrite !ancestor_parent. split; [done|]. split; [|done].
        intros m Hm. destruct m as [|m].
        -- simpl. split; [done|]. by exists r.
        -- rewrite ancestor_parent. apply Hbelow. lia.
Qed.

(** X24: the walk the compositor makes for a contender that has no cached
    heightfield ends on the nearest ancestor of the contender's key, the key
    itself included, that is valid and in the layer's legal range and for
    which [createHeightfield] gives a valid heightfield, with that
    heightfield; every key below it was fetched without one.  Otherwise it
    ends where a fetch faulted, or on the first ancestor that is not valid
    or not in the legal range, without a heightfield. *)
Theorem contender_walk_finds_nearest_heightfield (k : TileKey) :
  nearestHeightfield k (contender_walk L io GeoHeightfield_INVALID k).
Proof.
  unfold contender_walk. apply contender_walk_loop; [|done]. intros _. lia.
Qed.

End ContenderWalkResult.

Lemma collectSources_flag_source (L : ElevationLayer) (io : IOOptions) (targetLOD : nat)
    (keys : list TileKey) (acc : list GeoHeightfield) (b : bool)
    (sources : list GeoHeightfield) (b' : bool) :
  collectSources L io targetLOD keys acc b = Some (sources, b') ->
  length acc <= length sources
  /\ (b' = true -> b = true \/ length acc < length sources).
Proof.
  revert acc b. induction keys as [|k keys IH]; intros acc b Hrun; simpl in Hrun.
  - inversion Hrun; subst. split; [done|]. by left.
  - destruct (walk_returned _); [done|].
    destruct (status_ok _); apply IH in Hrun as [Hlen Hflag]; [|done].
    rewrite length_app in *. simpl in *. split; [lia|]. intros _. right. lia.
Qed.

Section AssemblerBuilds.
Context `{Collaborators}.

(** X22: the assembler does build a mosaic when a source reached the target
    level: in a call that is not canceled, with every collected source
    holding a heightfield and a mosaic of fewer than 2^32 cells, it returns
    a mosaic of the largest source width by the largest source height that
    keeps every source alive - in whatever order the sort leaves them - and
    that holds NO_DATA_VALUE in every cell. *)
Theorem assembleHeightfield_builds_mosaic
    (L : ElevationLayer) (key0 : TileKey) (io : IOOptions)
    (sources : list GeoHeightfield) (cols rows : N) :
  collectSources L io (levelOfDetail key0)
    (getIntersectingKeys key0 (layer_profile L)) [] false = Some (sources, true) ->
  canceled io = false ->
  maxSourceSize sources 0 0 = Ret (cols, rows) ->
  (cols * rows < uint32_mod)%N ->
  sources <> []
  /\ exists m,
       assembleHeightfield L key0 io = Ret (Some m)
       /\ mosaic m = mkHeightfield cols rows
                       (replicate (N.to_nat (cols * rows)) NO_DATA_VALUE)
       /\ dependencies m ≡ₚ map heightfield sources.
Proof.
  intros Hcollect Hc Hsize Hfits.
  assert (Hne : sources <> []).
  { intros ->. apply collectSources_flag_source in Hcollect as [_ Hflag].
    destruct (Hflag eq_refl) as [?|Hlen]; [done|]. simpl in Hlen. lia. }
  split; [done|].
  destruct (buildMosaic_all_no_data key0 sources cols rows Hne Hsize Hfits)
    as (m&Hbuild&Hm).
  exists m. split; [|split; [done|]].
  - unfold assembleHeightfield. rewrite Hcollect, Hbuild. simpl. by rewrite Hc.
  - unfold buildMosaic in Hbuild. rewrite Hsize in Hbuild. simpl in Hbuild.
    destruct sources as [|source0 rest] eqn:Hsrc; [done|]. rewrite <- Hsrc in *.
    destruct (buildGrid _ _ _ _ _ _ _) as [|points]; [done|]. simpl in Hbuild.
    destruct (assignHeights _ _ _ _) as [|output]; [done|]. simpl in Hbuild.
    inversion Hbuild; subst m. simpl.
    apply fmap_Permutation, std_sort_Permutation.
Qed.

End AssemblerBuilds.

(** * The compositor returns *)

Lemma for_each_total {A St : Type} (P : St -> Prop) (body : A -> St -> outcome St)
    (l : list A) :
  (forall a s, a ∈ l -> P s -> exists s', body a s = Ret s' /\ P s') ->
  forall s, P s -> exists s', for_each l body s = Ret s' /\ P s'.
Proof.
  intros Hstep s Hs.
  apply (for_each_prefix_total (fun _ s => P s) body l); [|done].
  intros pre a s0 Hs0 Ha. by apply Hstep.
Qed.

Section CompositorSafety.
Context `{Collaborators}.
Variables (layers : list ElevationLayer) (io : IOOptions) (hf : Heightfield).

(** Every fetch from a layer of the stack returns, and the heightfields it
    returns hold width x height samples. *)
Hypothesis fetches_return :
  forall L k, L ∈ layers -> exists r, createHeightfield L k io = Ret r.
Hypothesis fetched_wf :
  forall L k r h, L ∈ layers -> createHeightfield L k io = Ret r ->
    heightfield (value r) = Some h -> Heightfield_wf h.
Hypothesis target_wf : Heightfield_wf hf.

Lemma classifyLayer_layers (hfWidth : N) (key0 query : TileKey) (i : nat)
    (L : ElevationLayer) (acc : Classification) :
  L ∈ layers ->
  (forall ld, ld ∈ contenders acc ++ offsets acc -> layer ld ∈ layers) ->
  forall ld, ld ∈ contenders (classifyLayer hfWidth key0 query i L acc)
                  ++ offsets (classifyLayer hfWidth key0 query i L acc) ->
    layer ld ∈ layers.
Proof.
  intros HL Hacc ld. unfold classifyLayer.
  destruct (isOpen L); [|by apply Hacc].
  destruct (levelOfDetail key0 <? minLevel L); [by apply Hacc|].
  destruct (TileKey_valid _); [|by apply Hacc].
  destruct (offset L); simpl; rewrite !elem_of_app; intros Hld;
    [destruct Hld as [Hld|[Hld|Hld]]|destruct Hld as [[Hld|Hld]|Hld]];
    try (apply Hacc; rewrite elem_of_app; by auto);
    apply list_elem_of_singleton in Hld; by subst ld.
Qed.

Lemma classifyLayers_layers (hfWidth : N) (key0 query : TileKey) :
  forall ld, ld ∈ contenders (classifyLayers hfWidth key0 query layers)
                  ++ offsets (classifyLayers hfWidth key0 query layers) ->
    layer ld ∈ layers.
Proof using Type.
  unfold classifyLayers.
  assert (Hin : forall il, il ∈ reverse (imap (fun i l => (i, l)) layers) -> il.2 ∈ layers).
  { intros [i L] Hil. rewrite elem_of_reverse in Hil.
    apply elem_of_lookup_imap in Hil as (j&L'&Heq&Hl). inversion Heq; subst.
    by eapply list_elem_of_lookup_2. }
  revert Hin. generalize (reverse (imap (fun i l => (i, l)) layers)). intros stack.
  induction stack as [|[i L] stack IH] using rev_ind; intros Hin.
  - simpl. intros ld Hld. by apply elem_of_nil in Hld.
  - rewrite foldl_app. simpl. apply classifyLayer_layers.
    + apply (Hin (i, L)). rewrite elem_of_app. right. left.
    + apply IH. intros il Hil. apply Hin. rewrite elem_of_app. by left.
Qed.

Lemma contender_walk_no_fault (L : ElevationLayer) (fuel : nat) (s : ContenderWalk) :
  L ∈ layers ->
  fetch_fault (while_fuel fuel (contender_guard L) (contender_body L io) s) = fetch_fault s.
Proof using fetches_return.
  intros HL. revert s. induction fuel as [|fuel IH]; intros s; simpl; [done|].
  destruct (contender_guard L s) eqn:Hg; [|done].
  rewrite IH. unfold contender_body.
  destruct (fetches_return L (actualKey s) HL) as (r&->). simpl.
  unfold contender_guard in Hg. by destruct (fetch_fault s).
Qed.

Lemma contenderStep_total (cs : list LayerData) (keySRS : SRS)
    (interpolation : Interpolation) (cell : Cell) (i : nat) (s : Sampling * Z) :
  (forall ld, ld ∈ cs -> layer ld ∈ layers) ->
  exists s', contenderStep cs keySRS interpolation io cell i s = Ret s'.
Proof using fetches_return.
  intros Hcs. destruct s as [st ri]. unfold contenderStep.
  destruct (0 <=? ri)%Z; [by eexists|].
  destruct (cs !! i) as [ld|] eqn:Hld; [|by eexists].
  destruct (default false (heightFailed st !! i)); [by eexists|].
  assert (HL : layer ld ∈ layers) by (by eapply Hcs, list_elem_of_lookup_2).
  set (hf0 := default GeoHeightfield_INVALID (heightfields st !! i)).
  set (k0 := default (key ld) (heightfieldActualKeys st !! i)).
  assert (Hw : fetch_fault
                 (if negb (GeoHeightfield_valid hf0)
                  then contender_walk (layer ld) io hf0 k0
                  else mkContenderWalk hf0 k0 false) = false).
  { destruct (negb (GeoHeightfield_valid hf0)); [|done].
    unfold contender_walk. by rewrite contender_walk_no_fault. }
  rewrite Hw. destruct (_ && _); by eexists.
Qed.

(** A cell of the target. *)
Definition inside (cell : Cell) : Prop :=
  (cell_c cell < width hf)%N /\ (cell_r cell < height hf)%N.

Lemma offsetStep_total (os : list LayerData) (keySRS : SRS)
    (interpolation : Interpolation) (cell : Cell) (resolvedIndex : Z) (i : nat)
    (st : Sampling) :
  (forall ld, ld ∈ os -> layer ld ∈ layers) ->
  inside cell -> same_size hf (target st) ->
  exists st', offsetStep os keySRS interpolation io cell resolvedIndex i st = Ret st'.
Proof using fetches_return target_wf.
  intros Hos [Hc Hr] (Hw&Hh&Hlen). unfold offsetStep.
  destruct (aborted st); [by eexists|].
  destruct (canceled io); [by eexists|].
  destruct (os !! i) as [ld|] eqn:Hld; [|by eexists].
  destruct (_ && _); [by eexists|].
  destruct (default false (offsetFailed st !! i)); [by eexists|].
  assert (HL : layer ld ∈ layers) by (by eapply Hos, list_elem_of_lookup_2).
  assert (Hfetch : exists hf1,
             (if negb (GeoHeightfield_valid
                         (default GeoHeightfield_INVALID (offsetfields st !! i)))
              then let! r := createHeightfield (layer ld) (key ld) io in Ret (value r)
              else Ret (default GeoHeightfield_INVALID (offsetfields st !! i)))
             = Ret hf1).
  { destruct (negb _); [|by eexists].
    destruct (fetches_return (layer ld) (key ld) HL) as (r&->). by eexists. }
  destruct Hfetch as (hf1&->). simpl.
  destruct (negb (GeoHeightfield_valid hf1)); [by eexists|].
  destruct (_ && _); [|by eexists].
  unfold Heightfield_read, cell_index.
  assert (Hidx : N.to_nat (cell_r cell * width (target st) + cell_c cell)
                 < length (data (target st))).
  { rewrite Hlen, Hw. unfold Heightfield_wf in target_wf. rewrite target_wf. nia. }
  destruct (lookup_lt_is_Some_2 _ _ Hidx) as [v ->]. simpl. by eexists.
Qed.

Lemma sampleCell_total (cs os : list LayerData) (keySRS : SRS)
    (interpolation : Interpolation) (cell : Cell) (st : Sampling) :
  (forall ld, ld ∈ cs -> layer ld ∈ layers) ->
  (forall ld, ld ∈ os -> layer ld ∈ layers) ->
  inside cell -> same_size hf (target st) ->
  exists st', sampleCell cs os keySRS interpolation io cell st = Ret st'
              /\ same_size hf (target st').
Proof using fetches_return target_wf.
  intros Hcs Hos Hcell Hst. unfold sampleCell.
  destruct (for_each_total (fun s : Sampling * Z => same_size hf (target s.1))
              (contenderStep cs keySRS interpolation io cell) (seq 0 (length cs)))
    with (s := (st, (-1)%Z)) as ([st1 ri]&Hrun&Hs1); [|done|].
  { intros i s _ Hs. destruct (contenderStep_total cs keySRS interpolation cell i s Hcs)
      as (s'&Hstep).
    exists s'. split; [done|]. by eapply contenderStep_same_size. }
  rewrite Hrun. simpl.
  apply (for_each_total (fun st => same_size hf (target st))); [|done].
  intros i s _ Hs.
  destruct (offsetStep_total os keySRS interpolation cell ri i s Hos Hcell Hs) as (s'&Hstep).
  exists s'. split; [done|]. by eapply offsetStep_same_size.
Qed.

Lemma sampleGrid_total (cs os : list LayerData) (keySRS : SRS)
    (interpolation : Interpolation) (xmin ymin dx dy : float) (st : Sampling) :
  (forall ld, ld ∈ cs -> layer ld ∈ layers) ->
  (forall ld, ld ∈ os -> layer ld ∈ layers) ->
  same_size hf (target st) ->
  exists st',
    sampleGrid cs os keySRS interpolation io (width hf) (height hf) xmin ymin dx dy st
    = Ret st'.
Proof using fetches_return target_wf.
  intros Hcs Hos Hst. unfold sampleGrid, for_upto.
  destruct (for_each_total (fun st => same_size hf (target st))
              (fun c st =>
                 if aborted st then Ret st
                 else if canceled io
                 then Ret (mkSampling (heightfields st) (heightfieldActualKeys st)
                             (offsetfields st) (heightFallback st) (heightFailed st)
                             (offsetFailed st) (numHeightfieldsInCache st) (realData st)
                             (nodataCount st) (target st) true)
                 else
                   for_each (seq 0 (N.to_nat (height hf)))
                     (fun r st =>
                        if aborted st then Ret st
                        else sampleCell cs os keySRS interpolation io
                               (mkCell (N.of_nat c) (N.of_nat r)
                                  (xmin + dx * double_of_unsigned (N.of_nat c))
                                  (ymin + dy * double_of_unsigned (N.of_nat r))) st) st)
              (seq 0 (N.to_nat (width hf)))) with (s := st) as (st'&Hrun&_); [|done|].
  - intros c s Hc Hs. apply elem_of_seq in Hc.
    destruct (aborted s); [by eexists|].
    destruct (canceled io); [by eexists|].
    apply (for_each_total (fun st => same_size hf (target st))); [|done].
    intros r s1 Hr Hs1. apply elem_of_seq in Hr.
    destruct (aborted s1); [by eexists|].
    apply sampleCell_total; try done. unfold inside. simpl. lia.
  - by exists st'.
Qed.

(** X25: the compositor returns.  Called without a resolutions vector, on
    a target that holds width x height samples and a stack whose fetches all
    return, with heightfields that hold width x height samples,
    [populateHeightfield] returns a result: no fallback walk meets a
    faulting fetch, the copy of the single-layer shortcut finds a source
    buffer as long as the target's, and every read the offset loop makes of
    the target falls inside its buffer.  (Stores are not checked: a store
    outside the buffer is not a fault here.) *)
Theorem populateHeightfield_returns
    (geodeticExtent : GeoExtent -> GeoExtent) (key0 : TileKey) (haeProfile : Profile)
    (interpolation : Interpolation) :
  exists p,
    populateHeightfield geodeticExtent layers (Some hf) key0 haeProfile interpolation io
    = Ret p.
Proof using fetches_return fetched_wf target_wf.
  unfold populateHeightfield.
  set (cl := classifyLayers (width hf) key0 (keyToUse key0 haeProfile) layers).
  pose proof (classifyLayers_layers (width hf) key0 (keyToUse key0 haeProfile)) as Hcl.
  fold cl in Hcl.
  assert (Hcs : forall ld, ld ∈ contenders cl -> layer ld ∈ layers).
  { intros ld Hld. apply Hcl. rewrite elem_of_app. by left. }
  assert (Hos : forall ld, ld ∈ offsets cl -> layer ld ∈ layers).
  { intros ld Hld. apply Hcl. rewrite elem_of_app. by right. }
  destruct (empty _ && empty _); [by eexists|].
  destruct (_ =? _)%nat; [by eexists|].
  assert (Hfast : exists fast, fastPath (contenders cl) (offsets cl) io hf = Ret fast).
  { unfold fastPath. destruct (contenders cl) as [|c0 [|c1 rest]] eqn:Hcont;
      try (by eexists).
    destruct (offsets cl); [|by eexists].
    assert (HL : layer c0 ∈ layers) by (apply Hcs; left).
    destruct (fetches_return (layer c0) (key c0) HL) as (r&Hr). rewrite Hr. simpl.
    destruct (GeoHeightfield_valid (value r)) eqn:Hvalid; [|by eexists].
    destruct (heightfield (value r)) as [src|] eqn:Hsrc.
    2: { unfold GeoHeightfield_valid in Hvalid. rewrite Hsrc in Hvalid.
         by rewrite andb_false_r in Hvalid. }
    destruct (N.eqb_spec (width src) (width hf)) as [Hw|]; [|by eexists].
    destruct (N.eqb_spec (height src) (height hf)) as [Hh|]; [|by eexists].
    simpl. unfold memcpy_samples.
    pose proof (fetched_wf _ _ _ _ HL Hr Hsrc) as Hwf. unfold Heightfield_wf in *.
    destruct (decide _) as [_|Hno]; [by eexists|].
    exfalso. apply Hno. rewrite Hwf, target_wf, Hw, Hh. lia. }
  destruct Hfast as (fast&->). simpl.
  assert (Hst : exists st,
             match fast with
             | Some copied => Ret (mkSampling [] [] [] [] [] [] 0 true 0 copied false)
             | None => resample (contenders cl) (offsets cl) key0
                         (profile_srs (profile (keyToUse key0 haeProfile)))
                         interpolation io hf
             end = Ret st).
  { destruct fast; [by eexists|]. unfold resample. by apply sampleGrid_total. }
  destruct Hst as (st&->). simpl.
  destruct (aborted st); [by eexists|]. simpl.
  destruct (canceled io); by eexists.
Qed.

End CompositorSafety.

(** * Instances of the results above in the concrete world *)

Definition io_canceled : IOOptions := mkIOOptions true.

(** A layer whose driver answers every key with an ok status and no
    heightfield. *)
Definition layer_null : ElevationLayer :=
  demo_layer false (fun _ _ => Result_of (mkGeoHeightfield None unit_extent)).

Lemma createHeightfield_returns_validated_heightfield_witness :
  legal_size (mkHeightfield 2 2 [5; - FLT_MAX; 7; 8]%float)
  /\ extent (value (raster [5; - FLT_MAX; 7; 8]%float)) = @TileKey_extent demo keyA
  /\ isOpen (layer_everywhere [5; 2000; 7; 8]%float) = true
  /\ profile_valid (layer_profile (layer_everywhere [5; 2000; 7; 8]%float)) = true
  /\ isKeyInLegalRange (layer_everywhere [5; 2000; 7; 8]%float) keyA = true
  /\ canceled io_running = false.
Proof.
  apply (@createHeightfield_returns_validated_heightfield demo
           (layer_everywhere [5; 2000; 7; 8]%float) keyA io_running
           (raster [5; - FLT_MAX; 7; 8]%float)
           (mkHeightfield 2 2 [5; - FLT_MAX; 7; 8]%float)).
  - vm_compute. reflexivity.
  - reflexivity.
  - reflexivity.
Defined.

Lemma createHeightfield_fails_iff_witness :
  (status_ok (Result_error ResourceUnavailable) = false <->
     isOpen layer_unavailable = true
     /\ (profile_valid (layer_profile layer_unavailable) = false
         \/ (isKeyInLegalRange layer_unavailable keyA = true
             /\ ((exists d, driver_failure layer_unavailable keyA io_running = Some d)
                 \/ exists g h,
                      @acquireHeightfield demo layer_unavailable keyA io_running
                      = Ret (inr g)
                      /\ canceled io_running = false /\ heightfield g = Some h
                      /\ ~ legal_size h))))
  /\ (isOpen layer_unavailable = true ->
      profile_valid (layer_profile layer_unavailable) = true ->
      isKeyInLegalRange layer_unavailable keyA = true ->
      forall d, driver_failure layer_unavailable keyA io_running = Some d ->
        Result_error ResourceUnavailable = d)
  /\ (isOpen layer_unavailable = false ->
      Result_error ResourceUnavailable = Result_of GeoHeightfield_INVALID).
Proof.
  apply (@createHeightfield_fails_iff demo layer_unavailable keyA io_running
           (Result_error ResourceUnavailable)).
  vm_compute. reflexivity.
Defined.

Lemma populateHeightfield_canceled_returns_false_witness :
  returned (mkPopulated false return_canceled_sampling (Some used_target)) = false
  /\ site (mkPopulated false return_canceled_sampling (Some used_target)) <> return_realData
  /\ (site (mkPopulated false return_canceled_sampling (Some used_target))
      = return_canceled_sampling ->
      output (mkPopulated false return_canceled_sampling (Some used_target))
      = Some used_target).
Proof.
  apply (@populateHeightfield_canceled_returns_false demo (fun e => e) stack_10_20_30
           (Some used_target) keyA Profile_default BILINEAR io_canceled).
  - reflexivity.
  - vm_compute. reflexivity.
Defined.

Lemma populateHeightfield_keeps_size_witness :
  exists out,
    output (mkPopulated true return_realData (Some (mkHeightfield 2 2 (flat 30))))
    = Some out
    /\ same_size used_target out.
Proof.
  apply (@populateHeightfield_keeps_size demo (fun e => e) stack_10_20_30
           used_target keyA Profile_default BILINEAR io_running).
  vm_compute. reflexivity.
Defined.

Lemma populateHeightfield_true_needs_exact_layer_witness :
  canceled io_running = false
  /\ exists L, L ∈ stack_10_20_30
       /\ @usableLayer demo (width used_target) keyA (keyToUse keyA Profile_default) L = true
       /\ @fallbackOnly demo (width used_target) (keyToUse keyA Profile_default) L = false.
Proof.
  apply (@populateHeightfield_true_needs_exact_layer demo (fun e => e) stack_10_20_30
           used_target keyA Profile_default BILINEAR io_running
           (mkPopulated true return_realData (Some (mkHeightfield 2 2 (flat 30))))).
  - vm_compute. reflexivity.
  - reflexivity.
Defined.

Lemma resample_cache_is_transparent_witness :
  let cl := @classifyLayers demo (width used_target) keyA keyA stack_10_20_30 in
  let ext := @TileKey_extent demo keyA in
  let dx := (extent_width ext / double_of_unsigned (unsigned_sub (width used_target) 1))%float in
  let dy := (extent_height ext / double_of_unsigned (unsigned_sub (height used_target) 1))%float in
  sim (fun st d => data (target st) = d /\ width (target st) = width used_target
                   /\ height (target st) = height used_target /\ aborted st = false)
    (@resample demo (contenders cl) (offsets cl) keyA 1 BILINEAR io_running used_target)
    (@specGrid demo (contenders cl) (offsets cl) 1 BILINEAR io_running
       (width used_target) (width used_target) (height used_target)
       (xMin ext) (yMin ext) dx dy (data used_target)).
Proof.
  apply (@resample_cache_is_transparent demo stack_10_20_30 keyA keyA 1 BILINEAR
           io_running used_target).
  reflexivity.
Defined.

Lemma assembleHeightfield_canceled_is_empty_witness :
  @assembleHeightfield demo (layer_level1 [5; 6; 7; 8]%float) keyB io_canceled = Ret None.
Proof.
  apply (@assembleHeightfield_canceled_is_empty demo). reflexivity.
Defined.

Lemma assembleHeightfield_null_source_faults_witness :
  @assembleHeightfield demo layer_null keyB io_running = Fault.
Proof.
  apply (@assembleHeightfield_null_source_faults demo layer_null keyB io_running
           [mkGeoHeightfield None unit_extent]).
  - vm_compute. reflexivity.
  - exists (mkGeoHeightfield None unit_extent). split; [left|reflexivity].
Defined.

Definition unsampled_mosaic : HeightfieldMosaic :=
  mkHeightfieldMosaic (mkHeightfield 2 2 (flat (- FLT_MAX)))
    [Some (mkHeightfield 2 2 [5; 6; 7; 8]%float)].

Lemma assembleHeightfield_mosaic_covers_sources_witness :
  exists sources,
    collectSources (layer_level1 [5; 6; 7; 8]%float) io_running (levelOfDetail keyB)
      (@getIntersectingKeys demo keyB (layer_profile (layer_level1 [5; 6; 7; 8]%float)))
      [] false = Some (sources, true)
    /\ dependencies unsampled_mosaic ≡ₚ map heightfield sources
    /\ (forall s, s ∈ sources ->
          exists h, heightfield s = Some h
                    /\ (width h <= width (mosaic unsampled_mosaic))%N
                    /\ (height h <= height (mosaic unsampled_mosaic))%N)
    /\ (exists s h, s ∈ sources /\ heightfield s = Some h
                    /\ width h = width (mosaic unsampled_mosaic))
    /\ (exists s h, s ∈ sources /\ heightfield s = Some h
                    /\ height h = height (mosaic unsampled_mosaic)).
Proof.
  apply (@assembleHeightfield_mosaic_covers_sources demo (layer_level1 [5; 6; 7; 8]%float)
           keyB io_running unsampled_mosaic).
  vm_compute. reflexivity.
Defined.

Lemma assembleHeightfield_mosaic_all_no_data_witness :
  data (mosaic unsampled_mosaic)
  = replicate (N.to_nat (width (mosaic unsampled_mosaic) * height (mosaic unsampled_mosaic)))
      (@NO_DATA_VALUE demo).
Proof.
  apply (@assembleHeightfield_mosaic_all_no_data demo (layer_level1 [5; 6; 7; 8]%float)
           keyB io_running unsampled_mosaic).
  - vm_compute. reflexivity.
  - reflexivity.
Defined.

(** A GDAL backend whose dataset opens and holds one 2 x 2 float image. *)
Definition gray (v : float) : fvec4 := mkfvec4 v v v 1.

Definition float_image : Image :=
  mkImage true R32_SFLOAT 2 2 (fun x y => gray (double_of_unsigned (x + 2 * y))).

Definition closed_driver : GDALDriver := mkGDALDriver None None None None false Profile_default.
Definition open_driver : GDALDriver := mkGDALDriver None None None None true profileA.

Definition demo_backend : GDALBackend :=
  mkGDALBackend
    (fun _ _ _ _ => (Status_OK, open_driver, [unit_extent]))
    (fun d _ _ _ => (mkResult NoError (Some float_image), d))
    (fun img =>
       mkHeightfield (image_width img) (image_height img)
         [px_r (image_read img 0 0); px_r (image_read img 1 0);
          px_r (image_read img 0 1); px_r (image_read img 1 1)]).

Definition gdal_layer : GDALElevationLayer :=
  mkGDALElevationLayer None None None None 2 profileA [] closed_driver.

Definition gdal_answer : Result GeoHeightfield :=
  Result_of (mkGeoHeightfield (Some (mkHeightfield 2 2 [0; 1; 2; 3]%float)) unit_extent).

Lemma GDAL_createHeightfieldImplementation_results_witness :
  let opened := @threadDriver demo_backend gdal_layer io_running in
  let created :=
    driver_createImage demo_backend opened keyA (gdal_tileSize gdal_layer) io_running in
  (Status_failed Status_OK = true ->
     gdal_answer = Result_error (code Status_OK) /\ open_driver = gdal_driver gdal_layer)
  /\ (Status_failed Status_OK = false ->
      (status_ok gdal_answer = true
       /\ extent (value gdal_answer) = @TileKey_extent demo keyA
       /\ driver_isOpen opened = true /\ status_ok created.1 = true
       /\ open_driver = created.2)
      \/ (gdal_answer = Result_error ResourceUnavailable
          /\ ((driver_isOpen opened = false /\ open_driver = opened)
              \/ (driver_isOpen opened = true /\ status_ok created.1 = false
                  /\ open_driver = created.2)))).
Proof.
  apply (@GDAL_createHeightfieldImplementation_results demo demo_backend Status_OK
           gdal_layer keyA io_running gdal_answer open_driver).
  vm_compute. reflexivity.
Defined.

Lemma GDAL_isValidValue_accepts_nan_witness :
  GDAL_isValidValue open_driver (Some (-9999)%float) nan = true
  /\ @normalize_sample demo layer_unavailable nan = @NO_DATA_VALUE demo.
Proof.
  apply (@GDAL_isValidValue_accepts_nan demo open_driver (Some (-9999)%float)
           layer_unavailable nan).
  reflexivity.
Defined.

(** Image collaborators for the examples: the equivalent level is the level
    itself, one key intersects an extent at a level, a read gives the first
    pixel of the source's image, pixels are stored as they are, and the
    cache is a list of entries, the latest first. *)
Definition demo_images : ImageCollaborators :=
  {| getEquivalentLOD := fun _ _ l => Z.of_nat l;
     getIntersectingKeys_at := fun _ l p => [mkTileKey (Z.to_nat l) 0 0 p];
     GeoImage_read := fun g pixel _ _ =>
       match geo_image g with
       | Some img => (true, image_read img 0 0)
       | None => (false, pixel)
       end;
     unorm8 := fun pixel => pixel;
     DependencyCache := list (TileKey * Image);
     cache_get := fun cache k =>
       match filter (fun e : TileKey * Image => TileKey_eqb e.1 k = true) cache with
       | e :: _ => Some e.2
       | [] => None
       end;
     cache_put := fun cache k img =>
       match img with
       | Some i => (k, i) :: cache
       | None => cache
       end |}.

Definition flat_image (v : float) : Image :=
  mkImage true R8G8B8A8_UNORM 2 2 (fun _ _ => gray v).

(** An image layer in [profileA] with the same picture at every key; the
    level 0 tile may have data. *)
Definition picture_layer (is_open : bool) : ImageLayer :=
  mkImageLayer is_open profileA (fun _ => true)
    (fun k => Nat.eqb (levelOfDetail k) 0)
    (fun _ _ => mkResult NoError (mkGeoImage (Some (flat_image 7)) unit_extent)).

Definition keyB0 : TileKey := mkTileKey 0 0 0 profileB.

Lemma imageKeys_from_ancestors_witness :
  @imageKeys demo demo_images (picture_layer true) keyB
  = concat (map (fun a => @getIntersectingKeys demo a (image_profile (picture_layer true)))
              (ancestors (levelOfDetail keyB) keyB))
  /\ map levelOfDetail (ancestors (levelOfDetail keyB) keyB)
     = reverse (seq 1 (levelOfDetail keyB)).
Proof.
  apply (@imageKeys_from_ancestors demo demo_images (picture_layer true) keyB).
  simpl. lia.
Defined.

Lemma createImageInKeyProfile_status_witness :
  (image_isOpen (picture_layer false) = false
   \/ image_isKeyInLegalRange (picture_layer false) keyB = false ->
     mkResult NoError GeoImage_INVALID = mkResult NoError GeoImage_INVALID
     /\ @nil (TileKey * Image) = [])
  /\ (image_isOpen (picture_layer false) = true ->
      image_isKeyInLegalRange (picture_layer false) keyB = true ->
      profile_valid (image_profile (picture_layer false)) = false
      \/ Profile_eqb (profile keyB) (image_profile (picture_layer false)) = true ->
      mkResult NoError GeoImage_INVALID
      = createImageImplementation (picture_layer false) keyB io_running
      /\ @nil (TileKey * Image) = [])
  /\ (image_isOpen (picture_layer false) = true ->
      image_isKeyInLegalRange (picture_layer false) keyB = true ->
      profile_valid (image_profile (picture_layer false)) = true ->
      Profile_eqb (profile keyB) (image_profile (picture_layer false)) = false ->
      status_ok (mkResult NoError GeoImage_INVALID) = true
      /\ geo_extent (value (mkResult NoError GeoImage_INVALID)) = @TileKey_extent demo keyB)
  /\ (status_ok (mkResult NoError GeoImage_INVALID) = false ->
      mkResult NoError GeoImage_INVALID
      = createImageImplementation (picture_layer false) keyB io_running).
Proof.
  apply (@createImageInKeyProfile_status demo demo_images (picture_layer false) keyB
           io_running [] [] (mkResult NoError GeoImage_INVALID)).
  reflexivity.
Defined.

Definition picture_source : GeoImage := mkGeoImage (Some (flat_image 7)) unit_extent.

Lemma assembleImage_samples_every_pixel_witness :
  exists width height,
    maxImageSize [picture_source] 0 0 = Ret (width, height)
    /\ ((width * height < uint32_mod)%N ->
        exists out,
          @assembleImage demo demo_images (picture_layer true) keyB io_running []
          = Ret (Some out, [(keyA, flat_image 7)])
          /\ image_width (composite out) = width
          /\ image_height (composite out) = height
          /\ composite_dependencies out = map geo_image [picture_source]
          /\ forall c r : N,
               (c < width)%N -> (r < height)%N ->
               image_read (composite out) c r
               = @unorm8 demo_images
                   (@samplePixel demo_images [picture_source]
                      (vx (@imagePoint demo keyB [picture_source] width height c r))
                      (vy (@imagePoint demo keyB [picture_source] width height c r))
                      (mkfvec4 0 0 0 0))).
Proof.
  apply (@assembleImage_samples_every_pixel demo demo_images (picture_layer true) keyB
           io_running [] [(keyA, flat_image 7)] [picture_source]).
  - vm_compute. reflexivity.
  - discriminate.
  - reflexivity.
Defined.

Lemma imageKeys_at_level_zero_witness :
  let lod := @getEquivalentLOD demo_images (image_profile (picture_layer true))
               (profile keyB0) (levelOfDetail keyB0) in
  ((lod < 0)%Z -> @imageKeys demo demo_images (picture_layer true) keyB0 = [])
  /\ ((0 <= lod)%Z ->
      exists l,
        (0 <= l <= lod)%Z
        /\ @imageKeys demo demo_images (picture_layer true) keyB0
           = @keysAt demo demo_images (picture_layer true) keyB0 l
        /\ (l = 0%Z \/ ~ noData (picture_layer true)
                            (@keysAt demo demo_images (picture_layer true) keyB0 l))
        /\ forall l', (l < l' <= lod)%Z ->
             noData (picture_layer true)
               (@keysAt demo demo_images (picture_layer true) keyB0 l')).
Proof.
  apply (@imageKeys_at_level_zero demo demo_images (picture_layer true) keyB0).
  - reflexivity.
  - intros l. simpl. unfold uint32_mod. lia.
Defined.

Lemma assembleHeightfield_builds_mosaic_witness :
  [mkGeoHeightfield (Some (mkHeightfield 2 2 [5; 6; 7; 8]%float)) unit_extent] <> []
  /\ exists m,
       @assembleHeightfield demo (layer_level1 [5; 6; 7; 8]%float) keyB io_running
       = Ret (Some m)
       /\ mosaic m = mkHeightfield 2 2 (replicate (N.to_nat (2 * 2)) (@NO_DATA_VALUE demo))
       /\ dependencies m
          ≡ₚ map heightfield
               [mkGeoHeightfield (Some (mkHeightfield 2 2 [5; 6; 7; 8]%float)) unit_extent].
Proof.
  apply (@assembleHeightfield_builds_mosaic demo (layer_level1 [5; 6; 7; 8]%float)
           keyB io_running
           [mkGeoHeightfield (Some (mkHeightfield 2 2 [5; 6; 7; 8]%float)) unit_extent] 2 2).
  - vm_compute. reflexivity.
  - reflexivity.
  - vm_compute. reflexivity.
  - vm_compute. reflexivity.
Defined.

(** From level 1 of a layer that has data at level 0 only, the walk stops
    one level up. *)
Lemma subTile_walk_finds_nearest_source_witness :
  nearestSource (layer_level0 [5; 6; 7; 8]%float) io_running keyA
    (subTile_walk (layer_level0 [5; 6; 7; 8]%float) io_running keyA).
Proof.
  apply (subTile_walk_finds_nearest_source (layer_level0 [5; 6; 7; 8]%float) io_running keyA).
  reflexivity.
Defined.

(** A layer that takes the keys of its own profile only. *)
Definition layer_in_profile (samples : list float) : ElevationLayer :=
  mkElevationLayer true profileA 0 2 false
    (- FLT_MAX)%float (-1000)%float 1000%float
    (fun k => Profile_eqb (profile k) profileA) (fun k => k) (fun _ _ => raster samples).

Lemma populateHeightfield_returns_witness :
  exists p,
    @populateHeightfield demo (fun e => e)
      [layer_in_profile (flat 10); layer_in_profile (flat 20)] (Some used_target)
      keyA Profile_default BILINEAR io_running = Ret p.
Proof.
  apply (@populateHeightfield_returns demo
           [layer_in_profile (flat 10); layer_in_profile (flat 20)] io_running used_target).
  - intros L k HL.
    assert (HL' : L = layer_in_profile (flat 10) \/ L = layer_in_profile (flat 20)).
    { apply elem_of_cons in HL as [->|HL]; [by left|].
      apply list_elem_of_singleton in HL. by right. }
    unfold createHeightfield, createHeightfieldInKeyProfile, acquireHeightfield.
    destruct HL' as [->| ->]; simpl;
      destruct (Profile_eqb (profile k) profileA); simpl; eexists; reflexivity.
  - intros L k r h HL.
    assert (HL' : L = layer_in_profile (flat 10) \/ L = layer_in_profile (flat 20)).
    { apply elem_of_cons in HL as [->|HL]; [by left|].
      apply list_elem_of_singleton in HL. by right. }
    unfold createHeightfield, createHeightfieldInKeyProfile, acquireHeightfield.
    destruct HL' as [->| ->]; simpl;
      destruct (Profile_eqb (profile k) profileA); simpl;
      intros Hr Hh; inversion Hr; subst r; simpl in Hh; inversion Hh; reflexivity.
  - reflexivity.
Defined.
